(** * C# review server: the Roslyn analyzer and its orchestrator

    A shallow embedding of the programs of the repository and of the
    process boundary between them:

    - [roslyn-analyzer/Program.cs]: metrics, the four suggestion
      generators and the aggregation into an [AnalysisResult];
    - [src/roslynAnalyzer.ts]: the availability check, [analyzeCode],
      which stages the input, spawns the analyzer and parses its output,
      the build and the report;
    - [src/docFetcher.ts], [src/index.ts] and [src/prepopulateCache.ts]:
      the documentation cache of the server, its resources and the
      script that fills the cache.

    Strings of the programs are sequences of UTF-16 code units; they are
    modelled as lists of [N]. *)

From Stdlib Require Import ZArith NArith List String Ascii Lia Bool.
From stdpp Require Import base list gmap.

Local Open Scope N_scope.
Set Warnings "-register-all".

(* ================================================================== *)
(** * Text: UTF-16 strings and the string functions the code calls     *)
(* ================================================================== *)

Module Text.

(** A string is a list of UTF-16 code units. *)
Definition text := list N.

(** A literal of the source, written as an ASCII string. *)
Definition lit (s : string) : text :=
  List.map N_of_ascii (list_ascii_of_string s).

Definition text_eqb (a b : text) : bool := bool_decide (a = b).

(** [s.StartsWith(p)] / [s.startsWith(p)], compared code unit by
    code unit.  (The C# overloads with one string argument compare by
    the current culture; on the ASCII arguments of the callers the two
    comparisons differ only for texts with ignorable characters.) *)
Fixpoint StartsWith (s p : text) {struct p} : bool :=
  match p, s with
  | [], _ => true
  | _ :: _, [] => false
  | c :: p', d :: s' => (c =? d) && StartsWith s' p'
  end.

(** [s.Contains(sub)]: some suffix of [s] starts with [sub]. *)
Fixpoint Contains (s sub : text) : bool :=
  StartsWith s sub ||
  match s with
  | [] => false
  | _ :: s' => Contains s' sub
  end.

(** [s.EndsWith(suf)] / [s.endsWith(suf)]. *)
Definition EndsWith (s suf : text) : bool :=
  StartsWith (rev s) (rev suf).

(** [ToLower] on the Basic Latin range, where all cultures but the
    Turkic ones agree; other code units are left as they are. *)
Definition lower_char (c : N) : N :=
  if (65 <=? c) && (c <=? 90) then c + 32 else c.

Definition ToLower (s : text) : text := List.map lower_char s.

(** [s.Split(sep)] for a single separator character: the pieces
    between the separators, always at least one piece. *)
Fixpoint Split (sep : N) (s : text) : list text :=
  match s with
  | [] => [[]]
  | c :: s' =>
      if c =? sep then [] :: Split sep s'
      else match Split sep s' with
           | [] => [[c]]
           | p :: ps => (c :: p) :: ps
           end
  end.

(** [char.IsWhiteSpace]. *)
Definition IsWhiteSpace (c : N) : bool :=
  (c =? 32) || ((9 <=? c) && (c <=? 13)) || (c =? 133) || (c =? 160)
  || (c =? 5760) || ((8192 <=? c) && (c <=? 8202))
  || (c =? 8232) || (c =? 8233) || (c =? 8239) || (c =? 8287)
  || (c =? 12288).

(** [string.IsNullOrWhiteSpace]. *)
Definition IsNullOrWhiteSpace (s : text) : bool := forallb IsWhiteSpace s.

(** The first separator of [seps] that [s] starts with. *)
Fixpoint first_sep (seps : list text) (s : text) : option text :=
  match seps with
  | [] => None
  | p :: seps' => if StartsWith s p then Some p else first_sep seps' s
  end.

(** The number of separators [s.Split(seps, None)] cuts at, that is
    [Split(...).Length - 1]: the string is scanned from the left, and
    after a separator the scan resumes behind it.  All separators of
    the callers are non-empty. *)
Fixpoint count_seps (fuel : nat) (seps : list text) (s : text) : nat :=
  match fuel with
  | O => O
  | S fuel' =>
      match s with
      | [] => O
      | _ :: s' =>
          match first_sep seps s with
          | Some p =>
              S (count_seps fuel' seps (drop (Nat.pred (length p)) s'))
          | None => count_seps fuel' seps s'
          end
      end
  end.

Definition SplitCount (seps : list text) (s : text) : nat :=
  count_seps (length s) seps s.

(** Decimal digits of a natural number, most significant first. *)
Fixpoint digits_aux (fuel : nat) (n : N) (acc : text) : text :=
  match fuel with
  | O => acc
  | S fuel' =>
      let acc' := (48 + n mod 10) :: acc in
      if n <? 10 then acc' else digits_aux fuel' (n / 10) acc'
  end.

Definition digits (n : N) : text :=
  digits_aux (S (N.to_nat (N.log2 n))) n [].

(** An integer in decimal, as [int.ToString()] and the template
    literal [`${n}`] print it. *)
Definition of_Z (z : Z) : text :=
  match z with
  | Zneg p => 45 :: digits (Npos p)
  | _ => digits (Z.to_N z)
  end.

End Text.

Import Text.


(* ================================================================== *)
(** * The syntax tree of the Tree Provider                             *)
(* ================================================================== *)

(** The analyzer reads the tree that Roslyn's parser returns.  A node has
    a kind, its text ([ToString()]), for declarations an identifier, its
    modifier tokens and the trivia in front of it, and its child nodes in
    source order.  The kinds the analyzer tests for are listed, and with
    them the two kinds that stand beside them in the grammar: the
    for-each statement that deconstructs its element
    ([foreach (var (a, b) in xs)], a [ForEachVariableStatementSyntax])
    and the case label with a pattern ([case int n:], a
    [CasePatternSwitchLabelSyntax]).  Every other kind is one of the
    [Other...] kinds of its syntax class. *)

Module Roslyn.

Inductive SyntaxKind :=
| CompilationUnit
| ClassDeclaration | MethodDeclaration | OtherMemberDeclaration
| Block | IfStatement | WhileStatement | ForStatement
| ForEachStatement | ForEachVariableStatement
| CaseSwitchLabel | CasePatternSwitchLabel
| CatchClause | CatchDeclaration | ThrowStatement
| ConditionalExpression
| AddExpression | LogicalAndExpression | LogicalOrExpression
| OtherBinaryExpression
| AssignmentExpression
| StringLiteralExpression | OtherLiteralExpression
| VariableDeclarator | EqualsValueClause
| InvocationExpression | ObjectCreationExpression
| AwaitExpression | QueryExpression
| OtherKind.

Inductive TokenKind := PublicKeyword | AsyncKeyword | OtherKeyword.

Inductive TriviaKind :=
| SingleLineDocumentationCommentTrivia
| MultiLineDocumentationCommentTrivia
| OtherTrivia.

Record NodeInfo := {
  Text : text;                      (* ToString() *)
  IdentifierText : text;            (* Identifier.Text *)
  Modifiers : list TokenKind;
  LeadingTrivia : list TriviaKind   (* GetLeadingTrivia() *)
}.

Inductive SyntaxNode :=
| Node (kind : SyntaxKind) (info : NodeInfo) (children : list SyntaxNode).

Definition Kind (n : SyntaxNode) : SyntaxKind :=
  match n with Node k _ _ => k end.
Definition Info (n : SyntaxNode) : NodeInfo :=
  match n with Node _ i _ => i end.
Definition ChildNodes (n : SyntaxNode) : list SyntaxNode :=
  match n with Node _ _ cs => cs end.

Definition ToString (n : SyntaxNode) : text := Text (Info n).
Definition Identifier (n : SyntaxNode) : text := IdentifierText (Info n).

#[global] Instance SyntaxKind_eq_dec : EqDecision SyntaxKind.
Proof. solve_decision. Defined.
#[global] Instance TokenKind_eq_dec : EqDecision TokenKind.
Proof. solve_decision. Defined.
#[global] Instance TriviaKind_eq_dec : EqDecision TriviaKind.
Proof. solve_decision. Defined.

(** [n.IsKind(k)]. *)
Definition IsKind (k : SyntaxKind) (n : SyntaxNode) : bool :=
  bool_decide (Kind n = k).

(** The syntax classes that [OfType<...>] and [is] test. *)
Definition IsBinaryExpression (n : SyntaxNode) : bool :=
  match Kind n with
  | AddExpression | LogicalAndExpression | LogicalOrExpression
  | OtherBinaryExpression => true
  | _ => false
  end.

Definition IsLiteralExpression (n : SyntaxNode) : bool :=
  match Kind n with
  | StringLiteralExpression | OtherLiteralExpression => true
  | _ => false
  end.

Definition IsMemberDeclaration (n : SyntaxNode) : bool :=
  match Kind n with
  | ClassDeclaration | MethodDeclaration | OtherMemberDeclaration => true
  | _ => false
  end.

(** [n.DescendantNodes()]: the nodes below [n] in document order,
    [n] itself excluded. *)
Fixpoint DescendantNodes (n : SyntaxNode) : list SyntaxNode :=
  match n with
  | Node _ _ cs => flat_map (fun c => c :: DescendantNodes c) cs
  end.

(** The same traversal, each node with its [Parent]. *)
Fixpoint DescendantNodesWithParent (n : SyntaxNode)
  : list (SyntaxNode * SyntaxNode) :=
  match n with
  | Node _ _ cs =>
      flat_map (fun c => (c, n) :: DescendantNodesWithParent c) cs
  end.

Definition OfKind (k : SyntaxKind) (ns : list SyntaxNode)
  : list SyntaxNode := List.filter (IsKind k) ns.

(** Child accessors.  The parser fills every required child, with a
    zero-width node where the source has none, so a missing child
    reads as the empty text. *)
Definition TextOf (o : option SyntaxNode) : text :=
  match o with Some n => ToString n | None => [] end.

Definition child (i : nat) (n : SyntaxNode) : option SyntaxNode :=
  nth_error (ChildNodes n) i.

Definition childOfKind (k : SyntaxKind) (n : SyntaxNode)
  : option SyntaxNode := List.find (IsKind k) (ChildNodes n).

(** [Left] and [Right] of a binary or assignment expression. *)
Definition Left := child 0.
Definition Right := child 1.
(** [Expression] of an invocation. *)
Definition Expression := child 0.
(** [Type] of an object creation or of a catch declaration. *)
Definition Type_ := child 0.
(** [Initializer] of a variable declarator, its [Value]. *)
Definition Initializer := childOfKind EqualsValueClause.
Definition Value := child 0.
(** [Declaration] and [Block] of a catch clause. *)
Definition Declaration := childOfKind CatchDeclaration.
Definition Block_ := childOfKind Block.
(** [Members] of a class declaration. *)
Definition Members (n : SyntaxNode) : list SyntaxNode :=
  List.filter IsMemberDeclaration (ChildNodes n).

(** Compiler diagnostics, as [compilation.GetDiagnostics()] yields
    them. *)
Inductive DiagnosticSeverity := Hidden | Info_ | Warning | Error.

Record Diagnostic := {
  Diagnostic_Id : text;
  Diagnostic_Severity : DiagnosticSeverity;
  Diagnostic_GetMessage : text;
  Diagnostic_Category : text;         (* Descriptor.Category *)
  (* Location.GetLineSpan(): StartLinePosition and Path; the path is
     null for a diagnostic without a location in source *)
  StartLine : Z;
  StartCharacter : Z;
  Path : option text
}.

Definition Severity_ToString (s : DiagnosticSeverity) : text :=
  match s with
  | Hidden => lit "Hidden"
  | Info_ => lit "Info"
  | Warning => lit "Warning"
  | Error => lit "Error"
  end.

End Roslyn.

Import Roslyn.

(* ================================================================== *)
(** * roslyn-analyzer/Program.cs                                       *)
(* ================================================================== *)

Module Analyzer.

(** [File] is declared a [string] and receives [lineSpan.Path], which
    is null when the diagnostic has no location in source. *)
Record LocationInfo := {
  Line : Z;
  Column : Z;
  File : option text
}.

Record DiagnosticResult := {
  Id : text;
  Severity : text;
  Message : text;
  Location : option LocationInfo;
  Category : text
}.

Record CodeMetrics := {
  Classes : Z;
  Methods : Z;
  Lines : Z;
  CyclomaticComplexity : Z
}.

Record AnalysisResult := {
  Diagnostics : list DiagnosticResult;
  Metrics : CodeMetrics;
  Suggestions : list text
}.

(** [Count()] of a sequence.  The sequences counted are nodes of one
    tree or lines of one text, far fewer than [Int32.MaxValue]; the
    counts and their sums are kept as integers without wrap-around. *)
Definition Count {A} (l : list A) : Z := Z.of_nat (length l).

(** A [foreach] whose body adds suggestions and may [break]. *)
Inductive Flow := Continue | Break.

Fixpoint ForEach {A} (l : list A) (body : A -> list text * Flow)
  : list text :=
  match l with
  | [] => []
  | x :: l' =>
      match body x with
      | (added, Break) => added
      | (added, Continue) => added ++ ForEach l' body
      end
  end.

Definition CalculateCyclomaticComplexity (root : SyntaxNode) : Z :=
  let complexity := 1%Z in (* Base complexity *)
  (* Count decision points *)
  let complexity :=
    (complexity + Count (OfKind IfStatement (DescendantNodes root)))%Z in
  let complexity :=
    (complexity + Count (OfKind WhileStatement (DescendantNodes root)))%Z in
  let complexity :=
    (complexity + Count (OfKind ForStatement (DescendantNodes root)))%Z in
  let complexity :=
    (complexity + Count (OfKind ForEachStatement (DescendantNodes root)))%Z in
  let complexity :=
    (complexity + Count (OfKind CaseSwitchLabel (DescendantNodes root)))%Z in
  let complexity :=
    (complexity + Count (OfKind CatchClause (DescendantNodes root)))%Z in
  let complexity :=
    (complexity
     + Count (OfKind ConditionalExpression (DescendantNodes root)))%Z in
  (* Count logical operators *)
  let complexity :=
    (complexity
     + Count (List.filter
                (fun n => IsKind LogicalAndExpression n
                          || IsKind LogicalOrExpression n)
                (List.filter IsBinaryExpression (DescendantNodes root))))%Z in
  complexity.

Definition CalculateMetrics (root : SyntaxNode) : CodeMetrics :=
  {| Classes := Count (OfKind ClassDeclaration (DescendantNodes root));
     Methods := Count (OfKind MethodDeclaration (DescendantNodes root));
     (* Count lines (non-empty) *)
     Lines := Count (List.filter (fun line => negb (IsNullOrWhiteSpace line))
                       (Split 10 (ToString root)));
     CyclomaticComplexity := CalculateCyclomaticComplexity root |}.

Definition HasDocumentationComment (node : SyntaxNode) : bool :=
  existsb (fun t =>
             bool_decide (t = SingleLineDocumentationCommentTrivia)
             || bool_decide (t = MultiLineDocumentationCommentTrivia))
          (LeadingTrivia (Info node)).

Definition HasModifier (k : TokenKind) (m : SyntaxNode) : bool :=
  existsb (fun md => bool_decide (md = k)) (Modifiers (Info m)).

Definition GenerateSuggestions (root : SyntaxNode)
    (diagnostics : list Diagnostic) : list text :=
  let methods := OfKind MethodDeclaration (DescendantNodes root) in
  (* Check for long methods *)
  ForEach methods (fun method =>
    let lineCount := Count (Split 10 (ToString method)) in
    (if (50 <? lineCount)%Z
     then [lit "Method '" ++ Identifier method ++ lit "' is "
           ++ of_Z lineCount
           ++ lit " lines long. Consider breaking it into smaller methods."]
     else [], Continue))
  (* Check for missing documentation *)
  ++ ForEach (List.filter (HasModifier PublicKeyword)
                (OfKind MethodDeclaration (DescendantNodes root)))
       (fun method =>
        (if negb (HasDocumentationComment method)
         then [lit "Public method '" ++ Identifier method
               ++ lit "' is missing XML documentation."]
         else [], Continue))
  (* Check for async methods without Async suffix *)
  ++ ForEach (List.filter (HasModifier AsyncKeyword)
                (OfKind MethodDeclaration (DescendantNodes root)))
       (fun method =>
        (if negb (EndsWith (Identifier method) (lit "Async"))
         then [lit "Async method '" ++ Identifier method
               ++ lit "' should have 'Async' suffix."]
         else [], Continue))
  (* Check for large classes *)
  ++ ForEach (OfKind ClassDeclaration (DescendantNodes root))
       (fun cls =>
        let memberCount := Count (Members cls) in
        (if (20 <? memberCount)%Z
         then [lit "Class '" ++ Identifier cls ++ lit "' has "
               ++ of_Z memberCount
               ++ lit " members. Consider splitting into smaller classes."]
         else [], Continue))
  (* Check for high cyclomatic complexity *)
  ++ ForEach methods (fun method =>
       let complexity := CalculateCyclomaticComplexity method in
       (if (10 <? complexity)%Z
        then [lit "Method '" ++ Identifier method
              ++ lit "' has high cyclomatic complexity ("
              ++ of_Z complexity ++ lit "). Consider refactoring."]
        else [], Continue)).

(** The descendants of a child that may be absent. *)
Definition DescendantsOf (o : option SyntaxNode) : list SyntaxNode :=
  match o with Some n => DescendantNodes n | None => [] end.

Definition IsAssignmentExpression := IsKind AssignmentExpression.

Definition GenerateSecuritySuggestions (root : SyntaxNode) : list text :=
  (* Check for string concatenation in SQL queries (SQL injection risk) *)
  let stringConcatenations :=
    OfKind AddExpression
      (List.filter IsBinaryExpression (DescendantNodes root)) in
  ForEach stringConcatenations (fun concat =>
    let text := ToLower (ToString concat) in
    if Contains text (lit "select") || Contains text (lit "insert")
       || Contains text (lit "update") || Contains text (lit "delete")
    then ([lit "SECURITY: Potential SQL injection risk detected. Use parameterized queries instead of string concatenation."],
          Break) (* Only report once *)
    else ([], Continue))
  (* Check for hardcoded passwords or sensitive data *)
  ++ (let literals :=
        List.filter (fun lp => IsLiteralExpression (fst lp))
          (DescendantNodesWithParent root) in
      ForEach literals (fun lp =>
        let literal := fst lp in
        let parent := snd lp in
        if IsKind StringLiteralExpression literal then
          if IsAssignmentExpression parent then
            let leftSide := ToLower (TextOf (Left parent)) in
            if Contains leftSide (lit "password")
               || Contains leftSide (lit "secret")
               || Contains leftSide (lit "apikey")
               || Contains leftSide (lit "connectionstring")
            then ([lit "SECURITY: Hardcoded sensitive data detected. Use secure configuration instead."],
                  Break)
            else ([], Continue)
          else if IsKind VariableDeclarator parent then
            let varName := ToLower (Identifier parent) in
            if Contains varName (lit "password")
               || Contains varName (lit "secret")
               || Contains varName (lit "apikey")
            then ([lit "SECURITY: Hardcoded sensitive data in variable '"
                   ++ Identifier parent
                   ++ lit "'. Use secure configuration."], Continue)
            else ([], Continue)
          else ([], Continue)
        else ([], Continue)))
  (* Check for catch-all exception handlers that swallow exceptions *)
  ++ ForEach (OfKind CatchClause (DescendantNodes root)) (fun catchClause =>
       (* Check if it's catching Exception without rethrowing *)
       if match Declaration catchClause with
          | Some d => text_eqb (TextOf (Type_ d)) (lit "Exception")
          | None => false
          end
       then
         let hasThrow :=
           negb (bool_decide
                   (OfKind ThrowStatement
                      (DescendantsOf (Block_ catchClause)) = [])) in
         let hasLogging :=
           Contains (ToLower (TextOf (Block_ catchClause))) (lit "log") in
         if negb hasThrow && negb hasLogging
         then ([lit "SECURITY: Catching general Exception without logging or rethrowing can hide security issues."],
               Continue)
         else ([], Continue)
       else ([], Continue))
  (* Check for dangerous file operations without validation *)
  ++ ForEach (OfKind InvocationExpression (DescendantNodes root))
       (fun invocation =>
        let methodName := TextOf (Expression invocation) in
        if Contains methodName (lit "File.Delete")
           || Contains methodName (lit "File.Move")
           || Contains methodName (lit "Directory.Delete")
           || Contains methodName (lit "File.WriteAllText")
        then ([lit "SECURITY: File system operation '" ++ methodName
               ++ lit "' detected. Ensure proper path validation to prevent directory traversal attacks."],
              Break)
        else ([], Continue))
  (* Check for weak random number generation *)
  ++ ForEach (OfKind ObjectCreationExpression (DescendantNodes root))
       (fun creation =>
        if text_eqb (TextOf (Type_ creation)) (lit "Random")
        then ([lit "SECURITY: System.Random is not cryptographically secure. Use RandomNumberGenerator for security-sensitive operations."],
              Continue)
        else ([], Continue)).

Definition IsStringType (expression : SyntaxNode) : bool :=
  (* Simple heuristic: check if either operand looks like a string;
     34 is the double quote *)
  let leftText := TextOf (Left expression) in
  let rightText := TextOf (Right expression) in
  StartsWith leftText [34] || StartsWith rightText [34]
  || Contains leftText (lit ".ToString()")
  || Contains rightText (lit ".ToString()").

(** The loop [for (i = 0; i < invocations.Count - 1; i++)] over the
    invocations: the current one and those after it.  The last
    invocation is never the current one. *)
Fixpoint ToListBeforeCount (invocations : list SyntaxNode) : list text :=
  match invocations with
  | [] => []
  | current :: rest =>
      (match rest with
       | [] => []
       | _ :: _ =>
           let currentInvocation := ToString current in
           if Contains currentInvocation (lit ".ToList()") then
             let nextInvocations := take 3 rest in
             ForEach nextInvocations (fun next =>
               let nextStr := ToString next in
               if Contains nextStr (lit ".Count")
                  || Contains nextStr (lit ".Any()")
               then ([lit "PERFORMANCE: Avoid calling ToList() before Count/Any. Use Count()/Any() directly on IEnumerable."],
                     Break)
               else ([], Continue))
           else []
       end) ++ ToListBeforeCount rest
  end.

(** [variable.Initializer?.Value is InvocationExpressionSyntax]. *)
Definition InitializerInvocation (variable : SyntaxNode)
  : option SyntaxNode :=
  match Initializer variable with
  | Some init =>
      match Value init with
      | Some v => if IsKind InvocationExpression v then Some v else None
      | None => None
      end
  | None => None
  end.

Definition GeneratePerformanceSuggestions (root : SyntaxNode) : list text :=
  (* Check for string concatenation in loops *)
  let loops :=
    List.filter (fun n => IsKind ForStatement n || IsKind ForEachStatement n
                          || IsKind WhileStatement n)
      (DescendantNodes root) in
  ForEach loops (fun loop =>
    let stringConcats :=
      List.filter IsStringType
        (OfKind AddExpression
           (List.filter IsBinaryExpression (DescendantNodes loop))) in
    match stringConcats with
    | _ :: _ =>
        ([lit "PERFORMANCE: String concatenation inside loop detected. Use StringBuilder for better performance."],
         Break)
    | [] => ([], Continue)
    end)
  (* Check for ToList() followed by Count/Any *)
  ++ ToListBeforeCount (OfKind InvocationExpression (DescendantNodes root))
  (* Check for multiple enumeration of IEnumerable *)
  ++ ForEach (OfKind VariableDeclarator (DescendantNodes root))
       (fun variable =>
        match InitializerInvocation variable with
        | Some invocation =>
            let invocationText := ToString invocation in
            if Contains invocationText (lit ".Where(")
               || Contains invocationText (lit ".Select(")
               || Contains invocationText (lit ".OrderBy(")
                  && negb (Contains invocationText (lit ".ToList()"))
                  && negb (Contains invocationText (lit ".ToArray()"))
            then ([lit "PERFORMANCE: Variable '" ++ Identifier variable
                   ++ lit "' holds a deferred LINQ query. Consider materializing with ToList()/ToArray() if enumerated multiple times."],
                  Continue)
            else ([], Continue)
        | None => ([], Continue)
        end)
  (* Check for unnecessary boxing in string.Format/string.Concat *)
  ++ (let stringFormatCalls :=
        List.filter
          (fun inv =>
             Contains (TextOf (Expression inv)) (lit "string.Format")
             || Contains (TextOf (Expression inv)) (lit "String.Concat"))
          (OfKind InvocationExpression (DescendantNodes root)) in
      match stringFormatCalls with
      | _ :: _ =>
          [lit "PERFORMANCE: Consider using string interpolation instead of string.Format for better readability and performance."]
      | [] => []
      end)
  (* Check for async methods without ConfigureAwait *)
  ++ ForEach (OfKind AwaitExpression (DescendantNodes root)) (fun await =>
       if negb (Contains (ToString await) (lit "ConfigureAwait"))
       then ([lit "PERFORMANCE: Consider using ConfigureAwait(false) in library code to avoid unnecessary context switches."],
             Break)
       else ([], Continue))
  (* Check for excessive LINQ chaining *)
  ++ (let linqChains :=
        List.filter
          (fun inv => Contains (ToString inv) (lit ".Where(")
                      || Contains (ToString inv) (lit ".Select("))
          (OfKind InvocationExpression (DescendantNodes root)) in
      ForEach linqChains (fun chain =>
        let chainText := ToString chain in
        let chainCount :=
          Z.of_nat (SplitCount [lit ".Where("; lit ".Select(";
                                lit ".OrderBy("; lit ".GroupBy("]
                      chainText) in
        if (3 <? chainCount)%Z
        then ([lit "PERFORMANCE: Excessive LINQ method chaining detected. Consider combining operations or using query syntax."],
              Break)
        else ([], Continue))).

Definition GenerateLinqSuggestions (root : SyntaxNode) : list text :=
  let invocations := OfKind InvocationExpression (DescendantNodes root) in
  (* Check for Count() > 0 instead of Any() *)
  ForEach (List.filter (fun ip => IsKind InvocationExpression (fst ip))
             (DescendantNodesWithParent root))
    (fun ip =>
     let invocation := fst ip in
     let invText := ToString invocation in
     if Contains invText (lit ".Count()") && IsBinaryExpression (snd ip)
     then
       let comparison := ToString (snd ip) in
       if Contains comparison (lit "> 0") || Contains comparison (lit "!= 0")
          || Contains comparison (lit "== 0")
       then ([lit "LINQ: Use Any() instead of Count() > 0 for better performance."],
             Break)
       else ([], Continue)
     else ([], Continue))
  (* Check for Where().Count() instead of Count(predicate) *)
  ++ ForEach invocations (fun invocation =>
       let text := ToString invocation in
       if Contains text (lit ".Where(") && Contains text (lit ".Count()")
       then ([lit "LINQ: Use Count(predicate) instead of Where(predicate).Count() for better performance."],
             Break)
       else ([], Continue))
  (* Check for Where().Any() instead of Any(predicate) *)
  ++ ForEach invocations (fun invocation =>
       let text := ToString invocation in
       if Contains text (lit ".Where(") && Contains text (lit ".Any()")
       then ([lit "LINQ: Use Any(predicate) instead of Where(predicate).Any() for better performance."],
             Break)
       else ([], Continue))
  (* Check for Where().First() instead of First(predicate) *)
  ++ ForEach invocations (fun invocation =>
       let text := ToString invocation in
       if Contains text (lit ".Where(")
          && (Contains text (lit ".First()")
              || Contains text (lit ".FirstOrDefault()"))
       then ([lit "LINQ: Use First(predicate) instead of Where(predicate).First() for better performance."],
             Break)
       else ([], Continue))
  (* Check for Select().ToList() when ToList() would suffice *)
  ++ ForEach invocations (fun invocation =>
       let text := ToString invocation in
       if Contains text (lit ".Select(x => x)")
       then ([lit "LINQ: Redundant Select(x => x) detected. This is an identity operation and can be removed."],
             Break)
       else ([], Continue))
  (* Check for unnecessary OrderBy before First/FirstOrDefault *)
  ++ ForEach invocations (fun invocation =>
       let text := ToString invocation in
       if Contains text (lit ".OrderBy(") && Contains text (lit ".First")
       then ([lit "LINQ: Consider using MinBy/MaxBy instead of OrderBy().First() for better performance."],
             Break)
       else ([], Continue))
  (* Check for ToList().Where() instead of Where().ToList() *)
  ++ ForEach invocations (fun invocation =>
       let text := ToString invocation in
       if Contains text (lit ".ToList().Where(")
       then ([lit "LINQ: Apply Where() filter before ToList() to avoid materializing unnecessary items."],
             Break)
       else ([], Continue))
  (* Check for repeated access to collection without materialization *)
  ++ ForEach (List.filter (fun qp => IsKind QueryExpression (fst qp))
                (DescendantNodesWithParent root))
       (fun qp =>
        let queryText := ToString (fst qp) in
        (* Simple heuristic: if query is complex and assigned to a
           variable *)
        if IsKind EqualsValueClause (snd qp)
           && (100 <? Count queryText)%Z
        then ([lit "LINQ: Complex query detected. If enumerated multiple times, consider materializing with ToList()."],
              Break)
        else ([], Continue)).

(** [AnalyzeCode], after the Tree Provider has parsed the code: [root]
    is [tree.GetRoot()] and [diagnostics] is
    [compilation.GetDiagnostics()]. *)
Definition ConvertDiagnostics (diagnostics : list Diagnostic)
  : list DiagnosticResult :=
  flat_map (fun diagnostic =>
    match Diagnostic_Severity diagnostic with
    | Hidden => []
    | _ =>
        [{| Id := Diagnostic_Id diagnostic;
            Severity := Severity_ToString (Diagnostic_Severity diagnostic);
            Message := Diagnostic_GetMessage diagnostic;
            Category := Diagnostic_Category diagnostic;
            Location :=
              Some {| Line := (StartLine diagnostic + 1)%Z;
                      Column := (StartCharacter diagnostic + 1)%Z;
                      File := Path diagnostic |} |}]
    end) diagnostics.

Definition AnalyzeTree (root : SyntaxNode) (diagnostics : list Diagnostic)
  : AnalysisResult :=
  (* Convert diagnostics to our format *)
  let result_Diagnostics := ConvertDiagnostics diagnostics in
  (* Calculate metrics *)
  let result_Metrics := CalculateMetrics root in
  (* Generate suggestions *)
  let result_Suggestions := GenerateSuggestions root diagnostics in
  (* Add security suggestions *)
  let result_Suggestions :=
    result_Suggestions ++ GenerateSecuritySuggestions root in
  (* Add performance suggestions *)
  let result_Suggestions :=
    result_Suggestions ++ GeneratePerformanceSuggestions root in
  (* Add LINQ optimization suggestions *)
  let result_Suggestions :=
    result_Suggestions ++ GenerateLinqSuggestions root in
  {| Diagnostics := result_Diagnostics;
     Metrics := result_Metrics;
     Suggestions := result_Suggestions |}.

Section TreeProvider.

(** The Tree Provider: [CSharpSyntaxTree.ParseText(code, path)] with
    [GetRoot()], and the diagnostics of the compilation of that tree. *)
Variable ParseText : text -> text -> SyntaxNode.
Variable GetDiagnostics : SyntaxNode -> list Diagnostic.

Definition AnalyzeCode (code fileName : text) : AnalysisResult :=
  let root := ParseText code fileName in
  let diagnostics := GetDiagnostics root in
  AnalyzeTree root diagnostics.

End TreeProvider.

End Analyzer.

(* ================================================================== *)
(** * JSON: the wire format between the two programs                   *)
(* ================================================================== *)

(** The analyzer writes its result with [JsonSerializer.Serialize] and
    [WriteIndented = true]; the orchestrator reads it with [JSON.parse].
    Both are library functions; this module models them on UTF-16
    text. *)

Module Json.

(** A JavaScript value as [JSON.parse] builds it.  A number is kept as
    the decimal it was written as, [m * 10^e]; an object keeps its
    properties in the order of their first insertion. *)
Inductive value :=
| JNull
| JBool (b : bool)
| JNumber (m e : Z)
| JString (s : text)
| JArray (items : list value)
| JObject (props : list (text * value)).

(** ** JSON.parse *)

(** The outcome of a parsing function: a result and the rest of the
    input, or the place in the input where no rule applies. *)
Inductive result (A : Type) :=
| Ok (a : A) (rest : text)
| Fail (at_ : text).
Arguments Ok {A} a rest.
Arguments Fail {A} at_.

Definition rmap {A B} (f : A -> B) (r : result A) : result B :=
  match r with
  | Ok a rest => Ok (f a) rest
  | Fail s => Fail s
  end.

Definition is_ws (c : N) : bool :=
  (c =? 32) || (c =? 9) || (c =? 10) || (c =? 13).

Fixpoint skip_ws (s : text) : text :=
  match s with
  | c :: s' => if is_ws c then skip_ws s' else s
  | [] => []
  end.

Definition is_digit (c : N) : bool := (48 <=? c) && (c <=? 57).

Definition hex_value (c : N) : option N :=
  if (48 <=? c) && (c <=? 57) then Some (c - 48)
  else if (65 <=? c) && (c <=? 70) then Some (c - 55)
  else if (97 <=? c) && (c <=? 102) then Some (c - 87)
  else None.

Definition hex4 (a b c d : N) : option N :=
  match hex_value a, hex_value b, hex_value c, hex_value d with
  | Some x, Some y, Some z, Some w => Some (((x * 16 + y) * 16 + z) * 16 + w)
  | _, _, _, _ => None
  end.

(** The character a two-character escape stands for. *)
Definition simple_escape (c : N) : option N :=
  if c =? 34 then Some 34          (* escaped quote *)
  else if c =? 92 then Some 92     (* escaped backslash *)
  else if c =? 47 then Some 47     (* \/ *)
  else if c =? 98 then Some 8      (* \b *)
  else if c =? 102 then Some 12    (* \f *)
  else if c =? 110 then Some 10    (* \n *)
  else if c =? 114 then Some 13    (* \r *)
  else if c =? 116 then Some 9     (* \t *)
  else None.

(** The characters of a string, after its opening quote and up to its
    closing quote. *)
Fixpoint parse_chars (s : text) : result text :=
  match s with
  | [] => Fail []
  | c :: s' =>
      if c =? 34 then Ok [] s'
      else if c =? 92 then
        match s' with
        | [] => Fail []
        | e :: s'' =>
            match simple_escape e with
            | Some d => rmap (cons d) (parse_chars s'')
            | None =>
                if e =? 117 then
                  match s'' with
                  | h1 :: h2 :: h3 :: h4 :: s3 =>
                      match hex4 h1 h2 h3 h4 with
                      | Some d => rmap (cons d) (parse_chars s3)
                      | None => Fail s''
                      end
                  | _ => Fail s''
                  end
                else Fail s'
            end
        end
      else if c <? 32 then Fail s
      else rmap (cons c) (parse_chars s')
  end.

(** The longest prefix of digits, as a number, its length, and the
    rest. *)
Fixpoint take_digits (s : text) (acc : Z) (n : nat) : Z * nat * text :=
  match s with
  | c :: s' =>
      if is_digit c
      then take_digits s' (acc * 10 + (Z.of_N c - 48))%Z (S n)
      else (acc, n, s)
  | [] => (acc, n, [])
  end.

(** An optional sign: whether it is [minus], and the text behind it. *)
Definition sign (minus : N) (optional_plus : bool) (s : text)
  : bool * text :=
  match s with
  | c :: s' =>
      if c =? minus then (true, s')
      else if optional_plus && (c =? 43) then (false, s')
      else (false, s)
  | [] => (false, s)
  end.

(** number = [-] int [frac] [exp]; int has no leading zero. *)
Definition parse_number (s : text) : result value :=
  let '(neg, s1) := sign 45 false s in
  match s1 with
  | d :: s2 =>
      if negb (is_digit d) then Fail s1
      else
        let '(ip, _, s3) :=
          if d =? 48 then (0%Z, 1%nat, s2) else take_digits s1 0 0 in
        if (d =? 48) && match s3 with c :: _ => is_digit c | [] => false end
        then Fail s3
        else
          let fraction :=
            match s3 with
            | c :: s4 =>
                if c =? 46 then
                  match take_digits s4 ip 0 with
                  | (_, O, _) => Fail s4
                  | (m, n, s5) => Ok (m, Z.of_nat n) s5
                  end
                else Ok (ip, 0%Z) s3
            | [] => Ok (ip, 0%Z) s3
            end in
          match fraction with
          | Fail a => Fail a
          | Ok (m, fd) s5 =>
              let signed := if neg then (- m)%Z else m in
              match s5 with
              | c :: s6 =>
                  if (c =? 101) || (c =? 69) then
                    let '(eneg, s7) := sign 45 true s6 in
                    match take_digits s7 0 0 with
                    | (_, O, _) => Fail s7
                    | (x, _, s8) =>
                        Ok (JNumber signed
                              ((if eneg then - x else x) - fd)%Z) s8
                    end
                  else Ok (JNumber signed (- fd)%Z) s5
              | [] => Ok (JNumber signed (- fd)%Z) s5
              end
          end
  | [] => Fail []
  end.

(** [s] starts with the keyword [k]. *)
Definition keyword {A} (k : text) (v : A) (s : text) : result A :=
  if StartsWith s k then Ok v (drop (length k) s) else Fail s.

(** Setting a property: a repeated name replaces the earlier value. *)
Fixpoint set_prop (k : text) (v : value) (props : list (text * value))
  : list (text * value) :=
  match props with
  | [] => [(k, v)]
  | (k', v') :: props' =>
      if text_eqb k k' then (k, v) :: props'
      else (k', v') :: set_prop k v props'
  end.

(** Whether [s] starts with the character [c], and the text behind
    it. *)
Definition expect (c : N) (s : text) : option text :=
  match s with
  | d :: s' => if d =? c then Some s' else None
  | [] => None
  end.

(** The recursive descent.  [parse_value] expects a value at the head
    of its input; [parse_elements] and [parse_members] read what is
    left of an array or an object, the properties read so far in
    [acc].  Every call uses one unit of fuel. *)
Fixpoint parse_value (fuel : nat) (s : text) : result value :=
  match fuel with
  | O => Fail s
  | S fuel' =>
      match s with
      | [] => Fail []
      | c :: s' =>
          if c =? 34 then rmap JString (parse_chars s')
          else if c =? 91 then
            match expect 93 (skip_ws s') with
            | Some s'' => Ok (JArray []) s''
            | None => rmap JArray (parse_elements fuel' s')
            end
          else if c =? 123 then
            match expect 125 (skip_ws s') with
            | Some s'' => Ok (JObject []) s''
            | None => rmap JObject (parse_members fuel' [] s')
            end
          else if c =? 116 then keyword (lit "true") (JBool true) s
          else if c =? 102 then keyword (lit "false") (JBool false) s
          else if c =? 110 then keyword (lit "null") JNull s
          else parse_number s
      end
  end
with parse_elements (fuel : nat) (s : text) : result (list value) :=
  match fuel with
  | O => Fail s
  | S fuel' =>
      match parse_value fuel' (skip_ws s) with
      | Fail a => Fail a
      | Ok v r =>
          match expect 44 (skip_ws r) with
          | Some r' => rmap (cons v) (parse_elements fuel' r')
          | None =>
              match expect 93 (skip_ws r) with
              | Some r' => Ok [v] r'
              | None => Fail (skip_ws r)
              end
          end
      end
  end
with parse_members (fuel : nat) (acc : list (text * value)) (s : text)
  : result (list (text * value)) :=
  match fuel with
  | O => Fail s
  | S fuel' =>
      match expect 34 (skip_ws s) with
      | None => Fail (skip_ws s)
      | Some s1 =>
          match parse_chars s1 with
          | Fail a => Fail a
          | Ok k s2 =>
              match expect 58 (skip_ws s2) with
              | None => Fail (skip_ws s2)
              | Some s3 =>
                  match parse_value fuel' (skip_ws s3) with
                  | Fail a => Fail a
                  | Ok v r =>
                      let acc' := set_prop k v acc in
                      match expect 44 (skip_ws r) with
                      | Some r' => parse_members fuel' acc' r'
                      | None =>
                          match expect 125 (skip_ws r) with
                          | Some r' => Ok acc' r'
                          | None => Fail (skip_ws r)
                          end
                      end
                  end
              end
          end
      end
  end.

(** The [SyntaxError] that [JSON.parse] throws: where in the text, and
    at which character or at the end. *)
Record SyntaxError := {
  position : nat;
  token : option N
}.

Definition error_at (input at_ : text) : SyntaxError :=
  {| position := (length input - length at_)%nat; token := head at_ |}.

(** [JSON.parse(text)]: one value between optional white space.  The
    fuel is more than the descent can use on a text of this length. *)
Definition JSON_parse (input : text) : value + SyntaxError :=
  match parse_value (2 * length input + 2) (skip_ws input) with
  | Fail a => inr (error_at input a)
  | Ok v rest =>
      match skip_ws rest with
      | [] => inl v
      | a => inr (error_at input a)
      end
  end.

(** ** JsonSerializer.Serialize with WriteIndented *)

(** What the serializer writes for the types of the result: [null],
    [int], [string], lists, and objects with named properties. *)
Inductive node :=
| WNull
| WNumber (z : Z)
| WString (s : text)
| WArray (items : list node)
| WObject (props : list (text * node)).

Definition hex_digit (n : N) : N := if n <? 10 then 48 + n else 55 + n.

(** The escape [\uXXXX] with upper-case digits. *)
Definition u_escape (c : N) : text :=
  [92; 117; hex_digit (c / 4096); hex_digit ((c / 256) mod 16);
   hex_digit ((c / 16) mod 16); hex_digit (c mod 16)].

Definition is_high_surrogate (c : N) : bool := (55296 <=? c) && (c <=? 56319).
Definition is_low_surrogate (c : N) : bool := (56320 <=? c) && (c <=? 57343).

(** The characters [JavaScriptEncoder.Default] writes as they are:
    printable Basic Latin without the quote, the backslash, the
    backtick and the characters that are special in HTML. *)
Definition allowed (c : N) : bool :=
  (32 <=? c) && (c <=? 126)
  && negb ((c =? 34) || (c =? 38) || (c =? 39) || (c =? 43)
           || (c =? 60) || (c =? 62) || (c =? 92) || (c =? 96)).

(** The text of a string between its quotes.  A surrogate without its
    partner is written as the replacement character U+FFFD. *)
Fixpoint escape (s : text) : text :=
  match s with
  | [] => []
  | c :: s' =>
      if allowed c then c :: escape s'
      else if c =? 8 then 92 :: 98 :: escape s'
      else if c =? 9 then 92 :: 116 :: escape s'
      else if c =? 10 then 92 :: 110 :: escape s'
      else if c =? 12 then 92 :: 102 :: escape s'
      else if c =? 13 then 92 :: 114 :: escape s'
      else if c =? 92 then 92 :: 92 :: escape s'
      else if is_high_surrogate c then
        match s' with
        | d :: s'' =>
            if is_low_surrogate d
            then u_escape c ++ u_escape d ++ escape s''
            else u_escape 65533 ++ escape s'
        | [] => u_escape 65533
        end
      else if is_low_surrogate c then u_escape 65533 ++ escape s'
      else u_escape c ++ escape s'
  end.

Definition write_string (s : text) : text := [34] ++ escape s ++ [34].

Definition indent (depth : nat) : text := repeat 32 (2 * depth).

(** The items of an array or an object after the first one, each
    behind a comma on a line of its own, and the closing bracket on
    the last line. *)
Fixpoint write_items (nl : text) (depth : nat) (close : N)
    (items : list text) : text :=
  match items with
  | [] => nl ++ indent depth ++ [close]
  | y :: ys =>
      [44] ++ nl ++ indent (S depth) ++ y ++ write_items nl depth close ys
  end.

(** An array or an object at nesting [depth], its items already
    written: each item on a line of its own, or the two brackets
    alone when there is none. *)
Definition write_seq (nl : text) (depth : nat) (open close : N)
    (items : list text) : text :=
  match items with
  | [] => [open; close]
  | x :: xs =>
      [open] ++ nl ++ indent (S depth) ++ x
      ++ write_items nl depth close xs
  end.

(** [nl] is [Environment.NewLine]. *)
Fixpoint write (nl : text) (depth : nat) (n : node) : text :=
  match n with
  | WNull => lit "null"
  | WNumber z => of_Z z
  | WString s => write_string s
  | WArray items =>
      write_seq nl depth 91 93 (List.map (write nl (S depth)) items)
  | WObject props =>
      write_seq nl depth 123 125
        (List.map (fun kv =>
                     match kv with
                     | (k, v) =>
                         write_string k ++ [58; 32] ++ write nl (S depth) v
                     end) props)
  end.

(** The JavaScript value with the same structure. *)
Fixpoint to_value (n : node) : value :=
  match n with
  | WNull => JNull
  | WNumber z => JNumber z 0
  | WString s => JString s
  | WArray items => JArray (List.map to_value items)
  | WObject props =>
      JObject (List.map (fun kv =>
                           match kv with (k, v) => (k, to_value v) end)
                 props)
  end.

(** A string is well-formed UTF-16 when its code units are below
    [2^16] and every surrogate is one half of a pair. *)
Fixpoint well_formed (s : text) : bool :=
  match s with
  | [] => true
  | c :: s' =>
      (c <? 65536)
      && (if is_high_surrogate c then
            match s' with
            | d :: s'' => is_low_surrogate d && well_formed s''
            | [] => false
            end
          else negb (is_low_surrogate c) && well_formed s')
  end.

(** A document is well-formed when its strings and property names are,
    and no object has two properties of one name. *)
Fixpoint wf_node (n : node) : bool :=
  match n with
  | WNull => true
  | WNumber _ => true
  | WString s => well_formed s
  | WArray items => forallb wf_node items
  | WObject props =>
      forallb (fun kv =>
                 match kv with (k, v) => well_formed k && wf_node v end)
        props
      && bool_decide (NoDup (List.map fst props))
  end.

(** The number of values in a document: the fuel that parsing it
    takes. *)
Fixpoint node_size (n : node) : nat :=
  match n with
  | WArray items => S (list_sum (List.map (fun x => S (node_size x)) items))
  | WObject props =>
      S (list_sum (List.map (fun kv =>
                               match kv with (_, v) => S (node_size v) end)
                     props))
  | _ => 1
  end.

(** What may follow a value: the end of the text, white space, a comma
    or a closing bracket. *)
Definition delimited (s : text) : bool :=
  match s with
  | [] => true
  | c :: _ => is_ws c || (c =? 44) || (c =? 93) || (c =? 125)
  end.

(** The document [n], written at any depth and followed by a
    delimiter, is parsed to its value with the fuel of its size. *)
Definition reads_back (nl : text) (n : node) : Prop :=
  forall (d fuel : nat) (rest : text),
    (node_size n <= fuel)%nat ->
    delimited rest = true ->
    parse_value fuel (write nl d n ++ rest) = Ok (to_value n) rest.

End Json.

Import Json.

(* ================================================================== *)
(** * Program.Main: the analyzer process                               *)
(* ================================================================== *)

Module Program.

Import Analyzer.

(** The properties that [JsonPropertyName] names, in declaration
    order. *)
Definition LocationInfo_node (l : LocationInfo) : node :=
  WObject [(lit "line", WNumber (Line l));
           (lit "column", WNumber (Column l));
           (lit "file",
            match File l with
            | Some path => WString path
            | None => WNull
            end)].

Definition DiagnosticResult_node (d : DiagnosticResult) : node :=
  WObject [(lit "id", WString (Id d));
           (lit "severity", WString (Severity d));
           (lit "message", WString (Message d));
           (lit "location",
            match Location d with
            | Some l => LocationInfo_node l
            | None => WNull
            end);
           (lit "category", WString (Category d))].

Definition CodeMetrics_node (m : CodeMetrics) : node :=
  WObject [(lit "classes", WNumber (Classes m));
           (lit "methods", WNumber (Methods m));
           (lit "lines", WNumber (Lines m));
           (lit "complexity", WNumber (CyclomaticComplexity m))].

Definition AnalysisResult_node (r : AnalysisResult) : node :=
  WObject [(lit "diagnostics",
            WArray (List.map DiagnosticResult_node (Diagnostics r)));
           (lit "metrics", CodeMetrics_node (Metrics r));
           (lit "suggestions", WArray (List.map WString (Suggestions r)))].

(** The strings of a result are well-formed UTF-16. *)
Definition well_formed_location (l : LocationInfo) : bool :=
  match File l with
  | Some path => well_formed path
  | None => true
  end.

Definition well_formed_diagnostic (d : DiagnosticResult) : bool :=
  well_formed (Id d) && well_formed (Severity d) && well_formed (Message d)
  && well_formed (Category d)
  && match Location d with
     | Some l => well_formed_location l
     | None => true
     end.

Definition well_formed_result (r : AnalysisResult) : bool :=
  forallb well_formed_diagnostic (Diagnostics r)
  && forallb well_formed (Suggestions r).

(** [JsonSerializer.Serialize(result, new JsonSerializerOptions {
    WriteIndented = true })]. *)
Definition Serialize (NewLine : text) (r : AnalysisResult) : text :=
  write NewLine 0 (AnalysisResult_node r).

Record ProcessResult := {
  ExitCode : Z;
  StandardOutput : text;
  StandardError : text
}.

Section Main.

Variable ParseText : text -> text -> SyntaxNode.
Variable GetDiagnostics : SyntaxNode -> list Diagnostic.
(** [Environment.NewLine]. *)
Variable NewLine : text.
(** The files the process can read: [File.Exists(path)] holds when
    [ReadAllText path] is some content. *)
Variable ReadAllText : text -> option text.

Definition Main (args : list text) : ProcessResult :=
  match args with
  | [] =>
      {| ExitCode := 1;
         StandardOutput := [];
         StandardError :=
           lit "Usage: CSharpAnalyzer <file.cs|code>" ++ NewLine
           ++ lit "  Analyzes C# code and outputs JSON with diagnostics and metrics"
           ++ NewLine |}
  | arg0 :: _ =>
      (* Check if input is a file path or code snippet *)
      let '(code, fileName) :=
        match ReadAllText arg0 with
        | Some content => (content, arg0)
        | None => (arg0, lit "snippet.cs") (* Treat as code snippet *)
        end in
      let result := AnalyzeCode ParseText GetDiagnostics code fileName in
      let json := Serialize NewLine result in
      {| ExitCode := 0;
         StandardOutput := json ++ NewLine;
         StandardError := [] |}
  end.

End Main.

End Program.

(* ================================================================== *)
(** * src/roslynAnalyzer.ts: the orchestrator                          *)
(* ================================================================== *)

Module Orchestrator.

(** ** path.join (POSIX) *)

Fixpoint join_segments (segs : list text) : text :=
  match segs with
  | [] => []
  | [seg] => seg
  | seg :: rest => seg ++ [47] ++ join_segments rest
  end.

(** [normalizeString]: [.] and empty segments are dropped, [..] removes
    the segment before it; [acc] holds the segments kept so far, the
    last one first. *)
Fixpoint normalize_segments (segs acc : list text) (allowAboveRoot : bool)
  : list text :=
  match segs with
  | [] => rev acc
  | seg :: rest =>
      if text_eqb seg [] || text_eqb seg (lit ".")
      then normalize_segments rest acc allowAboveRoot
      else if text_eqb seg (lit "..") then
        match acc with
        | last :: acc' =>
            if text_eqb last (lit "..")
            then normalize_segments rest (seg :: acc) allowAboveRoot
            else normalize_segments rest acc' allowAboveRoot
        | [] =>
            if allowAboveRoot
            then normalize_segments rest [seg] allowAboveRoot
            else normalize_segments rest [] allowAboveRoot
        end
      else normalize_segments rest (seg :: acc) allowAboveRoot
  end.

Definition path_normalize (path : text) : text :=
  match path with
  | [] => lit "."
  | _ :: _ =>
      let isAbsolute := StartsWith path [47] in
      let trailingSeparator := EndsWith path [47] in
      let path' :=
        join_segments (normalize_segments (Split 47 path) []
                         (negb isAbsolute)) in
      match path' with
      | [] =>
          if isAbsolute then lit "/"
          else if trailingSeparator then lit "./" else lit "."
      | _ :: _ =>
          let path' := if trailingSeparator then path' ++ [47] else path' in
          if isAbsolute then 47 :: path' else path'
      end
  end.

Definition path_join (args : list text) : text :=
  match List.filter (fun arg => negb (text_eqb arg [])) args with
  | [] => lit "."
  | joined => path_normalize (join_segments joined)
  end.

(** ** The environment *)

(** What the child process does, as the events its [ChildProcess]
    emits: chunks of its two streams (each the text [data.toString()]
    of the buffer), [close] with the exit code ([null] when a signal
    ended it), [error] when it could not be started. *)
Inductive ChildEvent :=
| stdout_data (data : text)
| stderr_data (data : text)
| close (code : option Z)
| error (message : text).

(** The effects of a call on its surroundings, in the order they are
    issued, whether they succeed or fail. *)
Inductive Effect :=
| WriteFile (path content : text)
| Spawn (command : text) (args : list text)
| Unlink (path : text).

(** The files on disk: path to content. *)
Abbreviation FS := (gmap text text).

Record Env := {
  (** [__dirname], the directory of the module *)
  dirname : text;
  (** the value [Date.now()] returns *)
  Date_now : Z;
  (** the message of the error of [fs.writeFile] on a path, if it
      fails there; a write that fails leaves the disk as it was *)
  writeFile_error : text -> option text;
  (** the message of the error that [spawn command args] throws at
      once, if it throws *)
  spawn_error : text -> list text -> option text;
  (** the events of the process that [spawn command args] starts, on
      the files present at that moment *)
  child : text -> list text -> FS -> list ChildEvent;
  (** whether [fs.unlink] fails on a path for a reason of its own (the
      file is in use, the directory is read-only); it fails on an
      absent file in any case *)
  unlink_error : text -> bool;
  (** for the unlinks of a call in the order they are issued: how many
      further events of the child are delivered before the unlink
      returns *)
  unlink_delay : nat -> nat;
  (** [`${error}`] for the error that [JSON.parse] throws on a text it
      does not accept; the wording is the engine's *)
  SyntaxError_text : text -> text
}.

(** The promise of [analyzeCode] settles with a value or with an
    [Error], which is its message here. *)
Inductive Outcome :=
| Resolved (result : value)
| Rejected (message : text).

(** The messages of the four errors that the code makes. *)
Definition NotBuiltError : text :=
  lit "Roslyn analyzer not built. Run 'dotnet build' in roslyn-analyzer directory.".

Definition ResultParseError (error : text) : text :=
  lit "Failed to parse analysis result: " ++ error.

Definition code_toString (code : option Z) : text :=
  match code with
  | Some n => of_Z n
  | None => lit "null"
  end.

Definition ProcessExitError (code : option Z) (errorOutput : text) : text :=
  lit "Analysis failed (exit code " ++ code_toString code ++ lit "):"
  ++ [10] ++ errorOutput.

Definition SpawnError (message : text) : text :=
  lit "Failed to run analyzer: " ++ message.

(** ** isRoslynAvailable *)

Definition analyzerPath (env : Env) : text :=
  path_join [dirname env; lit ".."; lit "roslyn-analyzer"].

Definition dllPath (env : Env) : text :=
  path_join [analyzerPath env; lit "bin"; lit "Debug"; lit "net8.0";
             lit "CSharpAnalyzer.dll"].

(** [fs.access(dllPath)] succeeds when the file is there. *)
Definition isRoslynAvailable (env : Env) (fs : FS) : bool :=
  bool_decide (is_Some (fs !! dllPath env)).

(** ** analyzeCode *)

(** [fs.unlink]: the disk without the file, or nothing when it
    throws. *)
Definition unlink (env : Env) (path : text) (fs : FS) : option FS :=
  if unlink_error env path then None
  else
    match fs !! path with
    | Some _ => Some (delete path fs)
    | None => None
    end.

(** The rest of a listener behind its [await]: the one of [close] with
    the exit code, the one of [error] with the message. *)
Inductive Listener :=
| after_close (code : option Z)
| after_error (message : text).

(** The state of one call while the child runs: the two buffers, the
    settlement of the promise, the files, the effects so far, the
    listeners that wait for their unlink, each with the time at which
    it returns, in the order in which they return, and the number of
    unlinks issued.  Time counts the events of the child. *)
Record State := {
  output : text;
  errorOutput : text;
  settled : option Outcome;
  files : FS;
  effects : list Effect;
  awaiting : list (nat * Listener);
  issued : nat
}.

(** [resolve] and [reject] settle a pending promise and do nothing to
    a settled one. *)
Definition settle (o : Outcome) (st : State) : State :=
  match settled st with
  | Some _ => st
  | None =>
      {| output := output st; errorOutput := errorOutput st;
         settled := Some o; files := files st; effects := effects st;
         awaiting := awaiting st; issued := issued st |}
  end.

(** What a listener does behind the clean-up. *)
Definition finish (env : Env) (l : Listener) (st : State) : State :=
  match l with
  | after_close code =>
      match code with
      | Some 0%Z =>
          match JSON_parse (output st) with
          | inl result => settle (Resolved result) st
          | inr _ =>
              settle (Rejected (ResultParseError
                                  (SyntaxError_text env (output st)))) st
          end
      | _ => settle (Rejected (ProcessExitError code (errorOutput st))) st
      end
  | after_error message => settle (Rejected (SpawnError message)) st
  end.

(** What a listener settles a pending promise with, from the two
    buffers. *)
Definition verdict (env : Env) (l : Listener) (output errorOutput : text)
  : Outcome :=
  match l with
  | after_close (Some 0%Z) =>
      match JSON_parse output with
      | inl result => Resolved result
      | inr _ => Rejected (ResultParseError (SyntaxError_text env output))
      end
  | after_close code => Rejected (ProcessExitError code errorOutput)
  | after_error message => Rejected (SpawnError message)
  end.

(** A listener that waits is queued behind those that return no later
    than it does. *)
Fixpoint enqueue (w : nat * Listener) (q : list (nat * Listener))
  : list (nat * Listener) :=
  match q with
  | [] => [w]
  | v :: q' =>
      if (fst w <? fst v)%nat then w :: q else v :: enqueue w q'
  end.

(** The listener of [close] and the one of [error], at the time [now]:
    [if (tempFile) { try { await fs.unlink(tempFile) } catch {} }] and
    then the rest.  With a staged file the listener calls [unlink],
    whose failure is ignored, and waits for it to return; without one
    it runs to its end at once. *)
Definition listen (env : Env) (tempFile : option text) (now : nat)
    (l : Listener) (st : State) : State :=
  match tempFile with
  | Some path =>
      (* Clean up temp file *)
      {| output := output st; errorOutput := errorOutput st;
         settled := settled st;
         files := match unlink env path (files st) with
                  | Some fs' => fs'
                  | None => files st (* Ignore cleanup errors *)
                  end;
         effects := effects st ++ [Unlink path];
         awaiting :=
           enqueue ((now + unlink_delay env (issued st))%nat, l)
             (awaiting st);
         issued := S (issued st) |}
  | None => finish env l st
  end.

(** The listeners of the child process, at the time [now]. *)
Definition handle (env : Env) (tempFile : option text) (now : nat)
    (st : State) (ev : ChildEvent) : State :=
  match ev with
  | stdout_data data =>
      {| output := output st ++ data; errorOutput := errorOutput st;
         settled := settled st; files := files st; effects := effects st;
         awaiting := awaiting st; issued := issued st |}
  | stderr_data data =>
      {| output := output st; errorOutput := errorOutput st ++ data;
         settled := settled st; files := files st; effects := effects st;
         awaiting := awaiting st; issued := issued st |}
  | close code => listen env tempFile now (after_close code) st
  | error message => listen env tempFile now (after_error message) st
  end.

(** The listeners in [ready] run to their end, one after the other. *)
Definition run (env : Env) (ready : list (nat * Listener)) (st : State)
  : State :=
  fold_left (fun st w => finish env (snd w) st) ready st.

(** The listeners whose unlink has returned by the time [now] go on;
    the others keep waiting. *)
Definition resume (env : Env) (now : nat) (st : State) : State :=
  run env (List.filter (fun w => (fst w <=? now)%nat) (awaiting st))
    {| output := output st; errorOutput := errorOutput st;
       settled := settled st; files := files st; effects := effects st;
       awaiting :=
         List.filter (fun w => negb (fst w <=? now)%nat) (awaiting st);
       issued := issued st |}.

(** Every unlink returns in the end. *)
Definition drain (env : Env) (st : State) : State :=
  run env (awaiting st)
    {| output := output st; errorOutput := errorOutput st;
       settled := settled st; files := files st; effects := effects st;
       awaiting := []; issued := issued st |}.

(** The events of the child are delivered one by one, each to its
    listener; after each the listeners go on whose unlink has returned
    by then.  A [ChildProcess] emits nothing after [close]. *)
Fixpoint deliver (env : Env) (tempFile : option text) (now : nat)
    (events : list ChildEvent) (st : State) : State :=
  match events with
  | [] => drain env st
  | ev :: events' =>
      let st := resume env now (handle env tempFile now st ev) in
      match ev with
      | close _ => drain env st
      | _ => deliver env tempFile (S now) events' st
      end
  end.

(** What a call leaves behind: the settlement of its promise ([None]
    while the child has neither closed nor failed), the files and the
    effects. *)
Record Run := {
  outcome : option Outcome;
  files_after : FS;
  trace : list Effect
}.

(** [fileName && fileName.endsWith(".cs")]. *)
Definition isFilePath (fileName : option text) : bool :=
  match fileName with
  | Some f => negb (text_eqb f []) && EndsWith f (lit ".cs")
  | None => false
  end.

Definition tempFilePath (env : Env) : text :=
  path_join [analyzerPath env; lit "temp_" ++ of_Z (Date_now env) ++ lit ".cs"].

(** The input of the process: [(tempFile, codeInput)], the files and
    the effects after
    [if (fileName && fileName.endsWith(".cs")) ... else ...], or the
    message of the error that [await fs.writeFile] throws. *)
Definition staging (env : Env) (fs : FS) (code : text)
    (fileName : option text)
  : option text * text * FS * list Effect + text :=
  let staged :=
    (* Create temp file *)
    match writeFile_error env (tempFilePath env) with
    | Some message => inr message
    | None =>
        inl (Some (tempFilePath env), tempFilePath env,
             <[tempFilePath env := code]> fs,
             [WriteFile (tempFilePath env) code])
    end in
  match fileName with
  | Some f =>
      if isFilePath fileName
      then inl (None, f, fs, []) (* Assume it's a file path *)
      else staged
  | None => staged
  end.

Definition analyzeCode (env : Env) (fs : FS) (code : text)
    (fileName : option text) : Run :=
  (* Check if analyzer is available *)
  let available := isRoslynAvailable env fs in
  if negb available then
    {| outcome := Some (Rejected NotBuiltError);
       files_after := fs; trace := [] |}
  else
    (* If code is provided, write to temp file *)
    match staging env fs code fileName with
    | inr message =>
        (* the error of the write leaves the function as it is *)
        {| outcome := Some (Rejected message); files_after := fs;
           trace := [WriteFile (tempFilePath env) code] |}
    | inl (tempFile, codeInput, fs, log) =>
        let args := [dllPath env; codeInput] in
        match spawn_error env (lit "dotnet") args with
        | Some message =>
            (* thrown in the executor, before any listener is there:
               the promise is rejected with the error as it is *)
            {| outcome := Some (Rejected message); files_after := fs;
               trace := log ++ [Spawn (lit "dotnet") args] |}
        | None =>
            let st :=
              deliver env tempFile 0 (child env (lit "dotnet") args fs)
                {| output := []; errorOutput := []; settled := None;
                   files := fs;
                   effects := log ++ [Spawn (lit "dotnet") args];
                   awaiting := []; issued := 0 |} in
            {| outcome := settled st; files_after := files st;
               trace := effects st |}
        end
    end.

(** Whether a call starts a process: the analyzer is staged without
    an error and [spawn] returns. *)
Definition process_started (env : Env) (fs : FS) (code : text)
    (fileName : option text) : bool :=
  match staging env fs code fileName with
  | inl (_, codeInput, _, _) =>
      match spawn_error env (lit "dotnet") [dllPath env; codeInput] with
      | Some _ => false
      | None => true
      end
  | inr _ => false
  end.

(** The events of the process that a call starts; none when it starts
    no process. *)
Definition child_events (env : Env) (fs : FS) (code : text)
    (fileName : option text) : list ChildEvent :=
  match staging env fs code fileName with
  | inl (_, codeInput, fs, _) =>
      match spawn_error env (lit "dotnet") [dllPath env; codeInput] with
      | Some _ => []
      | None => child env (lit "dotnet") [dllPath env; codeInput] fs
      end
  | inr _ => []
  end.

(** The chunks of the two streams, and the text of standard output. *)
Definition is_data (ev : ChildEvent) : bool :=
  match ev with
  | stdout_data _ | stderr_data _ => true
  | _ => false
  end.

Definition stdout_of (evs : list ChildEvent) : text :=
  flat_map (fun ev => match ev with stdout_data d => d | _ => [] end) evs.

Definition stderr_of (evs : list ChildEvent) : text :=
  flat_map (fun ev => match ev with stderr_data d => d | _ => [] end) evs.

(** The shape of [AnalysisResult] and its parts, as the interfaces
    declare it. *)
Definition prop (k : text) (v : value) : option value :=
  match v with
  | JObject props => snd <$> List.find (fun kv => text_eqb (fst kv) k) props
  | _ => None
  end.

Definition is_string (v : value) : bool :=
  match v with JString _ => true | _ => false end.
Definition is_number (v : value) : bool :=
  match v with JNumber _ _ => true | _ => false end.
Definition has (k : text) (p : value -> bool) (v : value) : bool :=
  match prop k v with Some x => p x | None => false end.
Definition is_array_of (p : value -> bool) (v : value) : bool :=
  match v with JArray items => forallb p items | _ => false end.

Definition is_location (v : value) : bool :=
  has (lit "line") is_number v && has (lit "column") is_number v
  && has (lit "file") is_string v.

Definition is_DiagnosticResult (v : value) : bool :=
  has (lit "id") is_string v && has (lit "severity") is_string v
  && has (lit "message") is_string v && has (lit "category") is_string v
  && match prop (lit "location") v with
     | Some l => is_location l
     | None => true
     end.

Definition is_CodeMetrics (v : value) : bool :=
  has (lit "classes") is_number v && has (lit "methods") is_number v
  && has (lit "lines") is_number v && has (lit "complexity") is_number v.

Definition is_AnalysisResult (v : value) : bool :=
  has (lit "diagnostics") (is_array_of is_DiagnosticResult) v
  && has (lit "metrics") is_CodeMetrics v
  && has (lit "suggestions") (is_array_of is_string) v.

End Orchestrator.

(* ================================================================== *)
(** * Trees and predicates used in the statements                      *)
(* ================================================================== *)

Module Examples.

Import Analyzer Program Orchestrator.

Definition plain (t : string) : NodeInfo :=
  {| Text := lit t; IdentifierText := []; Modifiers := [];
     LeadingTrivia := [] |}.

Definition named (t id : string) (mods : list TokenKind) : NodeInfo :=
  {| Text := lit t; IdentifierText := lit id; Modifiers := mods;
     LeadingTrivia := [] |}.

(** The tree of
    [public class A { public void M(){ if(true){} if(false){} } }]. *)
Definition two_ifs : SyntaxNode :=
  Node CompilationUnit
    (plain "public class A { public void M(){ if(true){} if(false){} } }")
    [Node ClassDeclaration
       (named "public class A { public void M(){ if(true){} if(false){} } }"
          "A" [PublicKeyword])
       [Node MethodDeclaration
          (named "public void M(){ if(true){} if(false){} }" "M"
             [PublicKeyword])
          [Node OtherKind (plain "void") [];
           Node OtherKind (plain "()") [];
           Node Block (plain "{ if(true){} if(false){} }")
             [Node IfStatement (plain "if(true){}")
                [Node OtherLiteralExpression (plain "true") [];
                 Node Block (plain "{}") []];
              Node IfStatement (plain "if(false){}")
                [Node OtherLiteralExpression (plain "false") [];
                 Node Block (plain "{}") []]]]]].

(** The tree of the empty compilation unit. *)
Definition empty_unit : SyntaxNode := Node CompilationUnit (plain "") [].

(** The nodes that the specification counts for the complexity, in its
    words: [if], [while], [for], for-each, the case label of a switch,
    the catch clause and the conditional expression.  A for-each is a
    for-each in either of its two forms, and a case label is a case
    label with a constant or with a pattern. *)
Definition decision_node (n : SyntaxNode) : bool :=
  match Kind n with
  | IfStatement | WhileStatement | ForStatement
  | ForEachStatement | ForEachVariableStatement
  | CaseSwitchLabel | CasePatternSwitchLabel
  | CatchClause | ConditionalExpression => true
  | _ => false
  end.

(** The nodes that the code counts: the seven syntax classes of
    [CalculateCyclomaticComplexity]. *)
Definition counted_node (n : SyntaxNode) : bool :=
  match Kind n with
  | IfStatement | WhileStatement | ForStatement | ForEachStatement
  | CaseSwitchLabel | CatchClause | ConditionalExpression => true
  | _ => false
  end.

(** The tree of [foreach (var (a, b) in xs) {}]: a for-each statement
    that deconstructs its element. *)
Definition deconstructing_foreach : SyntaxNode :=
  Node CompilationUnit (plain "foreach (var (a, b) in xs) {}")
    [Node OtherKind (plain "foreach (var (a, b) in xs) {}")
       [Node ForEachVariableStatement (plain "foreach (var (a, b) in xs) {}")
          [Node OtherKind (plain "var (a, b)") [];
           Node OtherKind (plain "xs") [];
           Node Block (plain "{}") []]]].

Definition short_circuit (n : SyntaxNode) : bool :=
  match Kind n with
  | LogicalAndExpression | LogicalOrExpression => true
  | _ => false
  end.

(** A string literal of the source, between its double quotes. *)
Definition quoted (value : string) : text := [34] ++ lit value ++ [34].

Definition node_of (k : SyntaxKind) (t : text) (children : list SyntaxNode)
  : SyntaxNode :=
  Node k {| Text := t; IdentifierText := []; Modifiers := [];
            LeadingTrivia := [] |} children.

Definition leaf (t : string) : SyntaxNode := node_of OtherKind (lit t) [].

(** The invocation [items.Where(x => x.Active).ToList()]: a member
    access on the invocation of [Where], and an empty argument list. *)
Definition where_to_list : SyntaxNode :=
  node_of InvocationExpression (lit "items.Where(x => x.Active).ToList()")
    [node_of OtherKind (lit "items.Where(x => x.Active).ToList")
       [node_of InvocationExpression (lit "items.Where(x => x.Active)")
          [node_of OtherKind (lit "items.Where")
             [leaf "items"; leaf "Where"];
           node_of OtherKind (lit "(x => x.Active)")
             [node_of OtherKind (lit "x => x.Active")
                [node_of OtherKind (lit "x => x.Active")
                   [leaf "x";
                    node_of OtherKind (lit "x.Active")
                      [leaf "x"; leaf "Active"]]]]];
        leaf "ToList"];
     leaf "()"].

(** The tree of the statement
    [var q = items.Where(x => x.Active).ToList();]: the query is
    materialized. *)
Definition materialized_query : SyntaxNode :=
  node_of CompilationUnit
    (lit "var q = items.Where(x => x.Active).ToList();")
    [node_of OtherMemberDeclaration
       (lit "var q = items.Where(x => x.Active).ToList();")
       [node_of OtherKind
          (lit "var q = items.Where(x => x.Active).ToList();")
          [node_of OtherKind
             (lit "var q = items.Where(x => x.Active).ToList()")
             [leaf "var";
              Node VariableDeclarator
                (named "q = items.Where(x => x.Active).ToList()" "q" [])
                [node_of EqualsValueClause
                   (lit "= items.Where(x => x.Active).ToList()")
                   [where_to_list]]]]]].

(** An expression statement that assigns a string literal to [left]. *)
Definition assign_literal (left value : string) : SyntaxNode :=
  node_of OtherKind (lit left ++ lit " = " ++ quoted value ++ lit ";")
    [node_of AssignmentExpression (lit left ++ lit " = " ++ quoted value)
       [node_of OtherKind (lit left) [];
        node_of StringLiteralExpression (quoted value) []]].

(** The tree of two statements, each assigning a string literal: to
    [password] and to [apiKey]. *)
Definition two_secret_assignments : SyntaxNode :=
  node_of CompilationUnit
    (lit "password = " ++ quoted "hunter2" ++ lit "; apiKey = "
     ++ quoted "k-123" ++ lit ";")
    [node_of OtherMemberDeclaration
       (lit "password = " ++ quoted "hunter2" ++ lit ";")
       [assign_literal "password" "hunter2"];
     node_of OtherMemberDeclaration
       (lit "apiKey = " ++ quoted "k-123" ++ lit ";")
       [assign_literal "apiKey" "k-123"]].

(** The hardcoded-secret rule, as the specification words it. *)
Definition sensitive_name (s : text) : bool :=
  Contains s (lit "password") || Contains s (lit "secret")
  || Contains s (lit "apikey").

Definition sensitive_target (s : text) : bool :=
  sensitive_name s || Contains s (lit "connectionstring").

(** The string literals of a unit, each with its parent. *)
Definition string_literals (root : SyntaxNode)
  : list (SyntaxNode * SyntaxNode) :=
  List.filter (fun lp => IsKind StringLiteralExpression (fst lp))
    (DescendantNodesWithParent root).

(** Case (b): the literal is an operand of an assignment to a
    sensitive target. *)
Definition secret_assignment (lp : SyntaxNode * SyntaxNode) : bool :=
  IsAssignmentExpression (snd lp)
  && sensitive_target (ToLower (TextOf (Left (snd lp)))).

(** Case (a): the parent of the literal is a declarator with a
    sensitive name. *)
Definition secret_declarator (lp : SyntaxNode * SyntaxNode) : bool :=
  IsKind VariableDeclarator (snd lp)
  && sensitive_name (ToLower (Identifier (snd lp))).

Definition secret_assignment_message : text :=
  lit "SECURITY: Hardcoded sensitive data detected. Use secure configuration instead.".

Definition secret_declarator_message (lp : SyntaxNode * SyntaxNode) : text :=
  lit "SECURITY: Hardcoded sensitive data in variable '"
  ++ Identifier (snd lp) ++ lit "'. Use secure configuration.".

(** The suggestions about hardcoded secrets among the security
    suggestions. *)
Definition about_secrets (s : text) : bool :=
  StartsWith s (lit "SECURITY: Hardcoded sensitive data").

(** The tree of the class of the guide's second example with its
    field,
    [public class UserService { private string password = "admin123"; }]:
    the literal is the value of the equals-value clause of the
    declarator. *)
Definition password_field : SyntaxNode :=
  node_of CompilationUnit
    (lit "public class UserService { private string password = "
     ++ quoted "admin123" ++ lit "; }")
    [Node ClassDeclaration
       {| Text := lit "public class UserService { private string password = "
                  ++ quoted "admin123" ++ lit "; }";
          IdentifierText := lit "UserService";
          Modifiers := [PublicKeyword]; LeadingTrivia := [] |}
       [Node OtherMemberDeclaration
          {| Text := lit "private string password = " ++ quoted "admin123"
                     ++ lit ";";
             IdentifierText := []; Modifiers := [OtherKeyword];
             LeadingTrivia := [] |}
          [node_of OtherKind (lit "string password = " ++ quoted "admin123")
             [leaf "string";
              Node VariableDeclarator
                {| Text := lit "password = " ++ quoted "admin123";
                   IdentifierText := lit "password"; Modifiers := [];
                   LeadingTrivia := [] |}
                [node_of EqualsValueClause (lit "= " ++ quoted "admin123")
                   [node_of StringLiteralExpression (quoted "admin123")
                      []]]]]]].

(** A declaration that case (a) of the specification flags: a
    declarator with a sensitive name whose initializer is a string
    literal. *)
Definition declared_secret (n : SyntaxNode) : bool :=
  IsKind VariableDeclarator n
  && sensitive_name (ToLower (Identifier n))
  && existsb
       (fun clause =>
          IsKind EqualsValueClause clause
          && existsb (IsKind StringLiteralExpression) (ChildNodes clause))
       (ChildNodes n).

(** The grammar of the parser: the child nodes of a declarator are its
    argument list and its equals-value clause, so no string literal
    has a declarator for its parent. *)
Definition literals_below_clauses (root : SyntaxNode) : bool :=
  forallb (fun lp => negb (IsKind VariableDeclarator (snd lp)))
    (string_literals root).

(** The literals before the first one of case (b). *)
Fixpoint before_first {A} (p : A -> bool) (l : list A) : list A :=
  match l with
  | [] => []
  | x :: l' => if p x then [] else x :: before_first p l'
  end.

(** One wording of the engine for the error of [JSON.parse]: the
    message names the character at which the parse stopped and its
    position, or the end of the text, and quotes nothing else of the
    text. *)
Definition terse_wording (input : text) : text :=
  match JSON_parse input with
  | inr e =>
      lit "SyntaxError: "
      ++ match token e with
         | Some c =>
             lit "Unexpected token " ++ [c] ++ lit " in JSON at position "
             ++ of_Z (Z.of_nat (position e))
         | None => lit "Unexpected end of JSON input"
         end
  | inl _ => []
  end.

(** An installation in [/srv/mcp/dist] whose analyzer process emits
    [events], where every write, spawn and unlink succeeds and every
    unlink returns before the next event, and a disk that holds the
    built analyzer. *)
Definition env_of (events : list ChildEvent) : Env :=
  {| dirname := lit "/srv/mcp/dist";
     Date_now := 1700000000000%Z;
     writeFile_error := fun _ => None;
     spawn_error := fun _ _ => None;
     child := fun _ _ _ => events;
     unlink_error := fun _ => false;
     unlink_delay := fun _ => 0%nat;
     SyntaxError_text := terse_wording |}.

Definition built : FS := {[ dllPath (env_of []) := lit "MZ" ]}.



Definition with_throwing_spawn (events : list ChildEvent) : Env :=
  {| dirname := lit "/srv/mcp/dist";
     Date_now := 1700000000000%Z;
     writeFile_error := fun _ => None;
     spawn_error := fun _ _ => Some (lit "spawn E2BIG");
     child := fun _ _ _ => events;
     unlink_error := fun _ => false;
     unlink_delay := fun _ => 0%nat;
     SyntaxError_text := terse_wording |}.

Definition with_full_disk (events : list ChildEvent) : Env :=
  {| dirname := lit "/srv/mcp/dist";
     Date_now := 1700000000000%Z;
     writeFile_error := fun _ =>
       Some (lit "ENOSPC: no space left on device, write");
     spawn_error := fun _ _ => None;
     child := fun _ _ _ => events;
     unlink_error := fun _ => false;
     unlink_delay := fun _ => 0%nat;
     SyntaxError_text := terse_wording |}.

(** The result of an empty unit, and the output of the analyzer for
    it. *)
Definition empty_result : AnalysisResult :=
  AnalyzeTree empty_unit [].

Definition empty_output : text := Serialize [10] empty_result ++ [10].

(** A result with a diagnostic and two suggestions; the second
    suggestion has a letter outside Basic Latin and a surrogate pair. *)
Definition sample_result : AnalysisResult :=
  {| Diagnostics :=
       [{| Id := lit "CS1002"; Severity := lit "Error";
           Message := lit "; expected";
           Location := Some {| Line := 3; Column := 14;
                               File := Some (lit "snippet.cs") |};
           Category := lit "Compiler" |}];
     Metrics := {| Classes := 1; Methods := 2; Lines := 10;
                   CyclomaticComplexity := 3 |};
     Suggestions :=
       [lit "Public method 'M' is missing XML documentation.";
        lit "Method '" ++ [233; 55357; 56832] ++ lit "' is 51 lines long."] |}.

(** A result whose only suggestion is a high surrogate without its
    partner. *)
Definition lone_surrogate_result : AnalysisResult :=
  {| Diagnostics := [];
     Metrics := {| Classes := 0; Methods := 0; Lines := 0;
                   CyclomaticComplexity := 1 |};
     Suggestions := [[55296]] |}.

(** An output that is not JSON: the notice the [dotnet] host prints on
    its first run. *)
Definition first_run_notice : text :=
  lit "Welcome to .NET 8.0! Write your first app: https://aka.ms/dotnet-hello-world".

End Examples.

(* ================================================================== *)
(** * src/roslynAnalyzer.ts: the build and the report                  *)
(* ================================================================== *)

Module Build.

Import Orchestrator.

(** The value [buildRoslynAnalyzer] resolves with. *)
Record BuildResult := {
  success : bool;
  output : text
}.

(** The state of one build while [dotnet build] runs: the two buffers
    and the settlement of the promise. *)
Record BuildState := {
  stdoutBuffer : text;
  stderrBuffer : text;
  resolved : option BuildResult
}.

(** [resolve] settles a pending promise and does nothing to a settled
    one. *)
Definition resolve (r : BuildResult) (st : BuildState) : BuildState :=
  match resolved st with
  | Some _ => st
  | None =>
      {| stdoutBuffer := stdoutBuffer st; stderrBuffer := stderrBuffer st;
         resolved := Some r |}
  end.

(** The listeners of the build process. *)
Definition listen (st : BuildState) (ev : ChildEvent) : BuildState :=
  match ev with
  | stdout_data data =>
      {| stdoutBuffer := stdoutBuffer st ++ data;
         stderrBuffer := stderrBuffer st; resolved := resolved st |}
  | stderr_data data =>
      {| stdoutBuffer := stdoutBuffer st;
         stderrBuffer := stderrBuffer st ++ data; resolved := resolved st |}
  | close code =>
      match code with
      | Some 0%Z =>
          resolve {| success := true; output := stdoutBuffer st |} st
      | _ =>
          resolve {| success := false;
                     output := lit "Build failed:" ++ [10] ++ stdoutBuffer st
                               ++ [10] ++ stderrBuffer st |} st
      end
  | error message =>
      resolve {| success := false;
                 output := lit "Failed to start build: " ++ message |} st
  end.




End Build.

Module Report.

Import Analyzer.

(** [formatAnalysisResult] on a value of the interface [AnalysisResult]
    whose numbers are the integers of the wire contract: the template
    literal prints an integer in decimal. *)
Definition formatAnalysisResult (result : AnalysisResult) : text :=
  let output := [] in
  (* Metrics *)
  let output := output ++ lit "## Code Metrics" ++ [10; 10] in
  let output :=
    output ++ lit "- Classes: " ++ of_Z (Classes (Metrics result)) ++ [10] in
  let output :=
    output ++ lit "- Methods: " ++ of_Z (Methods (Metrics result)) ++ [10] in
  let output :=
    output ++ lit "- Lines: " ++ of_Z (Lines (Metrics result)) ++ [10] in
  let output :=
    output ++ lit "- Cyclomatic Complexity: "
    ++ of_Z (CyclomaticComplexity (Metrics result)) ++ [10; 10] in
  (* Diagnostics *)
  let output :=
    match Diagnostics result with
    | _ :: _ =>
        fold_left
          (fun output diagnostic =>
             let location :=
               match Location diagnostic with
               | Some l =>
                   lit " (Line " ++ of_Z (Line l) ++ lit ", Col "
                   ++ of_Z (Column l) ++ lit ")"
               | None => []
               end in
             output ++ lit "**" ++ Severity diagnostic ++ lit "** ["
             ++ Id diagnostic ++ lit "]" ++ location ++ lit ": "
             ++ Message diagnostic ++ [10; 10])
          (Diagnostics result)
          (output ++ lit "## Diagnostics" ++ [10; 10])
    | [] => output
    end in
  (* Suggestions *)
  let output :=
    match Suggestions result with
    | _ :: _ =>
        fold_left (fun output suggestion =>
                     output ++ lit "- " ++ suggestion ++ [10])
          (Suggestions result)
          (output ++ lit "## Suggestions" ++ [10; 10])
    | [] => output
    end in
  output.

(** The line of one diagnostic and of one suggestion in the report. *)
Definition diagnostic_line (diagnostic : DiagnosticResult) : text :=
  lit "**" ++ Severity diagnostic ++ lit "** [" ++ Id diagnostic ++ lit "]"
  ++ match Location diagnostic with
     | Some l =>
         lit " (Line " ++ of_Z (Line l) ++ lit ", Col " ++ of_Z (Column l)
         ++ lit ")"
     | None => []
     end
  ++ lit ": " ++ Message diagnostic ++ [10; 10].

Definition suggestion_line (suggestion : text) : text :=
  lit "- " ++ suggestion ++ [10].

End Report.
(* ================================================================== *)
(** * The rules of the analyzer, one by one                            *)
(* ================================================================== *)

Module Rules.

Import Analyzer.

(** ** Basic rules *)

(** The line feeds of a text. *)
Definition line_breaks (s : text) : nat :=
  length (List.filter (fun c => c =? 10) s).

Definition long_method (method : SyntaxNode) : bool :=
  (50 <=? line_breaks (ToString method))%nat.

Definition long_method_message (method : SyntaxNode) : text :=
  lit "Method '" ++ Identifier method ++ lit "' is "
  ++ of_Z (Z.of_nat (S (line_breaks (ToString method))))
  ++ lit " lines long. Consider breaking it into smaller methods.".

Definition undocumented (method : SyntaxNode) : bool :=
  HasModifier PublicKeyword method && negb (HasDocumentationComment method).

Definition undocumented_message (method : SyntaxNode) : text :=
  lit "Public method '" ++ Identifier method
  ++ lit "' is missing XML documentation.".

Definition misnamed_async (method : SyntaxNode) : bool :=
  HasModifier AsyncKeyword method
  && negb (EndsWith (Identifier method) (lit "Async")).

Definition misnamed_async_message (method : SyntaxNode) : text :=
  lit "Async method '" ++ Identifier method
  ++ lit "' should have 'Async' suffix.".

Definition large_class (cls : SyntaxNode) : bool :=
  (21 <=? length (Members cls))%nat.

Definition large_class_message (cls : SyntaxNode) : text :=
  lit "Class '" ++ Identifier cls ++ lit "' has "
  ++ of_Z (Z.of_nat (length (Members cls)))
  ++ lit " members. Consider splitting into smaller classes.".

Definition complex_method (method : SyntaxNode) : bool :=
  (11 <=? CalculateCyclomaticComplexity method)%Z.

Definition complex_method_message (method : SyntaxNode) : text :=
  lit "Method '" ++ Identifier method
  ++ lit "' has high cyclomatic complexity ("
  ++ of_Z (CalculateCyclomaticComplexity method)
  ++ lit "). Consider refactoring.".

(** ** Security rules *)

Definition mentions_sql (s : text) : bool :=
  Contains s (lit "select") || Contains s (lit "insert")
  || Contains s (lit "update") || Contains s (lit "delete").

(** A concatenation with [+] whose text names an SQL verb, in any
    case. *)
Definition sql_concatenation (n : SyntaxNode) : bool :=
  IsBinaryExpression n && IsKind AddExpression n
  && mentions_sql (ToLower (ToString n)).

Definition sql_message : text :=
  lit "SECURITY: Potential SQL injection risk detected. Use parameterized queries instead of string concatenation.".

Definition about_sql (s : text) : bool :=
  StartsWith s (lit "SECURITY: Potential SQL injection").

(** A catch clause for [Exception] whose block neither throws nor
    mentions [log]. *)
Definition swallows_exception (catchClause : SyntaxNode) : bool :=
  match Declaration catchClause with
  | Some d => text_eqb (TextOf (Type_ d)) (lit "Exception")
  | None => false
  end
  && bool_decide
       (OfKind ThrowStatement (DescendantsOf (Block_ catchClause)) = [])
  && negb (Contains (ToLower (TextOf (Block_ catchClause))) (lit "log")).

Definition swallow_message : text :=
  lit "SECURITY: Catching general Exception without logging or rethrowing can hide security issues.".

Definition about_catch (s : text) : bool :=
  StartsWith s (lit "SECURITY: Catching general Exception").

(** A call of one of the four file operations. *)
Definition file_operation (invocation : SyntaxNode) : bool :=
  let methodName := TextOf (Expression invocation) in
  Contains methodName (lit "File.Delete")
  || Contains methodName (lit "File.Move")
  || Contains methodName (lit "Directory.Delete")
  || Contains methodName (lit "File.WriteAllText").

Definition file_operation_message (invocation : SyntaxNode) : text :=
  lit "SECURITY: File system operation '" ++ TextOf (Expression invocation)
  ++ lit "' detected. Ensure proper path validation to prevent directory traversal attacks.".

Definition about_file_operation (s : text) : bool :=
  StartsWith s (lit "SECURITY: File system operation").

Definition creates_random (creation : SyntaxNode) : bool :=
  text_eqb (TextOf (Type_ creation)) (lit "Random").

Definition random_message : text :=
  lit "SECURITY: System.Random is not cryptographically secure. Use RandomNumberGenerator for security-sensitive operations.".

Definition about_random (s : text) : bool :=
  StartsWith s (lit "SECURITY: System.Random").

(** ** Performance rules *)

(** A declarator whose initializer is an invocation that filters or
    projects, or that orders without materializing. *)
Definition deferred_query (variable : SyntaxNode) : bool :=
  match InitializerInvocation variable with
  | Some invocation =>
      let invocationText := ToString invocation in
      Contains invocationText (lit ".Where(")
      || Contains invocationText (lit ".Select(")
      || (Contains invocationText (lit ".OrderBy(")
          && negb (Contains invocationText (lit ".ToList()")
                   || Contains invocationText (lit ".ToArray()")))
  | None => false
  end.

Definition deferred_query_message (variable : SyntaxNode) : text :=
  lit "PERFORMANCE: Variable '" ++ Identifier variable
  ++ lit "' holds a deferred LINQ query. Consider materializing with ToList()/ToArray() if enumerated multiple times.".

Definition about_deferred_query (s : text) : bool :=
  StartsWith s (lit "PERFORMANCE: Variable '").

(** The four rules that stop at their first match. *)
Definition loop_concatenation_message : text :=
  lit "PERFORMANCE: String concatenation inside loop detected. Use StringBuilder for better performance.".

Definition about_loop_concatenation (s : text) : bool :=
  StartsWith s (lit "PERFORMANCE: String concatenation inside loop").

Definition about_string_format (s : text) : bool :=
  StartsWith s (lit "PERFORMANCE: Consider using string interpolation").

Definition configure_await_message : text :=
  lit "PERFORMANCE: Consider using ConfigureAwait(false) in library code to avoid unnecessary context switches.".

Definition about_configure_await (s : text) : bool :=
  StartsWith s (lit "PERFORMANCE: Consider using ConfigureAwait(false)").

Definition linq_chain_message : text :=
  lit "PERFORMANCE: Excessive LINQ method chaining detected. Consider combining operations or using query syntax.".

Definition about_linq_chain (s : text) : bool :=
  StartsWith s (lit "PERFORMANCE: Excessive LINQ method chaining").

(** ** LINQ rules *)

(** The eight suggestions of [GenerateLinqSuggestions], in the order of
    its checks. *)
Definition linq_messages : list text :=
  [lit "LINQ: Use Any() instead of Count() > 0 for better performance.";
   lit "LINQ: Use Count(predicate) instead of Where(predicate).Count() for better performance.";
   lit "LINQ: Use Any(predicate) instead of Where(predicate).Any() for better performance.";
   lit "LINQ: Use First(predicate) instead of Where(predicate).First() for better performance.";
   lit "LINQ: Redundant Select(x => x) detected. This is an identity operation and can be removed.";
   lit "LINQ: Consider using MinBy/MaxBy instead of OrderBy().First() for better performance.";
   lit "LINQ: Apply Where() filter before ToList() to avoid materializing unnecessary items.";
   lit "LINQ: Complex query detected. If enumerated multiple times, consider materializing with ToList()."].

(** ** Diagnostics *)

Definition reported (diagnostic : Diagnostic) : bool :=
  match Diagnostic_Severity diagnostic with
  | Hidden => false
  | _ => true
  end.


End Rules.
(* ================================================================== *)
(** * The documentation cache: src/docFetcher.ts, src/index.ts,
      src/prepopulateCache.ts                                          *)
(* ================================================================== *)

Module Docs.

Import Orchestrator Examples.

(** A JavaScript error: its [name] and its [message]. *)
Record JsError := {
  error_name : text;
  error_message : text
}.

Definition new_Error (message : text) : JsError :=
  {| error_name := lit "Error"; error_message := message |}.

(** [`${error}`], that is [Error.prototype.toString]. *)
Definition Error_toString (e : JsError) : text :=
  if text_eqb (error_name e) [] then error_message e
  else if text_eqb (error_message e) [] then error_name e
  else error_name e ++ lit ": " ++ error_message e.

(** What [client.get(url, ...)] leads to: a response with its status
    code and the chunks of its body, each as the text that
    [data += chunk] appends, or an error of the request. *)
Inductive HttpOutcome :=
| Response (statusCode : Z) (chunks : list text)
| RequestError (err : JsError).

(** The files of the cache, each with its content and with
    [stats.mtimeMs] rounded up to a whole millisecond: for the
    integers [Date.now()] and [maxAge] the test [age < maxAge] is the
    same on the rounded time.  A file holds text; a write stores the
    text and a read returns it. *)
Abbreviation Disk := (gmap text (text * Z)).

(** The surroundings of the server and of the script. *)
Record World := {
  (** [__dirname], the directory of the module *)
  module_dir : text;
  (** the value [Date.now()] returns *)
  now : Z;
  (** the modification time that a write gives the file at a path *)
  stamp : text -> Z;
  (** [https.get] ([true]) or [http.get] ([false]) on a URL *)
  get : bool -> text -> HttpOutcome;
  (** the conversion of a page to Markdown, which the Turndown library
      does; it returns for every text *)
  cleanHtmlToMarkdown : text -> text;
  (** the error of [fs.writeFile] on a path, if it fails there *)
  write_error : text -> option JsError;
  (** the error of [fs.mkdir(CACHE_DIR, { recursive: true })], if it
      fails *)
  mkdir_error : option JsError
}.

(** ** docFetcher.ts *)

Definition fetchDocumentation (w : World) (url : text) : text + JsError :=
  let client := StartsWith url (lit "https") in
  match get w client url with
  | Response statusCode chunks =>
      if negb (statusCode =? 200)%Z
      then inr (new_Error (lit "Failed to fetch: " ++ of_Z statusCode))
      else
        let data := concat chunks in
        (* Basic HTML to text conversion *)
        let cleaned := cleanHtmlToMarkdown w data in
        inl cleaned
  | RequestError err => inr err
  end.

(** The text of each line is followed by a line feed. *)
Definition lines (l : list text) : text :=
  flat_map (fun line => line ++ [10]) l.

(** Fallback content based on earlier web fetch. *)
Definition getFallbackCodingConventions : text :=
  lines
    [lit "# C# Coding Conventions";
     [];
     lit "## Language Guidelines";
     [];
     lit "### Modern Language Features";
     lit "- Utilize contemporary language features and C# versions whenever possible";
     lit "- Avoid outdated constructs";
     [];
     lit "### Exception Handling";
     lit "- Catch only exceptions that can be properly handled";
     lit "- Avoid catching general exceptions (e.g., don't catch System.Exception without an exception filter)";
     lit "- Use specific exception types for meaningful error messages";
     [];
     lit "### Data Type Usage";
     lit "- Use language keywords for data types instead of runtime types (e.g., `string` instead of System.String)";
     lit "- Prefer `int` over unsigned types unless documenting unsigned-specific behavior";
     lit "- Use `var` only when type is obvious from context";
     [];
     lit "### LINQ and Collections";
     lit "- Use LINQ queries and methods for collection manipulation";
     lit "- Use collection expressions for initialization: `string[] vowels = [ "
     ++ quoted "a" ++ lit ", " ++ quoted "e" ++ lit ", " ++ quoted "i"
     ++ lit ", " ++ quoted "o" ++ lit ", " ++ quoted "u" ++ lit " ];`";
     lit "- Use implicit typing in LINQ queries where projections create anonymous types";
     [];
     lit "### Asynchronous Programming";
     lit "- Use `async`/`await` for I/O-bound operations";
     lit "- Be cautious of deadlocks and use Task.ConfigureAwait when appropriate";
     [];
     lit "## String Handling";
     lit "- Use string interpolation for concatenating short strings";
     lit "- Use StringBuilder for loops appending large amounts of text";
     lit "- Prefer raw string literals to escape sequences or verbatim strings";
     [];
     lit "## Object Creation";
     lit "- Use concise object instantiation forms when types match";
     lit "- Use object initializers to simplify creation";
     lit "- Use `required` properties instead of constructors for forced initialization";
     [];
     lit "## Namespace and Using Directives";
     lit "- Use file-scoped namespace declarations";
     lit "- Place using directives outside the namespace declaration";
     lit "- Placing using statements inside namespaces creates context-sensitive name resolution issues";
     [];
     lit "## Operators and Logic";
     lit "- Use `&&` instead of `&` and `||` instead of `|` for comparisons";
     lit "- The && operator short-circuits when the first expression is false";
     [];
     lit "## Event Handling";
     lit "- Use lambda expressions for event handlers you won't need to remove later";
     [];
     lit "## Static Members";
     lit "- Call static members using the class name format: ClassName.StaticMember";
     [];
     lit "## Style Guidelines";
     [];
     lit "### Formatting";
     lit "- Use four spaces for indentation, not tabs";
     lit "- Limit lines to 65 characters for mobile readability";
     lit "- Break long statements into multiple lines";
     lit "- Use " ++ quoted "Allman"
     ++ lit " style braces (open/close on separate lines)";
     lit "- Binary operators should precede line breaks if necessary";
     [];
     lit "### Comments";
     lit "- Use single-line comments (//) for brief explanations";
     lit "- Avoid multi-line comments since code samples aren't localized";
     lit "- Use XML comments for public members";
     lit "- Place comments on separate lines";
     lit "- Begin with uppercase; end with periods";
     lit "- Insert one space between delimiter and text: // Comment text";
     [];
     lit "### Code Structure";
     lit "- One statement per line";
     lit "- One declaration per line";
     lit "- Use parentheses to clarify expression clauses";
     lit "- Add blank lines between method and property definitions";
     [];
     lit "## Security";
     lit "- Follow the guidelines in Secure Coding Guidelines for Microsoft's security standards"].

Definition coding_conventions_url : text :=
  lit "https://learn.microsoft.com/en-us/dotnet/csharp/fundamentals/coding-style/coding-conventions".

Definition fetchCodingConventions (w : World) : text :=
  let url := coding_conventions_url in
  match fetchDocumentation w url with
  | inl content =>
      lines [lit "# C# Coding Conventions";
             [];
             lit "Official Microsoft C# coding conventions and style guidelines.";
             [];
             lit "Source: " ++ url;
             [];
             lit "---";
             [];
             content]
  | inr _ => getFallbackCodingConventions
  end.

(** ** index.ts: the cache of the server *)

(** Cache directory for documentation. *)
Definition CACHE_DIR (w : World) : text :=
  path_join [module_dir w; lit "documents"].

Definition cacheFile (w : World) (docKey : text) : text :=
  path_join [CACHE_DIR w; docKey ++ lit ".md"].

(** Documentation sources: key, url, description. *)
Definition DOC_SOURCES : list (text * (text * text)) :=
  [(lit "csharp-coding-conventions",
    (coding_conventions_url,
     lit "Official C# coding conventions and style guidelines"));
   (lit "csharp-language-reference",
    (lit "https://learn.microsoft.com/en-us/dotnet/csharp/language-reference/",
     lit "C# language reference documentation"));
   (lit "dotnet-fundamentals",
    (lit "https://learn.microsoft.com/en-us/dotnet/fundamentals/",
     lit ".NET fundamentals and best practices"));
   (lit "csharp-design-guidelines",
    (lit "https://learn.microsoft.com/en-us/dotnet/standard/design-guidelines/",
     lit ".NET design guidelines for API and code design"))].

(** The properties that every object inherits from
    [Object.prototype]; none of them has a property [url]. *)
Definition inherited_properties : list text :=
  [lit "constructor"; lit "__defineGetter__"; lit "__defineSetter__";
   lit "hasOwnProperty"; lit "__lookupGetter__"; lit "__lookupSetter__";
   lit "isPrototypeOf"; lit "propertyIsEnumerable"; lit "toString";
   lit "valueOf"; lit "__proto__"; lit "toLocaleString"].

(** [DOC_SOURCES[docKey]]: a source, a truthy value without [url], or
    [undefined]. *)
Inductive Source :=
| Own (url description : text)
| Inherited
| Undefined.

Definition DOC_SOURCES_get (docKey : text) : Source :=
  match List.find (fun kv => text_eqb (fst kv) docKey) DOC_SOURCES with
  | Some (_, (url, description)) => Own url description
  | None =>
      if existsb (text_eqb docKey) inherited_properties
      then Inherited else Undefined
  end.

(** The error of [url.startsWith] on [undefined], which rejects the
    promise of [fetchDocumentation]. *)
Definition startsWith_of_undefined : JsError :=
  {| error_name := lit "TypeError";
     error_message :=
       lit "Cannot read properties of undefined (reading 'startsWith')" |}.

(** [await fs.writeFile(cacheFile, content, "utf-8")]. *)
Definition writeFile (w : World) (path content : text) (disk : Disk)
  : Disk + JsError :=
  match write_error w path with
  | Some err => inr err
  | None => inl (<[path := (content, stamp w path)]> disk)
  end.

(** 7 days. *)
Definition maxAge : Z := 7 * 24 * 60 * 60 * 1000.

(** The second [try] of [fetchAndCacheDoc]: the content and the disk
    after it, or the error that its [catch] receives. *)
Definition fetch_from_web (w : World) (disk : Disk) (docKey : text)
  : text * Disk + JsError :=
  let fetched :=
    match DOC_SOURCES_get docKey with
    | Undefined =>
        inr (new_Error (lit "Unknown documentation key: " ++ docKey))
    | Inherited => inr startsWith_of_undefined
    | Own url description =>
        (* Use specialized fetcher for coding conventions *)
        if text_eqb docKey (lit "csharp-coding-conventions")
        then inl (fetchCodingConventions w)
        else
          match fetchDocumentation w url with
          | inl rawContent =>
              inl (lit "# " ++ description ++ [10; 10] ++ lit "Source: "
                   ++ url ++ [10; 10] ++ lit "---" ++ [10; 10] ++ rawContent)
          | inr err => inr err
          end
    end in
  match fetched with
  | inl content =>
      (* Cache the result *)
      match writeFile w (cacheFile w docKey) content disk with
      | inl disk' => inl (content, disk')
      | inr err => inr err
      end
  | inr err => inr err
  end.

(** The text that stands for a document that could not be fetched. *)
Definition failure_text (docKey : text) (err : JsError) : text :=
  lit "# " ++ docKey ++ [10; 10]
  ++ lit "Failed to fetch documentation from: "
  ++ match DOC_SOURCES_get docKey with
     | Own url _ => url
     | _ => lit "undefined"
     end
  ++ [10; 10] ++ lit "Error: " ++ Error_toString err ++ [10; 10]
  ++ lit "Please check your internet connection and try again later.".

(** Fetch and cache documentation. *)
Definition fetchAndCacheDoc (w : World) (disk : Disk) (docKey : text)
  : text * Disk :=
  (* Check if cached version exists (and is less than 7 days old) *)
  let cached :=
    match disk !! cacheFile w docKey with
    | Some (content, mtimeMs) =>
        let age := (now w - mtimeMs)%Z in
        if (age <? maxAge)%Z then Some content else None
    | None => None (* Cache miss, will fetch *)
    end in
  match cached with
  | Some content => (content, disk)
  | None =>
      (* Fetch from web *)
      match fetch_from_web w disk docKey with
      | inl (content, disk') => (content, disk')
      | inr err => (failure_text docKey err, disk)
      end
  end.

(** ** index.ts: the resources *)

(** The URIs that the server lists as its resources. *)
Definition resources : list text :=
  [lit "csharp://coding-conventions"; lit "csharp://design-guidelines";
   lit "csharp://language-reference"; lit "csharp://fundamentals"].

(** The [switch] of the handler that reads a resource. *)
Definition docKey_of (uri : text) : option text :=
  if text_eqb uri (lit "csharp://coding-conventions")
  then Some (lit "csharp-coding-conventions")
  else if text_eqb uri (lit "csharp://design-guidelines")
  then Some (lit "csharp-design-guidelines")
  else if text_eqb uri (lit "csharp://language-reference")
  then Some (lit "csharp-language-reference")
  else if text_eqb uri (lit "csharp://fundamentals")
  then Some (lit "dotnet-fundamentals")
  else None.

(** One entry of [contents]. *)
Record ResourceContents := {
  contents_uri : text;
  mimeType : text;
  contents_text : text
}.

(** Read resource content: the reply or the error thrown, and the
    disk. *)
Definition ReadResource (w : World) (disk : Disk) (uri : text)
  : (list ResourceContents + JsError) * Disk :=
  match docKey_of uri with
  | None => (inr (new_Error (lit "Unknown resource: " ++ uri)), disk)
  | Some docKey =>
      let '(content, disk') := fetchAndCacheDoc w disk docKey in
      (inl [{| contents_uri := uri; mimeType := lit "text/markdown";
               contents_text := content |}], disk')
  end.

(** ** prepopulateCache.ts *)

(** A document of the script: key, url, description, and whether it
    has a fetcher of its own. *)
Record Doc := {
  key : text;
  url : text;
  description : text;
  fetchFn : option (World -> text)
}.

Definition DOCS_TO_CACHE : list Doc :=
  [{| key := lit "csharp-coding-conventions";
      url := coding_conventions_url;
      description := lit "C# Coding Conventions";
      fetchFn := Some fetchCodingConventions |};
   {| key := lit "csharp-language-reference";
      url := lit "https://learn.microsoft.com/en-us/dotnet/csharp/language-reference/";
      description := lit "C# Language Reference";
      fetchFn := None |};
   {| key := lit "dotnet-fundamentals";
      url := lit "https://learn.microsoft.com/en-us/dotnet/fundamentals/";
      description := lit ".NET Fundamentals";
      fetchFn := None |};
   {| key := lit "csharp-design-guidelines";
      url := lit "https://learn.microsoft.com/en-us/dotnet/standard/design-guidelines/";
      description := lit ".NET Design Guidelines";
      fetchFn := None |}].

(** The content that the script fetches for a document. *)
Definition fetch_doc (w : World) (doc : Doc) : text + JsError :=
  match fetchFn doc with
  | Some fetch => inl (fetch w)
  | None =>
      match fetchDocumentation w (url doc) with
      | inl rawContent =>
          inl (lit "# " ++ description doc ++ [10; 10] ++ lit "Source: "
               ++ url doc ++ [10; 10] ++ lit "---" ++ [10; 10] ++ rawContent)
      | inr err => inr err
      end
  end.

(** The body of the loop: a document that cannot be fetched or written
    is skipped. *)
Definition cache_doc (w : World) (disk : Disk) (doc : Doc) : Disk :=
  let cacheFile := path_join [CACHE_DIR w; key doc ++ lit ".md"] in
  match fetch_doc w doc with
  | inl content =>
      match writeFile w cacheFile content disk with
      | inl disk' => disk'
      | inr _ => disk
      end
  | inr _ => disk
  end.

(** The script: the disk after it, or the error it ends with when the
    cache directory cannot be made. *)
Definition prepopulateCache (w : World) (disk : Disk) : Disk + JsError :=
  (* Ensure cache directory exists *)
  match mkdir_error w with
  | Some err => inr err
  | None => inl (fold_left (cache_doc w) DOCS_TO_CACHE disk)
  end.

End Docs.
(* ================================================================== *)
(** * Words of the statements about paths                              *)
(* ================================================================== *)

Module Paths.

(** A file name: not empty, without a separator, and neither [.] nor
    [..]. *)
Definition file_name (f : text) : bool :=
  negb (text_eqb f []) && forallb (fun c => negb (c =? 47)) f
  && negb (text_eqb f (lit ".")) && negb (text_eqb f (lit "..")).

(** A directory prefix: empty, or a text that ends in a separator. *)
Definition directory_prefix (p : text) : bool :=
  match rev p with
  | [] => true
  | c :: _ => c =? 47
  end.

End Paths.
(* ================================================================== *)
(** * Worlds used in the statements about the cache                    *)
(* ================================================================== *)

Module Worlds.

Import Docs.

(** A server in [/srv/mcp/dist] at the time [time], whose writes
    succeed and are stamped with that time, and whose requests all end
    as [outcome]. *)
Definition world_at (time : Z) (outcome : HttpOutcome) : World :=
  {| module_dir := lit "/srv/mcp/dist";
     now := time;
     stamp := fun _ => time;
     get := fun _ _ => outcome;
     cleanHtmlToMarkdown := fun html => html;
     write_error := fun _ => None;
     mkdir_error := None |}.

(** The same with a cache directory that cannot be written. *)
Definition read_only_world (time : Z) (outcome : HttpOutcome) : World :=
  {| module_dir := lit "/srv/mcp/dist";
     now := time;
     stamp := fun _ => time;
     get := fun _ _ => outcome;
     cleanHtmlToMarkdown := fun html => html;
     write_error := fun _ =>
       Some (new_Error (lit "EACCES: permission denied"));
     mkdir_error := None |}.

Definition offline : HttpOutcome :=
  RequestError (new_Error (lit "getaddrinfo ENOTFOUND learn.microsoft.com")).

Definition page : HttpOutcome :=
  Response 200 [lit "<main><h1>Fundamentals"; lit "</h1></main>"].

(** One day, in milliseconds. *)
Definition day : Z := 24 * 60 * 60 * 1000.

(** The first day with and without the network, the seventh day, and
    the ninth. *)
Definition first_day : World := world_at 0 page.
Definition first_day_offline : World := world_at 0 offline.
Definition seventh_day : World := world_at (6 * day) page.
Definition seventh_day_offline : World := world_at (6 * day) offline.
Definition ninth_day_offline : World := world_at (8 * day) offline.

(** The document of the script for the key [dotnet-fundamentals], and
    the text that the script and the server make of [page]. *)
Definition fundamentals : Doc :=
  {| key := lit "dotnet-fundamentals";
     url := lit "https://learn.microsoft.com/en-us/dotnet/fundamentals/";
     description := lit ".NET Fundamentals";
     fetchFn := None |}.

Definition fundamentals_by_script : text :=
  lit "# .NET Fundamentals" ++ [10; 10]
  ++ lit "Source: https://learn.microsoft.com/en-us/dotnet/fundamentals/"
  ++ [10; 10] ++ lit "---" ++ [10; 10]
  ++ lit "<main><h1>Fundamentals</h1></main>".

Definition fundamentals_by_server : text :=
  lit "# .NET fundamentals and best practices" ++ [10; 10]
  ++ lit "Source: https://learn.microsoft.com/en-us/dotnet/fundamentals/"
  ++ [10; 10] ++ lit "---" ++ [10; 10]
  ++ lit "<main><h1>Fundamentals</h1></main>".

(** A disk with a copy of that document written at time 0. *)
Definition old_copy : Disk :=
  {[ cacheFile first_day (lit "dotnet-fundamentals")
     := (lit "# old copy", 0%Z) ]}.

(** No fresh copy of the document is in the cache: there is no cache
    file, or it is seven days old or older. *)
Definition no_fresh_copy (w : World) (disk : Disk) (docKey : text) : Prop :=
  match disk !! cacheFile w docKey with
  | Some (_, mtimeMs) => (maxAge <= now w - mtimeMs)%Z
  | None => True
  end.

End Worlds.
(* ================================================================== *)
(** * Words of the statements about the output                         *)
(* ================================================================== *)

Module Encoding.

(** A text of Basic Latin characters only. *)
Definition basic_latin (s : text) : bool := forallb (fun c => c <? 128) s.

(** A text whose elements are UTF-16 code units, paired or not. *)
Definition code_units (s : text) : bool := forallb (fun c => c <? 65536) s.

(** A document whose strings and property names are made of code
    units. *)
Fixpoint code_units_node (n : node) : bool :=
  match n with
  | WNull => true
  | WNumber _ => true
  | WString s => code_units s
  | WArray items => forallb code_units_node items
  | WObject props =>
      forallb (fun kv =>
                 match kv with (k, v) => code_units k && code_units_node v end)
        props
  end.

End Encoding.
(* ================================================================== *)
(** * Tree Providers used in the statements                            *)
(* ================================================================== *)

Module Samples.

Import Analyzer Program.

(** A parser that answers the unit [class A { void Ärger() {} }] with
    a public, undocumented method whose name is not Basic Latin, a
    compiler without diagnostics, and a disk without files. *)
Definition non_ascii_unit (code fileName : text) : SyntaxNode :=
  Node CompilationUnit
    {| Text := code; IdentifierText := []; Modifiers := [];
       LeadingTrivia := [] |}
    [Node ClassDeclaration
       {| Text := code; IdentifierText := lit "A"; Modifiers := [];
          LeadingTrivia := [] |}
       [Node MethodDeclaration
          {| Text := lit "public void " ++ [196] ++ lit "rger() {}";
             IdentifierText := [196] ++ lit "rger";
             Modifiers := [PublicKeyword]; LeadingTrivia := [] |}
          []]].

Definition no_diagnostics (root : SyntaxNode) : list Diagnostic := [].

Definition no_file (path : text) : option text := None.



(** A disk of the analyzer that holds the staged file of a call at
    the time of [env_of], with the code [class A {}] in it. *)
Definition staged_file (path : text) : option text :=
  if text_eqb path (Orchestrator.tempFilePath (Examples.env_of []))
  then Some (lit "class A {}") else None.

(** The process of the analyzer on the staged file, and on the name
    [Test.cs] of a file that is not there. *)
Definition staged_process : ProcessResult :=
  Main non_ascii_unit no_diagnostics [10] staged_file
    [Orchestrator.tempFilePath (Examples.env_of [])].

Definition named_process : ProcessResult :=
  Main non_ascii_unit no_diagnostics [10] no_file [lit "Test.cs"].

End Samples.

(* ================================================================== *)
(** * Properties                                                       *)
(* ================================================================== *)

Import Analyzer Program Orchestrator Examples.

(** ** Metrics *)

Lemma IsKind_Node k k' i cs :
  IsKind k (Node k' i cs) = bool_decide (k' = k).
Proof. reflexivity. Qed.

(** Evaluates the comparisons of two given kinds in the goal. *)
Ltac decide_kinds :=
  repeat match goal with
    | |- context [bool_decide (?a = ?b)] =>
        let v := eval vm_compute in (bool_decide (a = b)) in
        change (bool_decide (a = b)) with v
    end.

(** The eight counts of [CalculateCyclomaticComplexity] partition the
    nodes of the seven classes and the short-circuit operators. *)
Lemma complexity_counts (l : list SyntaxNode) :
  (Count (OfKind IfStatement l) + Count (OfKind WhileStatement l)
   + Count (OfKind ForStatement l) + Count (OfKind ForEachStatement l)
   + Count (OfKind CaseSwitchLabel l) + Count (OfKind CatchClause l)
   + Count (OfKind ConditionalExpression l)
   + Count (List.filter
              (fun n => IsKind LogicalAndExpression n
                        || IsKind LogicalOrExpression n)
              (List.filter IsBinaryExpression l))
   = Count (List.filter counted_node l)
     + Count (List.filter short_circuit l))%Z.
Proof.
  unfold Count, OfKind.
  induction l as [|[k i cs] l IH]; [reflexivity|].
  destruct k;
    repeat (cbn [List.filter IsBinaryExpression counted_node short_circuit
                 Kind orb length];
            rewrite ?IsKind_Node; decide_kinds);
    lia.
Qed.

(** Every node that the code counts is a decision node of the
    specification. *)
Lemma counted_is_decision (l : list SyntaxNode) :
  List.filter decision_node l = [] -> List.filter counted_node l = [].
Proof.
  induction l as [|[k i cs] l IH]; [reflexivity|].
  cbn [List.filter]. destruct k; vm_compute decision_node;
    vm_compute counted_node; try discriminate; exact IH.
Qed.

(** C5, as the code has it: the cyclomatic complexity of the metrics is
    1 plus the number of if, while, for and catch nodes, of for-each
    statements with a declared variable, of case labels with a
    constant and of conditional expressions, plus the number of
    logical-and and logical-or expressions; a unit without any
    decision node of the specification and without such an expression
    has complexity 1; and the unit
    [public class A { public void M(){ if(true){} if(false){} } }] has
    one class, one method and complexity 3. *)
Theorem C5_cyclomatic_complexity :
  (forall root,
     CyclomaticComplexity (CalculateMetrics root)
     = (1 + Count (List.filter counted_node (DescendantNodes root))
        + Count (List.filter short_circuit (DescendantNodes root)))%Z)
  /\ (forall root,
        List.filter decision_node (DescendantNodes root) = [] ->
        List.filter short_circuit (DescendantNodes root) = [] ->
        CyclomaticComplexity (CalculateMetrics root) = 1%Z)
  /\ Classes (CalculateMetrics two_ifs) = 1%Z
  /\ Methods (CalculateMetrics two_ifs) = 1%Z
  /\ CyclomaticComplexity (CalculateMetrics two_ifs) = 3%Z.
Proof.
  assert (H : forall root,
             CyclomaticComplexity (CalculateMetrics root)
             = (1 + Count (List.filter counted_node (DescendantNodes root))
                + Count (List.filter short_circuit (DescendantNodes root)))%Z).
  { intros root. cbn [CalculateMetrics CyclomaticComplexity].
    unfold CalculateCyclomaticComplexity.
    pose proof (complexity_counts (DescendantNodes root)). lia. }
  split; [exact H|]. split.
  - intros root Hd Hs. rewrite H, (counted_is_decision _ Hd), Hs.
    reflexivity.
  - repeat split; reflexivity.
Qed.

Lemma C5_cyclomatic_complexity_witness :
  CyclomaticComplexity (CalculateMetrics empty_unit) = 1%Z.
Proof.
  apply (proj1 (proj2 C5_cyclomatic_complexity) empty_unit); reflexivity.
Defined.

(** C5, as stated, fails: the unit [foreach (var (a, b) in xs) {}] has
    one for-each node and complexity 1, not 2. *)
Lemma C5_counterexample :
  CyclomaticComplexity (CalculateMetrics deconstructing_foreach)
  <> (1 + Count (List.filter decision_node
                   (DescendantNodes deconstructing_foreach))
      + Count (List.filter short_circuit
                 (DescendantNodes deconstructing_foreach)))%Z.
Proof. vm_compute. discriminate. Qed.

(** ** Aggregation *)

(** C9: the suggestions of the result are the basic suggestions, then
    the security, the performance and the LINQ suggestions, each group
    in its own order and nothing removed: every suggestion occurs as
    often as in the four groups together. *)
Theorem C9_suggestion_order
    (ParseText : text -> text -> SyntaxNode)
    (GetDiagnostics : SyntaxNode -> list Diagnostic)
    (code fileName : text) :
  let root := ParseText code fileName in
  let result := AnalyzeCode ParseText GetDiagnostics code fileName in
  Suggestions result
  = GenerateSuggestions root (GetDiagnostics root)
    ++ GenerateSecuritySuggestions root
    ++ GeneratePerformanceSuggestions root
    ++ GenerateLinqSuggestions root
  /\ forall s : text,
       length (List.filter (text_eqb s) (Suggestions result))
       = (length (List.filter (text_eqb s)
                    (GenerateSuggestions root (GetDiagnostics root)))
          + length (List.filter (text_eqb s)
                      (GenerateSecuritySuggestions root))
          + length (List.filter (text_eqb s)
                      (GeneratePerformanceSuggestions root))
          + length (List.filter (text_eqb s)
                      (GenerateLinqSuggestions root)))%nat.
Proof.
  intros root result.
  assert (E : Suggestions result
              = GenerateSuggestions root (GetDiagnostics root)
                ++ GenerateSecuritySuggestions root
                ++ GeneratePerformanceSuggestions root
                ++ GenerateLinqSuggestions root).
  { subst result root. unfold AnalyzeCode, AnalyzeTree.
    cbn [Suggestions]. now rewrite <- !List.app_assoc. }
  split; [exact E|].
  intros s. rewrite E.
  rewrite !List.filter_app, !List.length_app. lia.
Qed.

(** ** The deferred-query rule *)

(** C7: on [var q = items.Where(x => x.Active).ToList();] the
    performance rules report the variable [q] as a deferred query,
    although its initializer ends in [.ToList()]. *)
Theorem C7_materialized_query_reported :
  GeneratePerformanceSuggestions materialized_query
  = [lit "PERFORMANCE: Variable 'q' holds a deferred LINQ query. Consider materializing with ToList()/ToArray() if enumerated multiple times."].
Proof. vm_compute. reflexivity. Qed.

(** ** The hardcoded-secret rule *)

Lemma ForEach_none {A} (P : text -> bool) (l : list A)
    (body : A -> list text * Flow) :
  (forall x, List.filter P (fst (body x)) = []) ->
  List.filter P (ForEach l body) = [].
Proof.
  intros H. induction l as [|x l IH]; [reflexivity|].
  cbn [ForEach]. specialize (H x).
  destruct (body x) as [added []]; cbn [fst] in H.
  - rewrite List.filter_app, H, IH. reflexivity.
  - exact H.
Qed.

Lemma string_literal_is_literal n :
  IsKind StringLiteralExpression n = true -> IsLiteralExpression n = true.
Proof.
  destruct n as [k i cs]. rewrite IsKind_Node.
  destruct k; vm_compute; congruence.
Qed.

Lemma not_literal_not_string n :
  IsLiteralExpression n = false -> IsKind StringLiteralExpression n = false.
Proof.
  destruct n as [k i cs]. rewrite IsKind_Node.
  destruct k; vm_compute; congruence.
Qed.

Lemma assignment_not_declarator n :
  IsAssignmentExpression n = true -> IsKind VariableDeclarator n = false.
Proof.
  destruct n as [k i cs]. unfold IsAssignmentExpression.
  rewrite !IsKind_Node. destruct k; vm_compute; congruence.
Qed.

(** Splits the conditionals of a loop body. *)
Ltac split_ifs :=
  repeat match goal with
    | |- context [if ?c then _ else _] => destruct c
    | |- context [match ?o with Some _ => _ | None => _ end] => destruct o
    end.

(** The scan of the literals, in the words of the two cases. *)
Lemma secrets_scan (L : list (SyntaxNode * SyntaxNode)) :
  List.filter about_secrets
    (ForEach (List.filter (fun lp => IsLiteralExpression (fst lp)) L)
       (fun lp =>
          if IsKind StringLiteralExpression (fst lp) then
            if IsAssignmentExpression (snd lp) then
              if sensitive_target (ToLower (TextOf (Left (snd lp))))
              then ([secret_assignment_message], Break)
              else ([], Continue)
            else if IsKind VariableDeclarator (snd lp) then
              if sensitive_name (ToLower (Identifier (snd lp)))
              then ([secret_declarator_message lp], Continue)
              else ([], Continue)
            else ([], Continue)
          else ([], Continue)))
  = List.map secret_declarator_message
      (List.filter secret_declarator
         (before_first secret_assignment
            (List.filter
               (fun lp => IsKind StringLiteralExpression (fst lp)) L)))
    ++ (if existsb secret_assignment
             (List.filter
                (fun lp => IsKind StringLiteralExpression (fst lp)) L)
        then [secret_assignment_message] else []).
Proof.
  induction L as [|[literal parent] L IH]; [reflexivity|].
  cbn [List.filter fst snd].
  destruct (IsKind StringLiteralExpression literal) eqn:Hs.
  - rewrite (string_literal_is_literal _ Hs).
    cbn [ForEach fst snd before_first existsb]. rewrite Hs.
    change (secret_assignment (literal, parent))
      with (IsAssignmentExpression parent
            && sensitive_target (ToLower (TextOf (Left parent)))).
    destruct (IsAssignmentExpression parent) eqn:Hp; cbn [andb].
    + destruct (sensitive_target (ToLower (TextOf (Left parent))));
        cbn [orb].
      * reflexivity.
      * rewrite List.filter_app, IH. cbn [List.filter app List.map].
        change (secret_declarator (literal, parent))
          with (IsKind VariableDeclarator parent
                && sensitive_name (ToLower (Identifier parent))).
        rewrite (assignment_not_declarator _ Hp). reflexivity.
    + cbn [List.filter].
      change (secret_declarator (literal, parent))
        with (IsKind VariableDeclarator parent
              && sensitive_name (ToLower (Identifier parent))).
      destruct (IsKind VariableDeclarator parent) eqn:Hv; cbn [andb].
      * destruct (sensitive_name (ToLower (Identifier parent)));
          rewrite List.filter_app, IH; reflexivity.
      * rewrite List.filter_app, IH. reflexivity.
  - destruct (IsLiteralExpression literal) eqn:Hl; [|exact IH].
    cbn [ForEach fst snd]. rewrite Hs, List.filter_app, IH. reflexivity.
Qed.

(** The scan in the words of the two cases: a string literal whose
    parent is a declarator with a sensitive name gives one suggestion
    that names the variable, for every such literal before the first
    literal of case (b); the first string literal that is an operand of
    an assignment to a sensitive target gives one suggestion and ends
    the scan. *)
Lemma secrets_by_case (root : SyntaxNode) :
  List.filter about_secrets (GenerateSecuritySuggestions root)
  = List.map secret_declarator_message
      (List.filter secret_declarator
         (before_first secret_assignment (string_literals root)))
    ++ (if existsb secret_assignment (string_literals root)
        then [secret_assignment_message] else []).
Proof.
  unfold GenerateSecuritySuggestions, string_literals.
  rewrite !List.filter_app.
  match goal with
  | |- ?a ++ ?b ++ ?c ++ ?d ++ ?e = _ =>
      assert (Ha : a = []);
      [|assert (Hc : c = []);
        [|assert (Hd : d = []);
          [|assert (He : e = []);
            [|rewrite Ha, Hc, Hd, He, List.app_nil_r; cbn [app]]]]]
  end.
  1-4: apply ForEach_none; intros x; split_ifs; reflexivity.
  apply secrets_scan.
Qed.

Lemma no_declarator_parent (p : SyntaxNode * SyntaxNode -> bool)
    (L : list (SyntaxNode * SyntaxNode)) :
  forallb (fun lp => negb (IsKind VariableDeclarator (snd lp))) L = true ->
  List.filter secret_declarator (before_first p L) = [].
Proof.
  induction L as [|lp L IH]; [reflexivity|].
  cbn [forallb before_first]. intros H.
  apply andb_prop in H as [Hlp H].
  destruct (p lp); [reflexivity|]. cbn [List.filter].
  unfold secret_declarator at 1.
  apply negb_true_iff in Hlp. rewrite Hlp. cbn [andb]. exact (IH H).
Qed.

(** C8: the declarations of case (a) are not reported.  In a tree of
    the parser, where the literal of an initializer is the child of the
    equals-value clause and not of the declarator, the only suggestion
    about a hardcoded secret is the one of case (b), once, when a
    string literal is assigned to a sensitive target.  The field
    [private string password = "admin123";] of the guide is such a
    declaration in such a tree, and the security rules say nothing
    about it; and two assignments of string literals to [password] and
    to [apiKey] give one suggestion. *)
Theorem C8_declared_secret_not_reported :
  (forall root,
     literals_below_clauses root = true ->
     List.filter about_secrets (GenerateSecuritySuggestions root)
     = if existsb secret_assignment (string_literals root)
       then [secret_assignment_message] else [])
  /\ literals_below_clauses password_field = true
  /\ existsb declared_secret (DescendantNodes password_field) = true
  /\ GenerateSecuritySuggestions password_field = []
  /\ List.filter about_secrets
       (GenerateSecuritySuggestions two_secret_assignments)
     = [secret_assignment_message].
Proof.
  split; [|repeat split; vm_compute; reflexivity].
  intros root H. rewrite secrets_by_case.
  rewrite (no_declarator_parent _ _ H). reflexivity.
Qed.

Lemma C8_declared_secret_not_reported_witness :
  List.filter about_secrets (GenerateSecuritySuggestions password_field)
  = if existsb secret_assignment (string_literals password_field)
    then [secret_assignment_message] else [].
Proof.
  apply (proj1 C8_declared_secret_not_reported password_field).
  vm_compute. reflexivity.
Defined.

(** ** The orchestrator *)

(** [resolve] and [reject] touch nothing but the settlement. *)
Lemma settle_frame o st :
  output (settle o st) = output st
  /\ errorOutput (settle o st) = errorOutput st
  /\ files (settle o st) = files st
  /\ effects (settle o st) = effects st
  /\ awaiting (settle o st) = awaiting st
  /\ issued (settle o st) = issued st.
Proof. unfold settle. destruct (settled st); repeat split; reflexivity. Qed.

Lemma settle_outcome o st :
  settled (settle o st)
  = Some match settled st with Some o' => o' | None => o end.
Proof. unfold settle. destruct (settled st) eqn:E; [exact E|reflexivity]. Qed.

(** The rest of a listener settles the promise with its verdict. *)
Lemma finish_settle env l st :
  finish env l st = settle (verdict env l (output st) (errorOutput st)) st.
Proof.
  destruct l as [[[| |]|]|m]; cbn [finish verdict]; try reflexivity.
  destruct (JSON_parse (output st)); reflexivity.
Qed.

Lemma finish_frame env l st :
  output (finish env l st) = output st
  /\ errorOutput (finish env l st) = errorOutput st
  /\ files (finish env l st) = files st
  /\ effects (finish env l st) = effects st
  /\ awaiting (finish env l st) = awaiting st
  /\ issued (finish env l st) = issued st.
Proof. rewrite finish_settle. apply settle_frame. Qed.

Lemma finish_outcome env l st :
  settled (finish env l st)
  = Some match settled st with
         | Some o => o
         | None => verdict env l (output st) (errorOutput st)
         end.
Proof. rewrite finish_settle. apply settle_outcome. Qed.

Lemma run_frame env ready st :
  output (run env ready st) = output st
  /\ errorOutput (run env ready st) = errorOutput st
  /\ files (run env ready st) = files st
  /\ effects (run env ready st) = effects st
  /\ awaiting (run env ready st) = awaiting st
  /\ issued (run env ready st) = issued st.
Proof.
  unfold run. revert st. induction ready as [|w ready IH]; intros st.
  - repeat split; reflexivity.
  - cbn [fold_left].
    destruct (IH (finish env (snd w) st)) as (H1 & H2 & H3 & H4 & H5 & H6).
    destruct (finish_frame env (snd w) st) as (F1 & F2 & F3 & F4 & F5 & F6).
    repeat split; congruence.
Qed.

(** Of the listeners that run, the first one settles a pending
    promise. *)
Lemma run_outcome env ready st :
  settled (run env ready st)
  = match settled st with
    | Some o => Some o
    | None =>
        match ready with
        | [] => None
        | w :: _ => Some (verdict env (snd w) (output st) (errorOutput st))
        end
    end.
Proof.
  unfold run. revert st. induction ready as [|w ready IH]; intros st.
  - cbn. now destruct (settled st).
  - cbn [fold_left]. rewrite IH, finish_outcome.
    now destruct (settled st).
Qed.

Lemma resume_frame env now st :
  output (resume env now st) = output st
  /\ errorOutput (resume env now st) = errorOutput st
  /\ files (resume env now st) = files st
  /\ effects (resume env now st) = effects st
  /\ issued (resume env now st) = issued st
  /\ awaiting (resume env now st)
     = List.filter (fun w => negb (fst w <=? now)%nat) (awaiting st).
Proof.
  unfold resume.
  match goal with
  | |- context [run env ?r ?s] =>
      destruct (run_frame env r s) as (H1 & H2 & H3 & H4 & H5 & H6)
  end.
  cbn [output errorOutput files effects awaiting issued] in *.
  repeat split; assumption.
Qed.

Lemma resume_outcome env now st :
  settled (resume env now st)
  = match settled st with
    | Some o => Some o
    | None =>
        match List.filter (fun w => (fst w <=? now)%nat) (awaiting st) with
        | [] => None
        | w :: _ => Some (verdict env (snd w) (output st) (errorOutput st))
        end
    end.
Proof. unfold resume. rewrite run_outcome. reflexivity. Qed.

Lemma drain_frame env st :
  output (drain env st) = output st
  /\ errorOutput (drain env st) = errorOutput st
  /\ files (drain env st) = files st
  /\ effects (drain env st) = effects st
  /\ issued (drain env st) = issued st
  /\ awaiting (drain env st) = [].
Proof.
  unfold drain.
  match goal with
  | |- context [run env ?r ?s] =>
      destruct (run_frame env r s) as (H1 & H2 & H3 & H4 & H5 & H6)
  end.
  cbn [output errorOutput files effects awaiting issued] in *.
  repeat split; assumption.
Qed.

Lemma drain_outcome env st :
  settled (drain env st)
  = match settled st with
    | Some o => Some o
    | None =>
        match awaiting st with
        | [] => None
        | w :: _ => Some (verdict env (snd w) (output st) (errorOutput st))
        end
    end.
Proof. unfold drain. rewrite run_outcome. reflexivity. Qed.



(** A state in which no listener waits is all its other fields. *)
Lemma idle_state st :
  awaiting st = [] ->
  st = {| output := output st; errorOutput := errorOutput st;
          settled := settled st; files := files st; effects := effects st;
          awaiting := []; issued := issued st |}.
Proof. destruct st. cbn. now intros ->. Qed.

Lemma resume_idle env now st : awaiting st = [] -> resume env now st = st.
Proof.
  intros H. unfold resume. rewrite H. cbn [List.filter run fold_left].
  symmetry. now apply idle_state.
Qed.

Lemma drain_idle env st : awaiting st = [] -> drain env st = st.
Proof.
  intros H. unfold drain. rewrite H. cbn [run fold_left].
  symmetry. now apply idle_state.
Qed.

(** Chunks of the streams only fill the two buffers. *)
Lemma deliver_data env tempFile evs rest now st :
  forallb is_data evs = true ->
  awaiting st = [] ->
  deliver env tempFile now (evs ++ rest) st
  = deliver env tempFile (now + length evs) rest
      {| output := output st ++ stdout_of evs;
         errorOutput := errorOutput st ++ stderr_of evs;
         settled := settled st; files := files st; effects := effects st;
         awaiting := []; issued := issued st |}.
Proof.
  revert now st. induction evs as [|ev evs IH]; intros now st H Hw.
  - cbn [app length stdout_of stderr_of flat_map].
    rewrite !List.app_nil_r, Nat.add_0_r. f_equal. now apply idle_state.
  - cbn [forallb] in H. apply andb_prop in H as [Hev H].
    cbn [app deliver length].
    destruct ev as [d|d|c|m]; try discriminate Hev;
      rewrite resume_idle by exact Hw;
      rewrite IH by assumption;
      cbn [handle output errorOutput settled files effects awaiting issued
           stdout_of stderr_of flat_map];
      rewrite <- ?List.app_assoc, ?List.app_nil_l, Nat.add_succ_r;
      reflexivity.
Qed.

(** One listener, whenever its unlink returns, runs to its end before
    the call is over. *)
Lemma lone_listener env now w st :
  awaiting st = [w] ->
  settled (drain env (resume env now st))
  = match settled st with
    | Some o => Some o
    | None => Some (verdict env (snd w) (output st) (errorOutput st))
    end.
Proof.
  intros Hw. rewrite drain_outcome, resume_outcome.
  destruct (resume_frame env now st) as (Ho & He & _ & _ & _ & Ha).
  rewrite Ho, He, Ha, Hw. cbn [List.filter].
  destruct (settled st); [reflexivity|].
  destruct (fst w <=? now)%nat; reflexivity.
Qed.

(** When the first end of the process is [close], the call settles
    with the verdict of its listener on what the streams held. *)
Lemma deliver_close env tempFile now code rest st :
  awaiting st = [] ->
  settled st = None ->
  settled (deliver env tempFile now (close code :: rest) st)
  = Some (verdict env (after_close code) (output st) (errorOutput st)).
Proof.
  intros Hw Hs. cbn [deliver handle]. destruct tempFile as [path|].
  - rewrite (lone_listener env now
               ((now + unlink_delay env (issued st))%nat, after_close code))
      by (cbn [listen awaiting]; now rewrite Hw).
    cbn [listen settled output errorOutput snd]. now rewrite Hs.
  - cbn [listen]. destruct (finish_frame env (after_close code) st)
      as (_ & _ & _ & _ & Ha & _).
    rewrite resume_idle, drain_idle by congruence.
    rewrite finish_outcome, Hs. reflexivity.
Qed.

(** The state in which the process starts. *)
Lemma analyzeCode_started env fs code fileName :
  isRoslynAvailable env fs = true ->
  process_started env fs code fileName = true ->
  exists tempFile codeInput fs1 log,
    staging env fs code fileName = inl (tempFile, codeInput, fs1, log)
    /\ child_events env fs code fileName
       = child env (lit "dotnet") [dllPath env; codeInput] fs1
    /\ analyzeCode env fs code fileName
       = let st :=
           deliver env tempFile 0 (child_events env fs code fileName)
             {| output := []; errorOutput := []; settled := None;
                files := fs1;
                effects := log ++ [Spawn (lit "dotnet")
                                     [dllPath env; codeInput]];
                awaiting := []; issued := 0 |} in
         {| outcome := settled st; files_after := files st;
            trace := effects st |}.
Proof.
  intros Ha Hp. unfold process_started, child_events, analyzeCode in *.
  rewrite Ha. cbn [negb].
  destruct (staging env fs code fileName) as [[[[tf ci] fs1] log]|m];
    [|discriminate Hp].
  destruct (spawn_error env (lit "dotnet") [dllPath env; ci]);
    [discriminate Hp|].
  exists tf, ci, fs1, log. repeat split; reflexivity.
Qed.

(** A process that emits an event was started. *)
Lemma events_started env fs code fileName ev evs :
  child_events env fs code fileName = ev :: evs ->
  process_started env fs code fileName = true.
Proof.
  unfold child_events, process_started.
  destruct (staging env fs code fileName) as [[[[tf ci] fs1] log]|m];
    [|discriminate].
  destruct (spawn_error env (lit "dotnet") [dllPath env; ci]);
    [discriminate|reflexivity].
Qed.

Lemma events_started_app env fs code fileName evs ev rest :
  child_events env fs code fileName = evs ++ ev :: rest ->
  process_started env fs code fileName = true.
Proof.
  destruct evs; cbn [app]; apply events_started.
Qed.

(** What the call settles with when the first end of the process is
    [close]. *)
Lemma analyzeCode_close env fs code fileName evs rest exitCode :
  isRoslynAvailable env fs = true ->
  child_events env fs code fileName = evs ++ close exitCode :: rest ->
  forallb is_data evs = true ->
  outcome (analyzeCode env fs code fileName)
  = Some (verdict env (after_close exitCode) (stdout_of evs)
            (stderr_of evs)).
Proof.
  intros Ha Hev Hd.
  destruct (analyzeCode_started env fs code fileName Ha
              (events_started_app _ _ _ _ _ _ _ Hev))
    as (tf & ci & fs1 & log & _ & _ & ->).
  cbv zeta. cbn [outcome]. rewrite Hev.
  rewrite deliver_data by (assumption || reflexivity).
  rewrite deliver_close by reflexivity.
  reflexivity.
Qed.

(** What the call settles with when the process writes [evs] to its
    streams and then exits with code zero. *)
Lemma analyzeCode_exit_zero env fs code fileName evs rest :
  isRoslynAvailable env fs = true ->
  child_events env fs code fileName = evs ++ close (Some 0%Z) :: rest ->
  forallb is_data evs = true ->
  outcome (analyzeCode env fs code fileName)
  = Some match JSON_parse (stdout_of evs) with
         | inl result => Resolved result
         | inr _ =>
             Rejected (ResultParseError
                         (SyntaxError_text env (stdout_of evs)))
         end.
Proof.
  intros Ha Hev Hd. rewrite (analyzeCode_close _ _ _ _ _ _ _ Ha Hev Hd).
  reflexivity.
Qed.

(** C4: when the compiled analyzer is not on disk, the availability
    check answers no, and [analyzeCode] rejects with the not-built
    error at once: nothing is staged, no process is spawned, the disk
    is as before. *)
Theorem C4_not_built (env : Env) (fs : FS) (code : text)
    (fileName : option text) :
  fs !! dllPath env = None ->
  isRoslynAvailable env fs = false
  /\ analyzeCode env fs code fileName
     = {| outcome := Some (Rejected NotBuiltError);
          files_after := fs; trace := [] |}.
Proof.
  intros H.
  assert (Ha : isRoslynAvailable env fs = false).
  { unfold isRoslynAvailable. rewrite H. apply bool_decide_eq_false.
    intros [x Hx]. discriminate. }
  split; [exact Ha|]. unfold analyzeCode. rewrite Ha. reflexivity.
Qed.

Lemma C4_not_built_witness :
  isRoslynAvailable (env_of []) ∅ = false
  /\ analyzeCode (env_of []) ∅ (lit "class A {}") None
     = {| outcome := Some (Rejected NotBuiltError);
          files_after := ∅; trace := [] |}.
Proof. apply (C4_not_built (env_of []) ∅). apply lookup_empty. Defined.

(** C10: when the process exits with code zero and its standard output
    is JSON, [analyzeCode] resolves with the parsed value, whatever its
    shape; [null] and the empty object are such outputs, and neither
    has the shape of an analysis result. *)
Theorem C10_no_shape_validation :
  (forall env fs code fileName evs rest result,
     isRoslynAvailable env fs = true ->
     child_events env fs code fileName = evs ++ close (Some 0%Z) :: rest ->
     forallb is_data evs = true ->
     JSON_parse (stdout_of evs) = inl result ->
     outcome (analyzeCode env fs code fileName) = Some (Resolved result))
  /\ JSON_parse (lit "null") = inl JNull
  /\ is_AnalysisResult JNull = false
  /\ JSON_parse (lit "{}") = inl (JObject [])
  /\ is_AnalysisResult (JObject []) = false.
Proof.
  split; [|repeat split; reflexivity].
  intros env fs code fileName evs rest result Ha Hev Hd Hp.
  rewrite (analyzeCode_exit_zero _ _ _ _ _ _ Ha Hev Hd), Hp. reflexivity.
Qed.

Lemma C10_no_shape_validation_witness :
  outcome (analyzeCode (env_of [stdout_data (lit "null"); close (Some 0%Z)])
             built (lit "class A {}") None)
  = Some (Resolved JNull).
Proof.
  apply (proj1 C10_no_shape_validation
           (env_of [stdout_data (lit "null"); close (Some 0%Z)]) built
           (lit "class A {}") None [stdout_data (lit "null")] []);
    reflexivity.
Defined.

(** C6, as the code has it: when the process exits with code zero and
    its standard output is not JSON, [analyzeCode] rejects with an error
    whose message is [Failed to parse analysis result: ] followed by the
    text that the engine gives the syntax error of its parser on that
    output, and by nothing else. *)
Theorem C6_parse_failure env fs code fileName evs rest err :
  isRoslynAvailable env fs = true ->
  child_events env fs code fileName = evs ++ close (Some 0%Z) :: rest ->
  forallb is_data evs = true ->
  JSON_parse (stdout_of evs) = inr err ->
  outcome (analyzeCode env fs code fileName)
  = Some (Rejected (lit "Failed to parse analysis result: "
                    ++ SyntaxError_text env (stdout_of evs))).
Proof.
  intros Ha Hev Hd Hp.
  rewrite (analyzeCode_exit_zero _ _ _ _ _ _ Ha Hev Hd), Hp. reflexivity.
Qed.

Lemma C6_parse_failure_witness :
  outcome (analyzeCode
             (env_of [stdout_data first_run_notice; close (Some 0%Z)])
             built (lit "class A {}") None)
  = Some (Rejected (lit "Failed to parse analysis result: "
                    ++ SyntaxError_text (env_of [])
                         (stdout_of [stdout_data first_run_notice]))).
Proof.
  apply (C6_parse_failure
           (env_of [stdout_data first_run_notice; close (Some 0%Z)]) built
           (lit "class A {}") None [stdout_data first_run_notice] []
           {| position := 0; token := Some 87 |});
    reflexivity.
Defined.

(** C6, as stated, fails: on the first-run notice of the host the error
    of [analyzeCode] does not contain the standard output. *)
Lemma C6_counterexample :
  ~ exists message,
      outcome (analyzeCode
                 (env_of [stdout_data first_run_notice; close (Some 0%Z)])
                 built (lit "class A {}") None)
      = Some (Rejected message)
      /\ Contains message first_run_notice = true.
Proof.
  intros (message & Ho & Hc).
  vm_compute in Ho. injection Ho as <-. vm_compute in Hc. discriminate.
Qed.

(** What [staging] gives when the name is no file path and the write
    succeeds. *)
Lemma staging_temp env fs code fileName :
  isFilePath fileName = false ->
  writeFile_error env (tempFilePath env) = None ->
  staging env fs code fileName
  = inl (Some (tempFilePath env), tempFilePath env,
         <[tempFilePath env := code]> fs,
         [WriteFile (tempFilePath env) code]).
Proof.
  intros H Hw. unfold staging. rewrite Hw.
  destruct fileName as [f|]; [|reflexivity]. now rewrite H.
Qed.

Lemma staging_file env fs code f :
  isFilePath (Some f) = true ->
  staging env fs code (Some f) = inl (None, f, fs, []).
Proof. intros H. unfold staging. now rewrite H. Qed.

(** The disk and the effects of a call that staged [path], where [F0]
    and [E0] are the files and the effects when the process starts:
    from the first end of the process on the unlink has been issued and
    the file is gone, unless the unlink fails. *)
Lemma listen_unlinks env path F0 E0 now l st :
  is_Some (F0 !! path) ->
  (files st = F0 /\ effects st = E0)
  \/ (files st = (if unlink_error env path then F0 else delete path F0)
      /\ exists more, effects st = E0 ++ Unlink path :: more) ->
  files (listen env (Some path) now l st)
  = (if unlink_error env path then F0 else delete path F0)
  /\ exists more,
      effects (listen env (Some path) now l st) = E0 ++ Unlink path :: more.
Proof.
  intros [c Hc] H. cbn [listen files effects]. unfold unlink.
  destruct H as [(H1 & H2)|(H1 & more & H2)]; rewrite H1, H2.
  - rewrite Hc. destruct (unlink_error env path);
      (split; [reflexivity|exists []; reflexivity]).
  - destruct (unlink_error env path).
    + split; [reflexivity|]. exists (more ++ [Unlink path]).
      now rewrite <- List.app_assoc.
    + rewrite lookup_delete_eq. split; [reflexivity|].
      exists (more ++ [Unlink path]). now rewrite <- List.app_assoc.
Qed.

Lemma handle_unlinked env path F0 E0 now st ev :
  is_Some (F0 !! path) ->
  files st = (if unlink_error env path then F0 else delete path F0)
  /\ (exists more, effects st = E0 ++ Unlink path :: more) ->
  files (handle env (Some path) now st ev)
  = (if unlink_error env path then F0 else delete path F0)
  /\ exists more,
      effects (handle env (Some path) now st ev)
      = E0 ++ Unlink path :: more.
Proof.
  intros Hp H.
  destruct ev as [d|d|code|m]; cbn [handle]; try exact H;
    apply (listen_unlinks env path F0 E0 now _ st Hp); right; exact H.
Qed.

Lemma deliver_unlinked env path F0 E0 events now st :
  is_Some (F0 !! path) ->
  files st = (if unlink_error env path then F0 else delete path F0)
  /\ (exists more, effects st = E0 ++ Unlink path :: more) ->
  files (deliver env (Some path) now events st)
  = (if unlink_error env path then F0 else delete path F0)
  /\ exists more,
      effects (deliver env (Some path) now events st)
      = E0 ++ Unlink path :: more.
Proof.
  intros Hp. revert now st.
  induction events as [|ev events IH]; intros now st H; cbn [deliver].
  - destruct (drain_frame env st) as (_ & _ & Hf & He & _ & _).
    rewrite Hf, He. exact H.
  - pose proof (handle_unlinked env path F0 E0 now st ev Hp H) as Hh.
    assert (Hr : files (resume env now (handle env (Some path) now st ev))
                 = (if unlink_error env path then F0 else delete path F0)
                 /\ exists more,
                     effects (resume env now
                                (handle env (Some path) now st ev))
                     = E0 ++ Unlink path :: more).
    { match goal with
      | |- context [resume env now ?s] =>
          destruct (resume_frame env now s) as (_ & _ & Hf & He & _ & _);
          rewrite Hf, He
      end. exact Hh. }
    destruct ev as [d|d|code|m]; try (apply IH; exact Hr).
    match goal with
    | |- context [drain env ?s] =>
        destruct (drain_frame env s) as (_ & _ & Hf & He & _ & _);
        rewrite Hf, He
    end. exact Hr.
Qed.

(** A call that staged [path]: either its process has written to its
    streams only, and the call is pending with the file on disk, or the
    unlink has been issued. *)
Lemma deliver_staged env path F0 E0 events now st :
  is_Some (F0 !! path) ->
  settled st = None -> awaiting st = [] ->
  files st = F0 -> effects st = E0 ->
  let st' := deliver env (Some path) now events st in
  (settled st' = None /\ files st' = F0 /\ effects st' = E0
   /\ forallb is_data events = true)
  \/ (files st' = (if unlink_error env path then F0 else delete path F0)
      /\ exists more, effects st' = E0 ++ Unlink path :: more).
Proof.
  intros Hp. revert now st.
  induction events as [|ev events IH]; intros now st Hs Hw Hf He;
    cbn [deliver]; cbv zeta.
  - rewrite drain_idle by exact Hw. left. repeat split; assumption.
  - assert (Hend : forall l,
               let s := resume env now (listen env (Some path) now l st) in
               files s
               = (if unlink_error env path then F0 else delete path F0)
               /\ exists more, effects s = E0 ++ Unlink path :: more).
    { intros l s. subst s.
      match goal with
      | |- context [resume env now ?s] =>
          destruct (resume_frame env now s) as (_ & _ & Hf' & He' & _ & _);
          rewrite Hf', He'
      end.
      apply (listen_unlinks env path F0 E0 now l st Hp). left. now split. }
    destruct ev as [d|d|code|m]; cbn [handle forallb is_data andb].
    + rewrite resume_idle by exact Hw. apply IH; assumption.
    + rewrite resume_idle by exact Hw. apply IH; assumption.
    + right.
      match goal with
      | |- context [drain env ?s] =>
          destruct (drain_frame env s) as (_ & _ & Hf' & He' & _ & _);
          rewrite Hf', He'
      end. apply Hend.
    + right. apply (deliver_unlinked env path F0 E0 _ _ _ Hp). apply Hend.
Qed.

(** A call that stages its code and starts the process. *)
Lemma analyzeCode_staged env fs code fileName :
  isRoslynAvailable env fs = true ->
  isFilePath fileName = false ->
  writeFile_error env (tempFilePath env) = None ->
  spawn_error env (lit "dotnet") [dllPath env; tempFilePath env] = None ->
  let run := analyzeCode env fs code fileName in
  let E0 := [WriteFile (tempFilePath env) code;
             Spawn (lit "dotnet") [dllPath env; tempFilePath env]] in
  (outcome run = None
   /\ files_after run = <[tempFilePath env := code]> fs
   /\ trace run = E0
   /\ forallb is_data (child_events env fs code fileName) = true)
  \/ (files_after run
      = (if unlink_error env (tempFilePath env)
         then <[tempFilePath env := code]> fs
         else delete (tempFilePath env) fs)
      /\ exists more, trace run = E0 ++ Unlink (tempFilePath env) :: more).
Proof.
  intros Ha Hf Hw Hs run E0. subst run.
  unfold analyzeCode, child_events. rewrite Ha. cbn [negb].
  rewrite (staging_temp _ _ _ _ Hf Hw), Hs.
  cbv zeta. cbn [outcome files_after trace].
  match goal with
  | |- context [deliver env ?t ?n ?evs ?st] =>
      pose proof (deliver_staged env (tempFilePath env)
                    (<[tempFilePath env := code]> fs) E0 evs n st) as H
  end.
  cbv zeta in H. rewrite delete_insert_eq in H. apply H; try reflexivity.
  rewrite lookup_insert_eq. eexists. reflexivity.
Qed.

(** The two ways in which a call that stages its code starts no
    process, and what a call that starts one was given. *)
Lemma started_staged env fs code fileName :
  isFilePath fileName = false ->
  process_started env fs code fileName = true ->
  writeFile_error env (tempFilePath env) = None
  /\ spawn_error env (lit "dotnet") [dllPath env; tempFilePath env] = None.
Proof.
  intros Hf. unfold process_started, staging.
  destruct fileName as [f|]; [rewrite Hf|];
    destruct (writeFile_error env (tempFilePath env)); try discriminate;
    destruct (spawn_error env _ _); try discriminate; now split.
Qed.

(** Without a staged file the listeners touch neither the disk nor
    anything else. *)
Lemma deliver_in_place env events now st :
  files (deliver env None now events st) = files st
  /\ effects (deliver env None now events st) = effects st.
Proof.
  revert now st. induction events as [|ev events IH]; intros now st;
    cbn [deliver].
  - destruct (drain_frame env st) as (_ & _ & Hf & He & _ & _).
    now split.
  - assert (Hh : files (resume env now (handle env None now st ev))
                 = files st
                 /\ effects (resume env now (handle env None now st ev))
                    = effects st).
    { match goal with
      | |- context [resume env now ?s] =>
          destruct (resume_frame env now s) as (_ & _ & Hf & He & _ & _);
          rewrite Hf, He
      end.
      destruct ev as [d|d|c|m]; cbn [handle listen files effects];
        try (split; reflexivity);
        match goal with
        | |- context [finish env ?l st] =>
            destruct (finish_frame env l st) as (_ & _ & Hf' & He' & _ & _)
        end; now split. }
    destruct Hh as [Hf He].
    destruct ev as [d|d|c|m];
      match goal with
      | |- context [deliver env None (S now) events ?s] =>
          destruct (IH (S now) s) as [Hf' He']
      | |- context [drain env ?s] =>
          destruct (drain_frame env s) as (_ & _ & Hf' & He' & _ & _)
      end;
      split; congruence.
Qed.

(** A call with a file name that ends in [.cs]. *)
Lemma analyzeCode_in_place env fs code f :
  isRoslynAvailable env fs = true ->
  isFilePath (Some f) = true ->
  trace (analyzeCode env fs code (Some f))
  = [Spawn (lit "dotnet") [dllPath env; f]]
  /\ files_after (analyzeCode env fs code (Some f)) = fs.
Proof.
  intros Ha Hf. unfold analyzeCode. rewrite Ha. cbn [negb].
  rewrite (staging_file _ _ _ _ Hf).
  destruct (spawn_error env (lit "dotnet") [dllPath env; f]);
    [split; reflexivity|].
  cbv zeta. cbn [trace files_after].
  match goal with
  | |- context [deliver env None ?n ?evs ?st] =>
      destruct (deliver_in_place env evs n st) as [H1 H2]
  end.
  split; assumption.
Qed.

(** A call with any other file name, or with none, writes the code to
    the staged file first, or tries to. *)
Lemma analyzeCode_writes env fs code fileName :
  isRoslynAvailable env fs = true ->
  isFilePath fileName = false ->
  exists more,
    trace (analyzeCode env fs code fileName)
    = WriteFile (tempFilePath env) code :: more.
Proof.
  intros Ha Hf.
  destruct (writeFile_error env (tempFilePath env)) as [m|] eqn:Hw.
  { unfold analyzeCode, staging. rewrite Ha, Hw. cbn [negb].
    exists []. destruct fileName; [rewrite Hf|]; reflexivity. }
  destruct (spawn_error env (lit "dotnet") [dllPath env; tempFilePath env])
    as [m|] eqn:Hs.
  { unfold analyzeCode. rewrite Ha. cbn [negb].
    rewrite (staging_temp _ _ _ _ Hf Hw), Hs. eexists. reflexivity. }
  destruct (analyzeCode_staged env fs code fileName Ha Hf Hw Hs)
    as [(_ & _ & Ht & _)|(_ & more & Ht)]; rewrite Ht;
    eexists; reflexivity.
Qed.

(** The two exits before the process starts: a write that fails
    rejects the call with the error of the write, and nothing is
    spawned; a [spawn] that throws rejects it with what was thrown, and
    the staged file stays where it is. *)
Example write_failure_rejects :
  analyzeCode (with_full_disk []) built (lit "class A {}") None
  = {| outcome :=
         Some (Rejected (lit "ENOSPC: no space left on device, write"));
       files_after := built;
       trace := [WriteFile (tempFilePath (env_of [])) (lit "class A {}")] |}.
Proof. reflexivity. Qed.

Example spawn_throw_rejects :
  outcome (analyzeCode (with_throwing_spawn []) built (lit "class A {}") None)
  = Some (Rejected (lit "spawn E2BIG"))
  /\ files_after
       (analyzeCode (with_throwing_spawn []) built (lit "class A {}") None)
     !! tempFilePath (env_of [])
     = Some (lit "class A {}").
Proof. split; vm_compute; reflexivity. Qed.




(** C2: the code validates nothing, and the file name decides whether
    the code is staged.  With the analyzer built, the call writes the
    code to the staged file exactly when the file name is absent, empty
    or does not end in [.cs].  A call with the code [class A {}] and
    the file name [Test.cs] does not fail for having both: it stages
    nothing, spawns the analyzer on [Test.cs] and resolves with what
    that process prints. *)
Theorem C2_file_name_decides_staging :
  (forall env fs code fileName,
     isRoslynAvailable env fs = true ->
     (In (WriteFile (tempFilePath env) code)
         (trace (analyzeCode env fs code fileName))
      <-> isFilePath fileName = false))
  /\ (forall events,
        trace (analyzeCode (env_of events) built (lit "class A {}")
                 (Some (lit "Test.cs")))
        = [Spawn (lit "dotnet") [dllPath (env_of []); lit "Test.cs"]])
  /\ outcome (analyzeCode
                (env_of [stdout_data empty_output; close (Some 0%Z)])
                built (lit "class A {}") (Some (lit "Test.cs")))
     = Some (Resolved (to_value (AnalysisResult_node empty_result))).
Proof.
  split; [|split].
  - intros env fs code fileName Ha. split.
    + intros Hin. destruct (isFilePath fileName) eqn:Hf; [|reflexivity].
      destruct fileName as [f|]; [|discriminate Hf].
      destruct (analyzeCode_in_place env fs code f Ha Hf) as [Ht _].
      rewrite Ht in Hin. destruct Hin as [Hin|[]]. discriminate Hin.
    + intros Hf.
      destruct (analyzeCode_writes env fs code fileName Ha Hf) as [more Ht].
      rewrite Ht. left. reflexivity.
  - intros events.
    apply (analyzeCode_in_place (env_of events) built (lit "class A {}")
             (lit "Test.cs")); reflexivity.
  - reflexivity.
Qed.

Lemma C2_file_name_decides_staging_witness :
  In (WriteFile (tempFilePath (env_of [])) (lit "class A {}"))
     (trace (analyzeCode
               (env_of [stdout_data empty_output; close (Some 0%Z)])
               built (lit "class A {}") (Some (lit "Calculator")))).
Proof.
  apply (proj1 C2_file_name_decides_staging
           (env_of [stdout_data empty_output; close (Some 0%Z)])
           built (lit "class A {}") (Some (lit "Calculator")));
    reflexivity.
Defined.

(** ** The fuel of the parser *)

Lemma skip_ws_length s : (length (skip_ws s) <= length s)%nat.
Proof.
  induction s as [|c s IH]; [reflexivity|].
  cbn [skip_ws]. destruct (is_ws c); cbn [length]; lia.
Qed.

Lemma expect_length c s r : expect c s = Some r -> length s = S (length r).
Proof.
  destruct s as [|d s]; [discriminate|]. cbn [expect].
  destruct (d =? c); [|discriminate]. now intros [= ->].
Qed.

Lemma rmap_Ok {A B} (f : A -> B) (x : result A) b r :
  rmap f x = Ok b r -> exists a, x = Ok a r /\ b = f a.
Proof. destruct x; [|discriminate]. intros [= <- <-]. eauto. Qed.

Lemma parse_chars_length s k r :
  parse_chars s = Ok k r -> (length r < length s)%nat.
Proof.
  remember (length s) as n eqn:Hn. revert s k r Hn.
  induction n as [n IH] using lt_wf_ind. intros s k r Hn.
  destruct s as [|c s]; [discriminate|]. cbn [parse_chars].
  destruct (c =? 34).
  { intros [= <- <-]. subst n. cbn [length]. lia. }
  destruct (c =? 92).
  - destruct s as [|e s]; [discriminate|].
    destruct (simple_escape e).
    + intros H. apply rmap_Ok in H as (a & H & _).
      apply (IH (length s)) in H; subst n; cbn [length] in *; lia.
    + destruct (e =? 117); [|discriminate].
      destruct s as [|h1 [|h2 [|h3 [|h4 s]]]]; try discriminate.
      destruct (hex4 h1 h2 h3 h4); [|discriminate].
      intros H. apply rmap_Ok in H as (a & H & _).
      apply (IH (length s)) in H; subst n; cbn [length] in *; lia.
  - destruct (c <? 32); [discriminate|].
    intros H. apply rmap_Ok in H as (a & H & _).
    apply (IH (length s)) in H; subst n; cbn [length] in *; lia.
Qed.

Lemma take_digits_length s acc n :
  (length (snd (take_digits s acc n)) <= length s)%nat.
Proof.
  revert acc n. induction s as [|c s IH]; intros acc n; [reflexivity|].
  cbn [take_digits]. destruct (is_digit c); [|reflexivity].
  specialize (IH (acc * 10 + (Z.of_N c - 48))%Z (S n)). cbn [length]. lia.
Qed.

Lemma sign_length m p s :
  (length (snd (sign m p s)) <= length s)%nat.
Proof.
  destruct s as [|c s]; [reflexivity|]. cbn [sign].
  destruct (c =? m); [cbn; lia|].
  destruct (p && (c =? 43)); cbn; lia.
Qed.

Ltac destruct_matches H :=
  repeat match type of H with
    | context [match ?x with _ => _ end] =>
        let E := fresh "E" in destruct x eqn:E; try discriminate H
    end.

Ltac length_facts :=
  repeat match goal with
    | E : take_digits ?s ?a ?n = _ |- _ =>
        let L := fresh "L" in
        pose proof (take_digits_length s a n) as L; rewrite E in L;
        cbn [snd] in L; clear E
    | E : sign ?m ?p ?s = _ |- _ =>
        let L := fresh "L" in
        pose proof (sign_length m p s) as L; rewrite E in L;
        cbn [snd] in L; clear E
    end.

Lemma parse_number_length s v r :
  parse_number s = Ok v r -> (length r < length s)%nat.
Proof.
  unfold parse_number. intros H. destruct_matches H.
  all: repeat match goal with
         | E : context [match ?x with _ => _ end] |- _ =>
             destruct x eqn:?; try discriminate E
         end.
  all: repeat match goal with
         | Hd : negb (is_digit ?d) = false,
           E : take_digits (?d :: _) _ _ = _ |- _ =>
             cbn [take_digits] in E;
             rewrite (proj1 (negb_false_iff _) Hd) in E
         end.
  all: length_facts.
  all: repeat match goal with
         | E : Ok _ _ = Ok _ _ |- _ => injection E as ? ?
         | E : (_, _) = (_, _) |- _ => injection E as ? ?
         end.
  all: subst; cbn [length] in *; try lia.
Qed.

Lemma keyword_length {A} k (v a : A) s r :
  k <> [] -> keyword k v s = Ok a r -> (length r < length s)%nat.
Proof.
  unfold keyword. intros Hk. destruct (StartsWith s k) eqn:E; [|discriminate].
  intros [= _ <-]. rewrite length_drop.
  destruct k as [|c k]; [congruence|]. destruct s as [|d s]; [discriminate|].
  cbn [length]. lia.
Qed.

(** A value that is read takes at least one character. *)
Lemma parse_progress (fuel : nat) :
  (forall s v r, parse_value fuel s = Ok v r -> (length r < length s)%nat)
  /\ (forall s l r,
        parse_elements fuel s = Ok l r -> (length r < length s)%nat)
  /\ (forall acc s l r,
        parse_members fuel acc s = Ok l r -> (length r < length s)%nat).
Proof.
  induction fuel as [|fuel (IHv & IHe & IHm)];
    [repeat split; intros; discriminate|].
  refine (conj _ (conj _ _)).
  - intros s v r. cbn [parse_value].
    destruct s as [|c s]; [discriminate|].
    destruct (c =? 34).
    { intros H. apply rmap_Ok in H as (a & H & _).
      apply parse_chars_length in H. cbn [length]. lia. }
    destruct (c =? 91).
    { pose proof (skip_ws_length s).
      destruct (expect 93 (skip_ws s)) as [s''|] eqn:E.
      - apply expect_length in E. intros [= _ <-]. cbn [length]. lia.
      - intros H'. apply rmap_Ok in H' as (a & H' & _).
        apply IHe in H'. cbn [length]. lia. }
    destruct (c =? 123).
    { pose proof (skip_ws_length s).
      destruct (expect 125 (skip_ws s)) as [s''|] eqn:E.
      - apply expect_length in E. intros [= _ <-]. cbn [length]. lia.
      - intros H'. apply rmap_Ok in H' as (a & H' & _).
        apply IHm in H'. cbn [length]. lia. }
    destruct (c =? 116); [apply keyword_length; discriminate|].
    destruct (c =? 102); [apply keyword_length; discriminate|].
    destruct (c =? 110); [apply keyword_length; discriminate|].
    apply parse_number_length.
  - intros s l r. cbn [parse_elements].
    pose proof (skip_ws_length s).
    destruct (parse_value fuel (skip_ws s)) as [v r1|] eqn:Ev; [|discriminate].
    apply IHv in Ev. pose proof (skip_ws_length r1).
    destruct (expect 44 (skip_ws r1)) as [r'|] eqn:E1.
    + apply expect_length in E1. intros H'.
      apply rmap_Ok in H' as (a & H' & _). apply IHe in H'. lia.
    + destruct (expect 93 (skip_ws r1)) as [r'|] eqn:E2; [|discriminate].
      apply expect_length in E2. intros [= _ <-]. lia.
  - intros acc s l r. cbn [parse_members].
    pose proof (skip_ws_length s).
    destruct (expect 34 (skip_ws s)) as [s1|] eqn:E0; [|discriminate].
    apply expect_length in E0.
    destruct (parse_chars s1) as [k s2|] eqn:Ek; [|discriminate].
    apply parse_chars_length in Ek. pose proof (skip_ws_length s2).
    destruct (expect 58 (skip_ws s2)) as [s3|] eqn:E3; [|discriminate].
    apply expect_length in E3. pose proof (skip_ws_length s3).
    destruct (parse_value fuel (skip_ws s3)) as [v r1|] eqn:Ev; [|discriminate].
    apply IHv in Ev. pose proof (skip_ws_length r1).
    destruct (expect 44 (skip_ws r1)) as [r'|] eqn:E1.
    + apply expect_length in E1. intros H'. apply IHm in H'. lia.
    + destruct (expect 125 (skip_ws r1)) as [r'|] eqn:E2; [|discriminate].
      apply expect_length in E2. intros [= _ <-]. lia.
Qed.

(** One step of [parse_elements] and of [parse_members]. *)
Lemma parse_elements_step f s :
  parse_elements (S f) s
  = match parse_value f (skip_ws s) with
    | Fail a => Fail a
    | Ok v r =>
        match expect 44 (skip_ws r) with
        | Some r' => rmap (cons v) (parse_elements f r')
        | None =>
            match expect 93 (skip_ws r) with
            | Some r' => Ok [v] r'
            | None => Fail (skip_ws r)
            end
        end
    end.
Proof. reflexivity. Qed.

Lemma parse_members_step f acc s :
  parse_members (S f) acc s
  = match expect 34 (skip_ws s) with
    | None => Fail (skip_ws s)
    | Some s1 =>
        match parse_chars s1 with
        | Fail a => Fail a
        | Ok k s2 =>
            match expect 58 (skip_ws s2) with
            | None => Fail (skip_ws s2)
            | Some s3 =>
                match parse_value f (skip_ws s3) with
                | Fail a => Fail a
                | Ok v r =>
                    match expect 44 (skip_ws r) with
                    | Some r' => parse_members f (set_prop k v acc) r'
                    | None =>
                        match expect 125 (skip_ws r) with
                        | Some r' => Ok (set_prop k v acc) r'
                        | None => Fail (skip_ws r)
                        end
                    end
                end
            end
        end
    end.
Proof. reflexivity. Qed.

(** With more than twice the length of the text as fuel, one more unit
    of fuel changes nothing. *)
Lemma fuel_stable (f : nat) :
  (forall s, (2 * length s < f)%nat -> parse_value (S f) s = parse_value f s)
  /\ (forall s, (2 * length s + 1 < f)%nat ->
        parse_elements (S f) s = parse_elements f s)
  /\ (forall acc s, (2 * length s + 1 < f)%nat ->
        parse_members (S f) acc s = parse_members f acc s).
Proof.
  induction f as [|g (IHv & IHe & IHm)]; [repeat split; intros; lia|].
  destruct (parse_progress g) as (Pv & _ & _).
  refine (conj _ (conj _ _)).
  - intros s Hs. destruct s as [|c s]; [reflexivity|].
    cbn [length] in Hs. cbn [parse_value].
    rewrite (IHe s), (IHm [] s) by lia. reflexivity.
  - intros s Hs. pose proof (skip_ws_length s) as L.
    rewrite (parse_elements_step (S g)), (parse_elements_step g).
    rewrite IHv by lia.
    destruct (parse_value g (skip_ws s)) as [v r1|] eqn:Ev; [|reflexivity].
    apply Pv in Ev. pose proof (skip_ws_length r1) as L1.
    destruct (expect 44 (skip_ws r1)) as [r'|] eqn:E1; [|reflexivity].
    apply expect_length in E1. rewrite (IHe r') by lia. reflexivity.
  - intros acc s Hs. pose proof (skip_ws_length s) as L.
    rewrite (parse_members_step (S g)), (parse_members_step g).
    destruct (expect 34 (skip_ws s)) as [s1|] eqn:E0; [|reflexivity].
    apply expect_length in E0.
    destruct (parse_chars s1) as [k s2|] eqn:Ek; [|reflexivity].
    apply parse_chars_length in Ek. pose proof (skip_ws_length s2) as L2.
    destruct (expect 58 (skip_ws s2)) as [s3|] eqn:E3; [|reflexivity].
    apply expect_length in E3. pose proof (skip_ws_length s3) as L3.
    rewrite IHv by lia.
    destruct (parse_value g (skip_ws s3)) as [v r1|] eqn:Ev; [|reflexivity].
    apply Pv in Ev. pose proof (skip_ws_length r1) as L1.
    destruct (expect 44 (skip_ws r1)) as [r'|] eqn:E1; [|reflexivity].
    apply expect_length in E1. rewrite (IHm _ r') by lia. reflexivity.
Qed.

(** The fuel of [JSON_parse] never runs out: no larger fuel gives
    another answer. *)
Lemma JSON_parse_fuel (input : text) (extra : nat) :
  parse_value (2 * length input + 2 + extra) (skip_ws input)
  = parse_value (2 * length input + 2) (skip_ws input).
Proof.
  pose proof (skip_ws_length input) as L.
  induction extra as [|extra IH]; [now rewrite Nat.add_0_r|].
  rewrite Nat.add_succ_r, (proj1 (fuel_stable _)) by lia. exact IH.
Qed.

(** ** The round trip through JSON *)

(** *** Numbers *)

Lemma is_digit_spec c : is_digit c = true <-> 48 <= c <= 57.
Proof. unfold is_digit. rewrite andb_true_iff, !N.leb_le. tauto. Qed.

Lemma take_digits_app ds rest acc k :
  forallb is_digit ds = true ->
  match rest with c :: _ => is_digit c = false | [] => True end ->
  take_digits (ds ++ rest) acc k
  = (fold_left (fun a c => (a * 10 + (Z.of_N c - 48))%Z) ds acc,
     (k + length ds)%nat, rest).
Proof.
  revert acc k. induction ds as [|d ds IH]; intros acc k Hd Hr.
  - cbn [app fold_left length]. rewrite Nat.add_0_r.
    destruct rest as [|c rest]; [reflexivity|].
    cbn [take_digits]. now rewrite Hr.
  - cbn [forallb] in Hd. apply andb_prop in Hd as [Hd1 Hd].
    cbn [app take_digits fold_left length]. rewrite Hd1, (IH _ _ Hd Hr).
    f_equal. f_equal. lia.
Qed.

(** The digits that are written for [n]: they denote [n], and only the
    number zero starts with the digit zero. *)
Lemma digits_aux_spec fuel n acc :
  n < 2 ^ N.of_nat fuel -> (0 < fuel)%nat ->
  exists d ds,
    digits_aux fuel n acc = d :: ds ++ acc
    /\ forallb is_digit (d :: ds) = true
    /\ (forall a,
          fold_left (fun a c => (a * 10 + (Z.of_N c - 48))%Z) (d :: ds) a
          = (a * 10 ^ Z.of_nat (length (d :: ds)) + Z.of_N n)%Z)
    /\ (n = 0 -> ds = [])
    /\ (d = 48 -> n = 0).
Proof.
  revert n acc. induction fuel as [|fuel IH]; intros n acc Hn Hf; [lia|].
  cbn [digits_aux].
  pose proof (N.mod_lt n 10 ltac:(lia)) as Hm.
  pose proof (N.div_mod n 10 ltac:(lia)) as Hdm.
  rewrite Nat2N.inj_succ, N.pow_succ_r' in Hn.
  destruct (n <? 10) eqn:E.
  - apply N.ltb_lt in E. rewrite (N.mod_small n 10 E).
    exists (48 + n), []. refine (conj _ (conj _ (conj _ (conj _ _)))).
    + reflexivity.
    + cbn [forallb]. rewrite andb_true_r. apply is_digit_spec.
      clear - E. lia.
    + intros a. cbn [fold_left length]. clear. lia.
    + intros ->. reflexivity.
    + clear. lia.
  - apply N.ltb_ge in E.
    set (q := n / 10) in *. set (r := n mod 10) in *. clearbody q r.
    assert (Hlt : q < 2 ^ N.of_nat fuel) by lia.
    assert (Hf' : (0 < fuel)%nat).
    { destruct fuel; [cbn in Hlt; lia|lia]. }
    destruct (IH q ((48 + r) :: acc) Hlt Hf')
      as (d & ds & -> & Hdig & Hval & Hz & Hd).
    exists d, (ds ++ [48 + r]).
    refine (conj _ (conj _ (conj _ (conj _ _)))).
    + now rewrite <- List.app_assoc.
    + rewrite List.app_comm_cons, forallb_app, Hdig. cbn [forallb andb].
      rewrite andb_true_r. apply is_digit_spec. lia.
    + intros a. rewrite List.app_comm_cons, List.fold_left_app, Hval.
      cbn [fold_left]. rewrite List.length_app.
      change (length [(48 + r)%N]) with 1%nat.
      rewrite Nat.add_1_r, Nat2Z.inj_succ, Z.pow_succ_r by lia.
      generalize (10 ^ Z.of_nat (length (d :: ds)))%Z. intros p. lia.
    + lia.
    + intros ->. specialize (Hd eq_refl). lia.
Qed.

Lemma digits_spec n :
  exists d ds,
    digits n = d :: ds
    /\ forallb is_digit (d :: ds) = true
    /\ (forall a,
          fold_left (fun a c => (a * 10 + (Z.of_N c - 48))%Z) (d :: ds) a
          = (a * 10 ^ Z.of_nat (length (d :: ds)) + Z.of_N n)%Z)
    /\ (n = 0 -> ds = [])
    /\ (d = 48 -> n = 0).
Proof.
  unfold digits.
  destruct (digits_aux_spec (S (N.to_nat (N.log2 n))) n []) as
    (d & ds & E & H); [|lia|].
  - rewrite Nat2N.inj_succ, N2Nat.id.
    destruct n as [|p]; [reflexivity|].
    apply N.log2_spec. lia.
  - exists d, ds. rewrite E, List.app_nil_r. split; [reflexivity|exact H].
Qed.

(** A delimiter is one of seven characters, none of which continues a
    number. *)
Lemma delimited_cons c t :
  delimited (c :: t) = true ->
  c = 32 \/ c = 9 \/ c = 10 \/ c = 13 \/ c = 44 \/ c = 93 \/ c = 125.
Proof.
  unfold delimited, is_ws. rewrite !orb_true_iff, !N.eqb_eq. tauto.
Qed.

Lemma delimited_number c t :
  delimited (c :: t) = true ->
  is_digit c = false /\ (c =? 46) = false /\ (c =? 101) = false
  /\ (c =? 69) = false.
Proof.
  intros H. apply delimited_cons in H.
  destruct H as [->|[->|[->|[->|[->|[->| ->]]]]]]; repeat split.
Qed.

Lemma parse_number_digits (neg : bool) n rest :
  delimited rest = true ->
  parse_number ((if neg then [45] else []) ++ digits n ++ rest)
  = Ok (JNumber (if neg then - Z.of_N n else Z.of_N n)%Z 0) rest.
Proof.
  intros Hr.
  destruct (digits_spec n) as (d & ds & -> & Hdig & Hval & Hz & Hd).
  pose proof Hdig as Hd1. cbn [forallb] in Hd1.
  apply andb_prop in Hd1 as [Hd1 _].
  assert (H45 : (d =? 45) = false).
  { apply is_digit_spec in Hd1. apply N.eqb_neq. lia. }
  unfold parse_number.
  assert (Hs : sign 45 false ((if neg then [45] else []) ++ (d :: ds) ++ rest)
               = (neg, d :: ds ++ rest)).
  { destruct neg; cbn [app sign]; [reflexivity|].
    now rewrite H45. }
  rewrite Hs. rewrite Hd1. cbn [negb].
  assert (Hrest : match rest with c :: _ => is_digit c = false | [] => True end).
  { destruct rest as [|c t]; [exact I|]. now apply delimited_number in Hr. }
  assert (Htail :
    forall ip : Z,
      match
        match rest with
        | c :: s4 =>
            if c =? 46
            then match take_digits s4 ip 0 with
                 | (_, O, _) => Fail s4
                 | (m, n0, s5) => Ok (m, Z.of_nat n0) s5
                 end
            else Ok (ip, 0%Z) rest
        | [] => Ok (ip, 0%Z) rest
        end
      with
      | Fail a => Fail a
      | Ok (m, fd) s5 =>
          let signed := if neg then (- m)%Z else m in
          match s5 with
          | c :: s6 =>
              if (c =? 101) || (c =? 69)
              then
                let '(eneg, s7) := sign 45 true s6 in
                match take_digits s7 0 0 with
                | (_, O, _) => Fail s7
                | (x, _, s8) =>
                    Ok (JNumber signed ((if eneg then - x else x) - fd)%Z) s8
                end
              else Ok (JNumber signed (- fd)%Z) s5
          | [] => Ok (JNumber signed (- fd)%Z) s5
          end
      end = Ok (JNumber (if neg then (- ip)%Z else ip) 0) rest).
  { intros ip. destruct rest as [|c t]; [reflexivity|].
    apply delimited_number in Hr as (_ & -> & -> & ->). reflexivity. }
  destruct (d =? 48) eqn:E48.
  - apply N.eqb_eq in E48. specialize (Hd E48). subst n. rewrite (Hz eq_refl).
    cbn [app andb].
    destruct rest as [|c t]; [apply (Htail 0%Z)|].
    rewrite Hrest. apply (Htail 0%Z).
  - cbn [andb].
    change (d :: ds ++ rest) with ((d :: ds) ++ rest).
    rewrite (take_digits_app _ _ _ _ Hdig Hrest), Hval.
    rewrite Z.mul_0_l, Z.add_0_l. apply Htail.
Qed.

Lemma parse_number_of_Z z rest :
  delimited rest = true ->
  parse_number (of_Z z ++ rest) = Ok (JNumber z 0) rest.
Proof.
  intros Hr. destruct z as [|p|p]; unfold of_Z.
  - apply (parse_number_digits false 0 rest Hr).
  - pose proof (parse_number_digits false (Npos p) rest Hr) as H.
    cbn [app] in H. exact H.
  - pose proof (parse_number_digits true (Npos p) rest Hr) as H.
    cbn [app] in H. exact H.
Qed.

(** *** Strings *)

Lemma hex_value_digit n : n < 16 -> hex_value (hex_digit n) = Some n.
Proof.
  intros H. unfold hex_digit, hex_value.
  destruct (N.ltb_spec n 10) as [Hn|Hn].
  - replace ((48 <=? 48 + n) && (48 + n <=? 57)) with true
      by (symmetry; apply andb_true_intro; split; apply N.leb_le; lia).
    f_equal. lia.
  - replace ((48 <=? 55 + n) && (55 + n <=? 57)) with false
      by (symmetry; apply andb_false_intro2, N.leb_gt; lia).
    replace ((65 <=? 55 + n) && (55 + n <=? 70)) with true
      by (symmetry; apply andb_true_intro; split; apply N.leb_le; lia).
    f_equal. lia.
Qed.

Lemma hex4_u_escape c :
  c < 65536 ->
  hex4 (hex_digit (c / 4096)) (hex_digit ((c / 256) mod 16))
    (hex_digit ((c / 16) mod 16)) (hex_digit (c mod 16)) = Some c.
Proof.
  intros H. unfold hex4.
  pose proof (N.mod_lt c 16 ltac:(lia)) as H0.
  pose proof (N.mod_lt (c / 16) 16 ltac:(lia)) as H1.
  pose proof (N.mod_lt (c / 256) 16 ltac:(lia)) as H2.
  assert (H3 : c / 4096 < 16) by (apply N.Div0.div_lt_upper_bound; lia).
  pose proof (N.div_mod c 16 ltac:(lia)) as E0.
  pose proof (N.div_mod (c / 16) 16 ltac:(lia)) as E1.
  pose proof (N.div_mod (c / 256) 16 ltac:(lia)) as E2.
  rewrite N.Div0.div_div in E1. change (16 * 16) with 256 in E1.
  rewrite N.Div0.div_div in E2. change (256 * 16) with 4096 in E2.
  rewrite !hex_value_digit by assumption.
  f_equal.
  generalize dependent (c / 4096). generalize dependent (c / 256).
  generalize dependent (c / 16). generalize dependent (c mod 16).
  intros. lia.
Qed.

Lemma parse_chars_u_escape c t :
  c < 65536 ->
  parse_chars (u_escape c ++ t) = rmap (cons c) (parse_chars t).
Proof.
  intros H. unfold u_escape. cbn [app parse_chars].
  change (92 =? 34) with false. change (92 =? 92) with true.
  change (simple_escape 117) with (@None N).
  change (117 =? 117) with true. cbv iota.
  now rewrite (hex4_u_escape c H).
Qed.

Lemma parse_chars_plain c t :
  allowed c = true ->
  parse_chars (c :: t) = rmap (cons c) (parse_chars t).
Proof.
  unfold allowed. rewrite !andb_true_iff, negb_true_iff, !orb_false_iff.
  rewrite !N.leb_le, !N.eqb_neq. intros [[H32 H126] Hne].
  cbn [parse_chars].
  destruct (N.eqb_spec c 34) as [->|_]; [tauto|].
  destruct (N.eqb_spec c 92) as [->|_]; [tauto|].
  destruct (N.ltb_spec c 32); [lia|]. reflexivity.
Qed.

Lemma surrogate_bound c :
  is_high_surrogate c = true \/ is_low_surrogate c = true -> c < 65536.
Proof.
  unfold is_high_surrogate, is_low_surrogate.
  rewrite !andb_true_iff, !N.leb_le. lia.
Qed.

(** The characters between the quotes are read back as they were. *)
Lemma parse_chars_escape_bounded (n : nat) (s rest : text) :
  (length s <= n)%nat ->
  well_formed s = true ->
  parse_chars (escape s ++ 34 :: rest) = Ok s rest.
Proof.
  revert s. induction n as [|n IH]; intros s Hlen Hwf.
  - destruct s; [reflexivity|cbn in Hlen; lia].
  - destruct s as [|c s]; [reflexivity|].
    cbn [length] in Hlen. cbn [well_formed] in Hwf.
    apply andb_prop in Hwf as [Hc Hwf]. apply N.ltb_lt in Hc.
    cbn [escape].
    destruct (allowed c) eqn:Ha.
    { destruct (is_high_surrogate c) eqn:Hh.
      - exfalso. revert Ha Hh. unfold allowed, is_high_surrogate.
        rewrite !andb_true_iff, !N.leb_le. lia.
      - apply andb_prop in Hwf as [_ Hwf].
        cbn [app]. rewrite (parse_chars_plain _ _ Ha), IH by (assumption || lia).
        reflexivity. }
    assert (Hshort : forall e,
               simple_escape e = Some c ->
               (e =? 34) = false ->
               is_high_surrogate c = false ->
               parse_chars ((92 :: e :: escape s) ++ 34 :: rest) = Ok (c :: s) rest).
    { intros e He _ Hh. rewrite Hh in Hwf. apply andb_prop in Hwf as [_ Hwf].
      cbn [app parse_chars]. change (92 =? 34) with false.
      change (92 =? 92) with true. cbv iota. rewrite He.
      rewrite IH by (assumption || lia). reflexivity. }
    destruct (N.eqb_spec c 8) as [->|_]; [now apply Hshort|].
    destruct (N.eqb_spec c 9) as [->|_]; [now apply Hshort|].
    destruct (N.eqb_spec c 10) as [->|_]; [now apply Hshort|].
    destruct (N.eqb_spec c 12) as [->|_]; [now apply Hshort|].
    destruct (N.eqb_spec c 13) as [->|_]; [now apply Hshort|].
    destruct (N.eqb_spec c 92) as [->|_]; [now apply Hshort|].
    clear Hshort.
    destruct (is_high_surrogate c) eqn:Hh.
    + destruct s as [|d s]; [discriminate|].
      apply andb_prop in Hwf as [Hl Hwf]. rewrite Hl.
      cbn [length] in Hlen.
      rewrite <- !List.app_assoc.
      rewrite (parse_chars_u_escape c) by assumption.
      rewrite (parse_chars_u_escape d)
        by (apply surrogate_bound; now right).
      rewrite IH by (assumption || lia). reflexivity.
    + apply andb_prop in Hwf as [Hl Hwf]. apply negb_true_iff in Hl.
      rewrite Hl. rewrite <- List.app_assoc.
      rewrite (parse_chars_u_escape c) by assumption.
      rewrite IH by (assumption || lia). reflexivity.
Qed.

Lemma parse_chars_escape (s rest : text) :
  well_formed s = true ->
  parse_chars (escape s ++ 34 :: rest) = Ok s rest.
Proof. apply (parse_chars_escape_bounded (length s)). lia. Qed.

Lemma parse_string s rest :
  well_formed s = true ->
  parse_chars (escape s ++ [34] ++ rest) = Ok s rest.
Proof. apply parse_chars_escape. Qed.

(** *** White space and delimiters *)

Lemma skip_ws_app ws s :
  forallb is_ws ws = true -> skip_ws (ws ++ s) = skip_ws s.
Proof.
  induction ws as [|c ws IH]; [reflexivity|].
  cbn [forallb]. intros H. apply andb_prop in H as [Hc H].
  cbn [app skip_ws]. rewrite Hc. now apply IH.
Qed.

Lemma skip_ws_stop c s : is_ws c = false -> skip_ws (c :: s) = c :: s.
Proof. intros H. cbn [skip_ws]. now rewrite H. Qed.

Lemma indent_ws d : forallb is_ws (indent d) = true.
Proof.
  unfold indent. induction (2 * d)%nat as [|k IH]; [reflexivity|].
  cbn [repeat forallb]. now rewrite IH.
Qed.

Lemma delimited_ws_close ws c t :
  forallb is_ws ws = true -> c = 93 \/ c = 125 ->
  delimited (ws ++ c :: t) = true.
Proof.
  intros Hws Hc. destruct ws as [|w ws].
  - destruct Hc as [-> | ->]; reflexivity.
  - cbn [forallb] in Hws. apply andb_prop in Hws as [Hw _].
    cbn [app delimited]. now rewrite Hw.
Qed.

Section RoundTrip.

Variable nl : text.
Hypothesis nl_ws : forallb is_ws nl = true.

Lemma delimited_items d close items rest :
  close = 93 \/ close = 125 ->
  delimited (write_items nl d close items ++ rest) = true.
Proof.
  intros Hc. destruct items as [|y ys]; cbn [write_items].
  - rewrite <- !List.app_assoc, List.app_assoc. cbn [app].
    apply delimited_ws_close; [|exact Hc].
    now rewrite forallb_app, nl_ws, indent_ws.
  - reflexivity.
Qed.

Lemma skip_line d s :
  skip_ws (nl ++ indent d ++ s) = skip_ws s.
Proof.
  rewrite List.app_assoc. apply skip_ws_app.
  now rewrite forallb_app, nl_ws, indent_ws.
Qed.

(** A written value starts with a character that is neither white
    space nor a closing bracket. *)
Lemma write_starts d n :
  exists c t,
    write nl d n = c :: t /\ is_ws c = false /\ (c =? 93) = false
    /\ (c =? 125) = false.
Proof.
  destruct n as [|z|s|items|props]; cbn [write].
  - exists 110, (lit "ull"). repeat split.
  - unfold of_Z. destruct z as [|p|p].
    + exists 48, []. repeat split.
    + change (Z.to_N (Z.pos p)) with (N.pos p).
      destruct (digits_spec (Npos p)) as (c & t & -> & Hd & _).
      cbn [forallb] in Hd. apply andb_prop in Hd as [Hd _].
      apply is_digit_spec in Hd. exists c, t.
      unfold is_ws. rewrite !orb_false_iff, !N.eqb_neq.
      repeat split; lia.
    + exists 45, (digits (Npos p)). repeat split.
  - exists 34, (escape s ++ [34]). repeat split.
  - destruct items as [|x xs]; cbn [List.map write_seq app];
      eexists _, _; repeat split.
  - destruct props as [|x xs]; cbn [List.map write_seq app];
      eexists _, _; repeat split.
Qed.

Lemma skip_ws_write d n s :
  skip_ws (write nl d n ++ s) = write nl d n ++ s.
Proof.
  destruct (write_starts d n) as (c & t & -> & Hc & _).
  cbn [app]. now apply skip_ws_stop.
Qed.

Lemma expect_close_write close d n s :
  close = 93 \/ close = 125 ->
  expect close (write nl d n ++ s) = None.
Proof.
  destruct (write_starts d n) as (c & t & -> & _ & H1 & H2).
  cbn [app expect]. intros [-> | ->]; [now rewrite H1|now rewrite H2].
Qed.

Lemma parse_elements_items d x xs g rest :
  Forall (reads_back nl) (x :: xs) ->
  (list_sum (List.map (fun y => S (node_size y)) (x :: xs)) <= g)%nat ->
  parse_elements g
    (nl ++ indent (S d) ++ write nl (S d) x
     ++ write_items nl d 93 (List.map (write nl (S d)) xs) ++ rest)
  = Ok (List.map to_value (x :: xs)) rest.
Proof.
  revert x g. induction xs as [|y ys IH]; intros x g HF Hg;
    inversion HF as [|? ? Hx HF']; subst;
    simpl in Hg;
    (destruct g as [|g]; [lia|]); cbn [parse_elements];
    rewrite skip_line, skip_ws_write.
  - rewrite (Hx (S d) g) by (lia || now apply delimited_items; left).
    cbn [List.map write_items]. rewrite <- !List.app_assoc.
    rewrite skip_line. cbn [app skip_ws is_ws N.eqb Pos.eqb orb expect].
    reflexivity.
  - rewrite (Hx (S d) g) by (lia || now apply delimited_items; left).
    cbn [List.map write_items]. rewrite <- !List.app_assoc.
    cbn [app skip_ws is_ws N.eqb Pos.eqb orb expect].
    rewrite (IH y g HF') by (simpl; lia).
    reflexivity.
Qed.

Lemma set_prop_fresh k v acc :
  k ∉ List.map fst acc -> set_prop k v acc = acc ++ [(k, v)].
Proof.
  induction acc as [|[k' v'] acc IH]; [reflexivity|].
  cbn [List.map fst]. intros H. apply not_elem_of_cons in H as [Hne H].
  cbn [set_prop app]. unfold text_eqb.
  rewrite bool_decide_eq_false_2 by exact Hne. now rewrite IH.
Qed.

Lemma parse_members_items d k v kvs acc g rest :
  Forall (fun kv => well_formed (fst kv) = true /\ reads_back nl (snd kv))
    ((k, v) :: kvs) ->
  NoDup (List.map fst acc ++ List.map fst ((k, v) :: kvs)) ->
  (list_sum (List.map (fun kv => match kv with (_, v) => S (node_size v) end)
               ((k, v) :: kvs)) <= g)%nat ->
  parse_members g acc
    (nl ++ indent (S d)
     ++ (write_string k ++ [58; 32] ++ write nl (S d) v)
     ++ write_items nl d 125
          (List.map (fun kv =>
                       match kv with
                       | (k, v) =>
                           write_string k ++ [58; 32] ++ write nl (S d) v
                       end) kvs)
     ++ rest)
  = Ok (acc
        ++ List.map (fun kv => match kv with (k, v) => (k, to_value v) end)
             ((k, v) :: kvs)) rest.
Proof.
  revert k v acc g. induction kvs as [|[k' v'] kvs IH];
    intros k v acc g HF Hnd Hg;
    inversion HF as [|? ? [Hk Hv] HF']; subst; cbn [fst snd] in Hk, Hv;
    simpl in Hg;
    (destruct g as [|g]; [lia|]); cbn [parse_members];
    rewrite skip_line; unfold write_string;
    rewrite <- !List.app_assoc;
    cbn [app skip_ws is_ws N.eqb Pos.eqb orb expect];
    rewrite (parse_chars_escape _ _ Hk);
    cbn [app skip_ws is_ws N.eqb Pos.eqb orb expect];
    rewrite skip_ws_write;
    rewrite (Hv (S d) g) by (lia || now apply delimited_items; right);
    (rewrite set_prop_fresh;
     [|cbn [List.map fst] in Hnd; apply NoDup_app in Hnd as (_ & Hd & _);
       intros Hin; apply (Hd k Hin); left]).
  - cbn [List.map write_items]. rewrite <- !List.app_assoc.
    rewrite skip_line. cbn [app skip_ws is_ws N.eqb Pos.eqb orb expect].
    reflexivity.
  - cbn [List.map write_items]. rewrite <- !List.app_assoc.
    cbn [app skip_ws is_ws N.eqb Pos.eqb orb expect].
    assert (Hnd' : NoDup (List.map fst (acc ++ [(k, to_value v)])
                          ++ List.map fst ((k', v') :: kvs)))
      by (rewrite List.map_app, <- List.app_assoc; exact Hnd).
    specialize (IH k' v' (acc ++ [(k, to_value v)]) g HF' Hnd'
                  ltac:(simpl; lia)).
    unfold write_string in IH. rewrite <- !List.app_assoc in IH.
    cbn [app] in IH. rewrite <- !List.app_assoc. cbn [app].
    rewrite IH. reflexivity.
Qed.

Lemma size_item (x : node) items :
  In x items ->
  (S (node_size x)
   <= list_sum (List.map (fun y => S (node_size y)) items))%nat.
Proof.
  induction items as [|y ys IH]; [intros []|].
  intros [->|H]; simpl; [lia|]. specialize (IH H). lia.
Qed.

Lemma size_prop (kv : text * node) props :
  In kv props ->
  (S (node_size (snd kv))
   <= list_sum (List.map (fun kv => match kv with
                                    | (_, v) => S (node_size v)
                                    end) props))%nat.
Proof.
  induction props as [|[k v] ps IH]; [intros []|].
  intros [<-|H]; simpl; [lia|]. specialize (IH H). lia.
Qed.

Lemma parse_value_number fuel z rest :
  delimited rest = true ->
  parse_value (S fuel) (of_Z z ++ rest) = Ok (JNumber z 0) rest.
Proof.
  intros Hr. rewrite <- (parse_number_of_Z z rest Hr).
  assert (H : exists c t, of_Z z = c :: t /\ (48 <= c <= 57 \/ c = 45)).
  { unfold of_Z. destruct z as [|p|p].
    - exists 48, []. split; [reflexivity|lia].
    - change (Z.to_N (Z.pos p)) with (N.pos p).
      destruct (digits_spec (Npos p)) as (c & t & -> & Hd & _).
      cbn [forallb] in Hd. apply andb_prop in Hd as [Hd _].
      apply is_digit_spec in Hd. exists c, t. split; [reflexivity|now left].
    - exists 45, (digits (Npos p)). split; [reflexivity|now right]. }
  destruct H as (c & t & -> & Hc). cbn [app parse_value].
  destruct (N.eqb_spec c 34); [lia|]. destruct (N.eqb_spec c 91); [lia|].
  destruct (N.eqb_spec c 123); [lia|]. destruct (N.eqb_spec c 116); [lia|].
  destruct (N.eqb_spec c 102); [lia|]. destruct (N.eqb_spec c 110); [lia|].
  reflexivity.
Qed.

(** Every well-formed document is read back. *)
Lemma write_reads_back_bounded (m : nat) (n : node) :
  (node_size n <= m)%nat -> wf_node n = true -> reads_back nl n.
Proof.
  revert n. induction m as [|m IH]; intros n Hm Hwf.
  { destruct n; simpl in Hm; lia. }
  intros d fuel rest Hfuel Hrest.
  destruct fuel as [|fuel]; [destruct n; simpl in Hfuel; lia|].
  destruct n as [|z|s|items|props]; cbn [write to_value].
  - vm_compute. reflexivity.
  - now apply parse_value_number.
  - cbn [wf_node] in Hwf. unfold write_string.
    rewrite <- !List.app_assoc. cbn [app parse_value].
    change (34 =? 34) with true. cbv iota.
    now rewrite (parse_chars_escape _ _ Hwf).
  - cbn [wf_node] in Hwf. simpl in Hm, Hfuel.
    destruct items as [|x xs]; [reflexivity|].
    cbn [List.map write_seq]. rewrite <- !List.app_assoc.
    cbn [app parse_value]. change (91 =? 34) with false.
    change (91 =? 91) with true. cbv iota.
    rewrite skip_line, skip_ws_write, expect_close_write by now left.
    rewrite (parse_elements_items d x xs fuel rest);
      [reflexivity| |simpl in *; lia].
    apply List.Forall_forall. intros y Hy. apply IH.
    + pose proof (size_item y (x :: xs) Hy) as Hs. lia.
    + rewrite List.forallb_forall in Hwf. now apply Hwf.
  - cbn [wf_node] in Hwf. apply andb_prop in Hwf as [Hwf Hnd].
    apply bool_decide_eq_true in Hnd. simpl in Hm, Hfuel.
    destruct props as [|[k v] kvs]; [reflexivity|].
    cbn [List.map write_seq]. rewrite <- !List.app_assoc.
    cbn [app parse_value]. change (123 =? 34) with false.
    change (123 =? 91) with false. change (123 =? 123) with true. cbv iota.
    unfold write_string at 1. rewrite <- !List.app_assoc. cbn [app].
    rewrite skip_line. cbn [skip_ws is_ws N.eqb Pos.eqb orb expect].
    pose proof (parse_members_items d k v kvs [] fuel rest) as Hp.
    rewrite <- !List.app_assoc in Hp.
    cbn [app] in Hp. rewrite Hp; [reflexivity| |exact Hnd|simpl in *; lia].
    apply List.Forall_forall. intros [k' v'] Hy.
    rewrite List.forallb_forall in Hwf. specialize (Hwf _ Hy).
    apply andb_prop in Hwf as [Hk Hv]. split; [exact Hk|].
    apply IH; [|exact Hv].
    pose proof (size_prop (k', v') ((k, v) :: kvs) Hy) as Hs.
    cbn [snd] in *. lia.
Qed.

Lemma write_reads_back (n : node) : wf_node n = true -> reads_back nl n.
Proof. apply (write_reads_back_bounded (node_size n)). lia. Qed.

(** The fuel of [JSON_parse] is enough: a written document is at least
    as long as it has values. *)
Lemma length_items_nodes d e close (ys : list node) :
  (forall y, In y ys -> (node_size y <= length (write nl e y))%nat) ->
  (list_sum (List.map (fun y => S (node_size y)) ys) + 1
   <= length (write_items nl d close (List.map (write nl e) ys)))%nat.
Proof.
  induction ys as [|y ys IH]; intros H; cbn [List.map write_items].
  - rewrite !List.length_app. simpl. lia.
  - specialize (IH (fun z Hz => H z (or_intror Hz))).
    specialize (H y (or_introl eq_refl)).
    rewrite !List.length_app. simpl. lia.
Qed.

Lemma length_items_props d e close (kvs : list (text * node)) :
  (forall kv, In kv kvs ->
     (node_size (snd kv) <= length (write nl e (snd kv)))%nat) ->
  (list_sum (List.map (fun kv => match kv with
                                 | (_, v) => S (node_size v)
                                 end) kvs) + 1
   <= length
        (write_items nl d close
           (List.map (fun kv =>
                        match kv with
                        | (k, v) =>
                            write_string k ++ [58%N; 32%N] ++ write nl e v
                        end) kvs)))%nat.
Proof.
  induction kvs as [|[k v] kvs IH]; intros H; cbn [List.map write_items].
  - rewrite !List.length_app. simpl. lia.
  - specialize (IH (fun z Hz => H z (or_intror Hz))).
    specialize (H (k, v) (or_introl eq_refl)). cbn [snd] in H.
    rewrite !List.length_app. simpl in *. lia.
Qed.

Lemma size_le_length_bounded (m : nat) (n : node) (d : nat) :
  (node_size n <= m)%nat -> (node_size n <= length (write nl d n))%nat.
Proof.
  revert n d. induction m as [|m IH]; intros n d Hm.
  { destruct n; simpl in Hm; lia. }
  destruct n as [|z|s|items|props]; cbn [write].
  - simpl. lia.
  - destruct (write_starts d (WNumber z)) as (c & t & E & _).
    cbn [write] in E. rewrite E. simpl. lia.
  - simpl. lia.
  - destruct items as [|x xs]; [simpl; lia|].
    cbn [List.map write_seq]. rewrite !List.length_app.
    pose proof (length_items_nodes d (S d) 93 xs) as Hl.
    pose proof (IH x (S d)) as Hx.
    simpl in Hm |- *.
    assert (Hxs : forall y, In y xs ->
                    (node_size y <= length (write nl (S d) y))%nat).
    { intros y Hy. apply IH.
      pose proof (size_item y xs Hy). lia. }
    specialize (Hl Hxs). lia.
  - destruct props as [|[k v] kvs]; [simpl; lia|].
    cbn [List.map write_seq]. rewrite !List.length_app.
    pose proof (length_items_props d (S d) 125 kvs) as Hl.
    pose proof (IH v (S d)) as Hx.
    simpl in Hm, Hl |- *.
    assert (Hxs : forall kv, In kv kvs ->
                    (node_size (snd kv)
                     <= length (write nl (S d) (snd kv)))%nat).
    { intros kv Hy. apply IH.
      pose proof (size_prop kv kvs Hy). lia. }
    specialize (Hl Hxs). lia.
Qed.

(** [JSON.parse] reads a written document, with the line end that
    [Console.WriteLine] puts behind it. *)
Lemma JSON_parse_write (n : node) :
  wf_node n = true ->
  JSON_parse (write nl 0%nat n ++ nl) = inl (to_value n).
Proof.
  intros Hwf. unfold JSON_parse. rewrite skip_ws_write.
  rewrite (write_reads_back n Hwf 0%nat).
  - replace (skip_ws nl) with (@nil N); [reflexivity|].
    rewrite <- (List.app_nil_r nl) at 1.
    now rewrite (skip_ws_app nl [] nl_ws).
  - pose proof (size_le_length_bounded (node_size n) n 0%nat (le_n _)).
    rewrite List.length_app. lia.
  - destruct nl as [|c t]; [reflexivity|].
    cbn [forallb] in nl_ws. apply andb_prop in nl_ws as [Hc _].
    cbn [delimited]. now rewrite Hc.
Qed.

End RoundTrip.

Lemma forallb_map {A B} (f : A -> B) (p : B -> bool) (l : list A) :
  forallb p (List.map f l) = forallb (fun x => p (f x)) l.
Proof. induction l as [|x l IH]; [reflexivity|]. cbn. now rewrite IH. Qed.

Lemma DiagnosticResult_node_wf (d : DiagnosticResult) :
  well_formed_diagnostic d = true ->
  wf_node (DiagnosticResult_node d) = true.
Proof.
  unfold well_formed_diagnostic. intros H.
  apply andb_prop in H as [H Hl]. apply andb_prop in H as [H Hc].
  apply andb_prop in H as [H Hm]. apply andb_prop in H as [Hi Hs].
  unfold DiagnosticResult_node. cbn [wf_node forallb].
  rewrite Hi, Hs, Hm, Hc.
  destruct (Location d) as [l|]; [|vm_compute; reflexivity].
  unfold LocationInfo_node, well_formed_location in *.
  destruct (File l) as [path|]; cbn [wf_node forallb];
    rewrite ?Hl; vm_compute; reflexivity.
Qed.

Lemma AnalysisResult_node_wf (r : AnalysisResult) :
  well_formed_result r = true -> wf_node (AnalysisResult_node r) = true.
Proof.
  unfold well_formed_result. intros H. apply andb_prop in H as [Hd Hs].
  unfold AnalysisResult_node, CodeMetrics_node. cbn [wf_node forallb].
  rewrite !forallb_map.
  change (forallb (fun x => wf_node (WString x)) (Suggestions r))
    with (forallb well_formed (Suggestions r)).
  rewrite Hs.
  assert (Hd' : forallb (fun x => wf_node (DiagnosticResult_node x))
                  (Diagnostics r) = true).
  { rewrite List.forallb_forall in Hd |- *. intros d Hin.
    now apply DiagnosticResult_node_wf, Hd. }
  rewrite Hd'. vm_compute. reflexivity.
Qed.

(** C3, for well-formed strings: the output of the analyzer for a
    result, the serialization and the line end behind it, is parsed by
    the orchestrator to the value of the same structure. *)
Theorem C3_round_trip (NewLine : text) (r : AnalysisResult) :
  forallb is_ws NewLine = true ->
  well_formed_result r = true ->
  JSON_parse (Serialize NewLine r ++ NewLine)
  = inl (to_value (AnalysisResult_node r)).
Proof.
  intros Hnl Hr. unfold Serialize.
  apply (JSON_parse_write NewLine Hnl), AnalysisResult_node_wf, Hr.
Qed.

Lemma C3_round_trip_witness :
  JSON_parse (Serialize [13; 10] sample_result ++ [13; 10])
  = inl (to_value (AnalysisResult_node sample_result)).
Proof. apply (C3_round_trip [13; 10] sample_result); reflexivity. Defined.

(** C3, as stated, fails: the serializer writes a surrogate without its
    partner as the replacement character, so the parsed value differs
    from the result. *)
Lemma C3_counterexample :
  JSON_parse (Serialize [10] lone_surrogate_result ++ [10])
  <> inl (to_value (AnalysisResult_node lone_surrogate_result)).
Proof. vm_compute. discriminate. Qed.

(** The two programs together: when the process runs [Main] on some
    argument, its standard output arrives in chunks and it exits with
    the code of [Main], [analyzeCode] resolves with the value of the
    result that [AnalyzeCode] built. *)
Lemma analyzeCode_returns_result
    (ParseText : text -> text -> SyntaxNode)
    (GetDiagnostics : SyntaxNode -> list Diagnostic)
    (NewLine : text) (ReadAllText : text -> option text)
    (arg : text) (args : list text)
    (env : Env) (fs : FS) (code : text) (fileName : option text)
    (evs rest : list ChildEvent) :
  let process := Main ParseText GetDiagnostics NewLine ReadAllText
                   (arg :: args) in
  let result :=
    match ReadAllText arg with
    | Some content => AnalyzeCode ParseText GetDiagnostics content arg
    | None => AnalyzeCode ParseText GetDiagnostics arg (lit "snippet.cs")
    end in
  forallb is_ws NewLine = true ->
  well_formed_result result = true ->
  isRoslynAvailable env fs = true ->
  child_events env fs code fileName
  = evs ++ close (Some (ExitCode process)) :: rest ->
  forallb is_data evs = true ->
  stdout_of evs = StandardOutput process ->
  outcome (analyzeCode env fs code fileName)
  = Some (Resolved (to_value (AnalysisResult_node result))).
Proof.
  intros process result Hnl Hwf Ha Hev Hd Hout.
  assert (Hp : ExitCode process = 0%Z
               /\ StandardOutput process = Serialize NewLine result ++ NewLine).
  { subst process result. unfold Main.
    destruct (ReadAllText arg); split; reflexivity. }
  destruct Hp as [Hcode Hstd]. rewrite Hcode in Hev.
  rewrite (analyzeCode_exit_zero _ _ _ _ _ _ Ha Hev Hd), Hout, Hstd.
  unfold Serialize.
  rewrite (JSON_parse_write NewLine Hnl _ (AnalysisResult_node_wf _ Hwf)).
  reflexivity.
Qed.

(* ================================================================== *)
(** * Further properties of the code                                   *)
(* ================================================================== *)

Import Rules.

(** ** Loops that report the first match, loops that report every match *)

Lemma ForEach_first {A} (p : A -> bool) (m : A -> text) (l : list A) :
  ForEach l (fun x => if p x then ([m x], Break) else ([], Continue))
  = match List.find p l with Some x => [m x] | None => [] end.
Proof.
  induction l as [|x l IH]; [reflexivity|].
  cbn [ForEach List.find]. destruct (p x); [reflexivity|exact IH].
Qed.

Lemma ForEach_each {A} (p : A -> bool) (m : A -> text) (l : list A) :
  ForEach l (fun x => (if p x then [m x] else [], Continue))
  = List.map m (List.filter p l).
Proof.
  induction l as [|x l IH]; [reflexivity|].
  cbn [ForEach List.filter]. rewrite IH. destruct (p x); reflexivity.
Qed.

Lemma ForEach_ext {A} (f g : A -> list text * Flow) (l : list A) :
  (forall x, f x = g x) -> ForEach l f = ForEach l g.
Proof.
  intros H. induction l as [|x l IH]; [reflexivity|].
  cbn [ForEach]. now rewrite H, IH.
Qed.

Lemma Split_length (sep : N) (s : text) :
  length (Split sep s) = S (length (List.filter (fun c => c =? sep) s)).
Proof.
  induction s as [|c s IH]; [reflexivity|].
  cbn [Split List.filter]. destruct (c =? sep).
  - cbn [length]. now rewrite IH.
  - destruct (Split sep s); cbn [length] in *; [discriminate IH|exact IH].
Qed.

Lemma find_filter {A} (p q : A -> bool) (l : list A) :
  List.find p (List.filter q l) = List.find (fun x => q x && p x) l.
Proof.
  induction l as [|x l IH]; [reflexivity|].
  cbn [List.filter List.find]. destruct (q x); cbn [List.find andb].
  - now rewrite IH.
  - exact IH.
Qed.

Lemma filter_filter {A} (p q : A -> bool) (l : list A) :
  List.filter p (List.filter q l) = List.filter (fun x => q x && p x) l.
Proof.
  induction l as [|x l IH]; [reflexivity|].
  cbn [List.filter]. destruct (q x); cbn [List.filter andb].
  - now rewrite IH.
  - exact IH.
Qed.

(** X1: the basic rules report every offender, rule by rule: the methods
    with at least 50 line feeds, the public methods without a
    documentation comment, the async methods whose name does not end
    in [Async], the classes with more than 20 members, the methods of
    complexity above 10. *)
Theorem basic_suggestions_by_rule (root : SyntaxNode)
    (diagnostics : list Diagnostic) :
  let methods := OfKind MethodDeclaration (DescendantNodes root) in
  let classes := OfKind ClassDeclaration (DescendantNodes root) in
  GenerateSuggestions root diagnostics
  = List.map long_method_message (List.filter long_method methods)
    ++ List.map undocumented_message (List.filter undocumented methods)
    ++ List.map misnamed_async_message (List.filter misnamed_async methods)
    ++ List.map large_class_message (List.filter large_class classes)
    ++ List.map complex_method_message (List.filter complex_method methods).
Proof.
  intros methods classes. unfold GenerateSuggestions.
  fold methods classes.
  repeat f_equal.
  - rewrite <- ForEach_each. apply ForEach_ext. intros m.
    unfold long_method, long_method_message, Count, line_breaks.
    rewrite Split_length.
    destruct (Z.ltb_spec 50 (Z.of_nat (S (length (List.filter (fun c => c =? 10) (ToString m))))));
      destruct (Nat.leb_spec 50 (length (List.filter (fun c => c =? 10) (ToString m))));
      try lia; reflexivity.
  - unfold undocumented. rewrite <- filter_filter, <- ForEach_each.
    reflexivity.
  - unfold misnamed_async. rewrite <- filter_filter, <- ForEach_each.
    reflexivity.
  - rewrite <- ForEach_each. apply ForEach_ext. intros c.
    unfold large_class, large_class_message, Count.
    destruct (Z.ltb_spec 20 (Z.of_nat (length (Members c))));
      destruct (Nat.leb_spec 21 (length (Members c)));
      try lia; reflexivity.
  - rewrite <- ForEach_each. apply ForEach_ext. intros m.
    unfold complex_method, complex_method_message.
    destruct (Z.ltb_spec 10 (CalculateCyclomaticComplexity m));
      destruct (Z.leb_spec 11 (CalculateCyclomaticComplexity m));
      try lia; reflexivity.
Qed.
(** ** The security rules *)

Lemma existsb_find {A} (p : A -> bool) (l : list A) :
  existsb p l = match List.find p l with Some _ => true | None => false end.
Proof.
  induction l as [|x l IH]; [reflexivity|].
  cbn [existsb List.find]. destruct (p x); [reflexivity|exact IH].
Qed.

Lemma find_ext {A} (p q : A -> bool) (l : list A) :
  (forall x, p x = q x) -> List.find p l = List.find q l.
Proof.
  intros H. induction l as [|x l IH]; [reflexivity|].
  cbn [List.find]. now rewrite H, IH.
Qed.

(** Takes the five loops of [GenerateSecuritySuggestions] apart and
    leaves the one that the filter [P] keeps. *)
Ltac only_loop n :=
  unfold GenerateSecuritySuggestions;
  rewrite !List.filter_app;
  match goal with
  | |- ?a ++ ?b ++ ?c ++ ?d ++ ?e = _ =>
      let others l :=
        assert (l = []) as ->
          by (apply ForEach_none; intros x; split_ifs; reflexivity) in
      match n with
      | 1%nat => others b; others c; others d; others e
      | 3%nat => others a; others b; others d; others e
      | 4%nat => others a; others b; others c; others e
      | 5%nat => others a; others b; others c; others d
      end
  end;
  rewrite ?List.app_nil_r; cbn [app].

Lemma filter_all {A} (P : A -> bool) (l : list A) :
  (forall x, In x l -> P x = true) -> List.filter P l = l.
Proof.
  intros H. induction l as [|x l IH]; [reflexivity|].
  cbn [List.filter]. rewrite H by now left.
  f_equal. apply IH. intros y Hy. apply H. now right.
Qed.

(** X2: the SQL rule reports once when some concatenation with [+] names
    [select], [insert], [update] or [delete] in any case, however many
    such concatenations the unit has, and not at all otherwise. *)
Theorem sql_injection_reported_once (root : SyntaxNode) :
  List.filter about_sql (GenerateSecuritySuggestions root)
  = if existsb sql_concatenation (DescendantNodes root)
    then [sql_message] else [].
Proof.
  only_loop 1%nat.
  rewrite (ForEach_ext _
             (fun concat =>
                if mentions_sql (ToLower (ToString concat))
                then ([sql_message], Break) else ([], Continue)))
    by reflexivity.
  rewrite (ForEach_first (fun concat => mentions_sql (ToLower (ToString concat)))
             (fun _ => sql_message)).
  unfold OfKind. rewrite !find_filter, existsb_find.
  rewrite (find_ext _ sql_concatenation)
    by (intros n; unfold sql_concatenation; now rewrite andb_assoc).
  destruct (List.find _ (DescendantNodes root)); reflexivity.
Qed.

(** X3: the file-operation rule reports the first call of [File.Delete],
    [File.Move], [Directory.Delete] or [File.WriteAllText] in document
    order, by the text of its callee, and no later one. *)
Theorem file_operation_first_only (root : SyntaxNode) :
  List.filter about_file_operation (GenerateSecuritySuggestions root)
  = match List.find file_operation
            (OfKind InvocationExpression (DescendantNodes root)) with
    | Some invocation => [file_operation_message invocation]
    | None => []
    end.
Proof.
  only_loop 4%nat.
  rewrite (ForEach_ext _
             (fun invocation =>
                if file_operation invocation
                then ([file_operation_message invocation], Break)
                else ([], Continue)))
    by reflexivity.
  rewrite ForEach_first.
  destruct (List.find _ _); reflexivity.
Qed.

Lemma map_const_repeat {A B} (b : B) (l : list A) :
  List.map (fun _ => b) l = repeat b (length l).
Proof. induction l as [|x l IH]; [reflexivity|]. cbn. now rewrite IH. Qed.

Lemma filter_repeat {A} (P : A -> bool) (a : A) (n : nat) :
  P a = true -> List.filter P (repeat a n) = repeat a n.
Proof.
  intros H. induction n as [|n IH]; [reflexivity|].
  cbn [repeat List.filter]. now rewrite H, IH.
Qed.

(** X4: the weak-random rule reports every [new Random...] of the unit:
    as many suggestions as there are such object creations. *)
Theorem weak_random_reported_each_time (root : SyntaxNode) :
  List.filter about_random (GenerateSecuritySuggestions root)
  = repeat random_message
      (length (List.filter creates_random
                 (OfKind ObjectCreationExpression (DescendantNodes root)))).
Proof.
  only_loop 5%nat.
  rewrite (ForEach_ext _
             (fun creation =>
                (if creates_random creation then [random_message] else [],
                 Continue)))
    by (intros c; unfold creates_random; now destruct (text_eqb _ _)).
  rewrite (ForEach_each creates_random (fun _ => random_message)).
  rewrite map_const_repeat. now apply filter_repeat.
Qed.

(** X5: the swallowed-exception rule reports every catch clause for
    [Exception] whose block has no throw statement and does not mention
    [log] in any case: one suggestion for each such clause. *)
Theorem swallowed_exception_reported_each_time (root : SyntaxNode) :
  List.filter about_catch (GenerateSecuritySuggestions root)
  = repeat swallow_message
      (length (List.filter swallows_exception
                 (OfKind CatchClause (DescendantNodes root)))).
Proof.
  only_loop 3%nat.
  rewrite (ForEach_ext _
             (fun catchClause =>
                (if swallows_exception catchClause
                 then [swallow_message] else [], Continue))).
  - rewrite (ForEach_each swallows_exception (fun _ => swallow_message)).
    rewrite map_const_repeat. now apply filter_repeat.
  - intros c. unfold swallows_exception.
    destruct (match Declaration c with Some _ => _ | None => _ end);
      [|reflexivity].
    cbn [andb]. rewrite negb_involutive.
    destruct (bool_decide _ && negb _); reflexivity.
Qed.
(** ** The performance and the LINQ rules *)

Lemma ToListBeforeCount_none (P : text -> bool) (l : list SyntaxNode) :
  P (lit "PERFORMANCE: Avoid calling ToList() before Count/Any. Use Count()/Any() directly on IEnumerable.")
  = false ->
  List.filter P (ToListBeforeCount l) = [].
Proof.
  intros H. induction l as [|current rest IH]; [reflexivity|].
  cbn [ToListBeforeCount]. rewrite List.filter_app, IH, List.app_nil_r.
  destruct rest; [reflexivity|].
  destruct (Contains (ToString current) _); [|reflexivity].
  apply ForEach_none. intros x. split_ifs; [|reflexivity].
  cbn [fst List.filter]. now rewrite H.
Qed.

(** X6: the deferred-query rule reports every declarator whose initializer
    is an invocation with [.Where(] or [.Select(] in its text, whatever
    else the text holds, or with [.OrderBy(] and neither [.ToList()]
    nor [.ToArray()]: one suggestion for each, by the name of the
    variable. *)
Theorem deferred_query_reported_each_time (root : SyntaxNode) :
  List.filter about_deferred_query (GeneratePerformanceSuggestions root)
  = List.map deferred_query_message
      (List.filter deferred_query
         (OfKind VariableDeclarator (DescendantNodes root))).
Proof.
  unfold GeneratePerformanceSuggestions.
  rewrite !List.filter_app.
  match goal with
  | |- ?a ++ ?b ++ ?c ++ ?d ++ ?e ++ ?f = _ =>
      assert (a = []) as ->
        by (apply ForEach_none; intros x; split_ifs; reflexivity);
      assert (b = []) as -> by (now apply ToListBeforeCount_none);
      assert (d = []) as -> by (split_ifs; reflexivity);
      assert (e = []) as ->
        by (apply ForEach_none; intros x; split_ifs; reflexivity);
      assert (f = []) as ->
        by (apply ForEach_none; intros x; split_ifs; reflexivity)
  end.
  rewrite ?List.app_nil_r. cbn [app].
  rewrite (ForEach_ext _
             (fun variable =>
                (if deferred_query variable
                 then [deferred_query_message variable] else [], Continue))).
  - rewrite ForEach_each. apply filter_all.
    intros s Hs. apply List.in_map_iff in Hs as [v [<- _]]. reflexivity.
  - intros v. unfold deferred_query.
    destruct (InitializerInvocation v) as [invocation|]; [|reflexivity].
    cbv zeta.
    destruct (Contains (ToString invocation) (lit ".Where("));
      destruct (Contains (ToString invocation) (lit ".Select("));
      destruct (Contains (ToString invocation) (lit ".OrderBy("));
      destruct (Contains (ToString invocation) (lit ".ToList()"));
      destruct (Contains (ToString invocation) (lit ".ToArray()"));
      reflexivity.
Qed.

Lemma ForEach_at_most_one {A} (m : text) (l : list A)
    (body : A -> list text * Flow) :
  (forall x, body x = ([m], Break) \/ body x = ([], Continue)) ->
  sublist (ForEach l body) [m].
Proof.
  intros H. induction l as [|x l IH]; [apply sublist_nil_l|].
  cbn [ForEach]. destruct (H x) as [-> | ->]; [reflexivity|exact IH].
Qed.

(** X7: the LINQ rules report each of their eight suggestions at most
    once and in the order of the checks: the suggestions are a
    subsequence of the eight messages, without repetition. *)
Theorem linq_suggestions_bounded (root : SyntaxNode) :
  sublist (GenerateLinqSuggestions root) linq_messages
  /\ NoDup (GenerateLinqSuggestions root)
  /\ (length (GenerateLinqSuggestions root) <= 8)%nat.
Proof.
  assert (H : sublist (GenerateLinqSuggestions root) linq_messages).
  { unfold GenerateLinqSuggestions, linq_messages.
    repeat match goal with
      | |- sublist (_ ++ _) (?m :: ?ms) =>
          change (m :: ms) with ([m] ++ ms); apply sublist_app
      end;
      apply ForEach_at_most_one; intros x; split_ifs; auto. }
  refine (conj H (conj _ _)).
  - eapply sublist_NoDup; [|exact H].
    apply (bool_decide_unpack (NoDup linq_messages)). vm_compute. exact I.
  - apply sublist_length in H. exact H.
Qed.
(** ** Metrics *)

Lemma SyntaxNode_children_ind (P : SyntaxNode -> Prop) :
  (forall k i cs, Forall P cs -> P (Node k i cs)) -> forall n, P n.
Proof.
  intros H. fix IH 1. intros [k i cs]. apply H.
  induction cs as [|c cs IHcs]; constructor; [apply IH|exact IHcs].
Qed.

Lemma sublist_flat_map {A B} (f : A -> list B) (x : A) (l : list A) :
  In x l -> sublist (f x) (flat_map f l).
Proof.
  induction l as [|y l IH]; intros Hx; [destruct Hx|].
  cbn [flat_map]. destruct Hx as [-> | Hx].
  - apply sublist_inserts_r. reflexivity.
  - apply sublist_inserts_l. now apply IH.
Qed.

(** The descendants of a descendant are descendants, in the same
    order. *)
Lemma descendants_sublist (root n : SyntaxNode) :
  In n (DescendantNodes root) ->
  sublist (DescendantNodes n) (DescendantNodes root).
Proof.
  revert n. induction root as [k i cs IH] using SyntaxNode_children_ind.
  intros n Hn. cbn [DescendantNodes] in *.
  apply List.in_flat_map in Hn as [c [Hc Hn]].
  etransitivity;
    [|apply (sublist_flat_map (fun c => c :: DescendantNodes c) c cs Hc)].
  destruct Hn as [-> | Hn].
  - apply sublist_cons_r. left. reflexivity.
  - apply sublist_cons_r. left.
    rewrite List.Forall_forall in IH. now apply IH.
Qed.

Lemma sublist_filter_length {A} (p : A -> bool) (l1 l2 : list A) :
  sublist l1 l2 ->
  (length (List.filter p l1) <= length (List.filter p l2))%nat.
Proof.
  induction 1 as [|x l1 l2 _ IH|x l1 l2 _ IH]; cbn [List.filter].
  - lia.
  - destruct (p x); cbn [length]; lia.
  - destruct (p x); cbn [length]; lia.
Qed.

Lemma complexity_formula (root : SyntaxNode) :
  CalculateCyclomaticComplexity root
  = (1 + Count (List.filter counted_node (DescendantNodes root))
     + Count (List.filter short_circuit (DescendantNodes root)))%Z.
Proof.
  unfold CalculateCyclomaticComplexity.
  pose proof (complexity_counts (DescendantNodes root)). lia.
Qed.

Lemma decisions_and_operators (l : list SyntaxNode) :
  (length (List.filter counted_node l)
   + length (List.filter short_circuit l) <= length l)%nat.
Proof.
  induction l as [|[k i cs] l IH]; [reflexivity|].
  cbn [List.filter length].
  destruct k; vm_compute counted_node; vm_compute short_circuit;
    cbn [length]; lia.
Qed.

(** X8: the complexity of a node is at least 1 and at most 1 plus the
    number of its descendants, and no node is more complex than a node
    above it: a method is never more complex than its class or its
    unit. *)
Theorem complexity_bounds (root : SyntaxNode) :
  (1 <= CalculateCyclomaticComplexity root
   <= 1 + Count (DescendantNodes root))%Z
  /\ forall n,
       In n (DescendantNodes root) ->
       (CalculateCyclomaticComplexity n
        <= CalculateCyclomaticComplexity root)%Z.
Proof.
  split.
  - rewrite complexity_formula. unfold Count.
    pose proof (decisions_and_operators (DescendantNodes root)). lia.
  - intros n Hn. rewrite !complexity_formula. unfold Count.
    pose proof (descendants_sublist _ _ Hn) as Hs.
    pose proof (sublist_filter_length counted_node _ _ Hs).
    pose proof (sublist_filter_length short_circuit _ _ Hs).
    lia.
Qed.

Lemma complexity_bounds_witness :
  (CalculateCyclomaticComplexity
     (Node IfStatement (plain "if(true){}") [])
   <= CalculateCyclomaticComplexity
        (Node Block (plain "{ if(true){} }")
           [Node IfStatement (plain "if(true){}") []]))%Z.
Proof.
  apply (proj2 (complexity_bounds
                  (Node Block (plain "{ if(true){} }")
                     [Node IfStatement (plain "if(true){}") []]))).
  simpl. left. reflexivity.
Defined.

(** ** Diagnostics *)

(** X9: the diagnostics of the result are the compiler's diagnostics
    without the hidden ones, in the compiler's order; each has one of
    the severities [Info], [Warning] and [Error] and a location whose
    line and column count from 1. *)
Theorem hidden_diagnostics_dropped (diagnostics : list Diagnostic) :
  List.map Id (ConvertDiagnostics diagnostics)
  = List.map Diagnostic_Id (List.filter reported diagnostics)
  /\ List.map Location (ConvertDiagnostics diagnostics)
     = List.map (fun d => Some {| Line := (StartLine d + 1)%Z;
                                  Column := (StartCharacter d + 1)%Z;
                                  File := Path d |})
         (List.filter reported diagnostics)
  /\ Forall (fun r => In (Severity r) [lit "Info"; lit "Warning"; lit "Error"])
       (ConvertDiagnostics diagnostics).
Proof.
  unfold ConvertDiagnostics, reported.
  induction diagnostics as [|d ds [IH1 [IH2 IH3]]];
    [repeat split; constructor|].
  cbn [flat_map List.filter].
  destruct (Diagnostic_Severity d) eqn:E; cbn [app List.map];
    rewrite ?IH1, ?IH2; refine (conj eq_refl (conj eq_refl _));
    try exact IH3; constructor; try exact IH3;
    cbn [Severity Severity_ToString In]; auto.
Qed.

(** ** The two programs together *)




(** ** The orchestrator: failures of the process *)

(** X11: when the process ends with a code other than zero, or is ended by a
    signal, the call rejects with the code and with what the process
    wrote to standard error; what it wrote to standard output is
    dropped. *)
Theorem process_failure_reported env fs code fileName evs rest exitCode :
  isRoslynAvailable env fs = true ->
  child_events env fs code fileName = evs ++ close exitCode :: rest ->
  forallb is_data evs = true ->
  exitCode <> Some 0%Z ->
  outcome (analyzeCode env fs code fileName)
  = Some (Rejected (lit "Analysis failed (exit code "
                    ++ code_toString exitCode ++ lit "):" ++ [10]
                    ++ stderr_of evs)).
Proof.
  intros Ha Hev Hd Hc.
  rewrite (analyzeCode_close _ _ _ _ _ _ _ Ha Hev Hd).
  destruct exitCode as [[| |]|]; try congruence; reflexivity.
Qed.

Lemma process_failure_reported_witness :
  outcome (analyzeCode
             (env_of [stdout_data (lit "partial");
                      stderr_data (lit "Unhandled exception.");
                      close (Some 134%Z)])
             built (lit "class A {}") None)
  = Some (Rejected (lit "Analysis failed (exit code "
                    ++ code_toString (Some 134%Z) ++ lit "):" ++ [10]
                    ++ stderr_of [stdout_data (lit "partial");
                                  stderr_data (lit "Unhandled exception.")])).
Proof.
  apply (process_failure_reported (env_of _) built (lit "class A {}") None
           [stdout_data (lit "partial");
            stderr_data (lit "Unhandled exception.")] [] (Some 134%Z));
    [vm_compute; reflexivity|reflexivity|reflexivity|discriminate].
Defined.


Lemma filter_none_all {A} (p : A -> bool) (l : list A) :
  List.filter p l = [] -> List.filter (fun x => negb (p x)) l = l.
Proof.
  induction l as [|x l IH]; [reflexivity|]. cbn [List.filter].
  destruct (p x); [discriminate|]. cbn [negb]. intros H.
  now rewrite (IH H).
Qed.






(** ** The orchestrator: a process that does not end *)

(** Once the process has ended, the promise is settled or a listener
    waits for its unlink. *)
Lemma handle_end_settles env tempFile now st ev :
  is_data ev = false ->
  settled (handle env tempFile now st ev) <> None
  \/ awaiting (handle env tempFile now st ev) <> [].
Proof.
  assert (He : forall w q, enqueue w q <> []).
  { intros w [|v q]; cbn [enqueue]; [discriminate|].
    destruct (fst w <? fst v)%nat; discriminate. }
  destruct ev as [d|d|c|m]; try discriminate; intros _;
    cbn [handle]; destruct tempFile as [path|]; cbn [listen awaiting];
    try (right; apply He);
    left; rewrite finish_outcome; discriminate.
Qed.

Lemma handle_keeps_settling env tempFile now st ev :
  settled st <> None \/ awaiting st <> [] ->
  settled (handle env tempFile now st ev) <> None
  \/ awaiting (handle env tempFile now st ev) <> [].
Proof.
  intros H. destruct (is_data ev) eqn:E;
    [|now apply handle_end_settles].
  destruct ev as [d|d|c|m]; try discriminate E; exact H.
Qed.

Lemma resume_keeps_settling env now st :
  settled st <> None \/ awaiting st <> [] ->
  settled (resume env now st) <> None \/ awaiting (resume env now st) <> [].
Proof.
  intros H. rewrite resume_outcome.
  destruct (resume_frame env now st) as (_ & _ & _ & _ & _ & ->).
  destruct (settled st) as [o|]; [left; discriminate|].
  destruct H as [H|H]; [congruence|].
  destruct (List.filter (fun w => (fst w <=? now)%nat) (awaiting st))
    eqn:E; [|left; discriminate].
  right. now rewrite (filter_none_all _ _ E).
Qed.

Lemma drain_settles env st :
  settled st <> None \/ awaiting st <> [] ->
  settled (drain env st) <> None.
Proof.
  intros H. rewrite drain_outcome.
  destruct (settled st) as [o|]; [discriminate|].
  destruct H as [H|H]; [congruence|].
  destruct (awaiting st); [congruence|discriminate].
Qed.

Lemma deliver_settles env tempFile events now st :
  settled st <> None \/ awaiting st <> [] ->
  settled (deliver env tempFile now events st) <> None.
Proof.
  revert now st. induction events as [|ev events IH]; intros now st H;
    cbn [deliver].
  - now apply drain_settles.
  - pose proof (resume_keeps_settling env now _
                  (handle_keeps_settling env tempFile now st ev H)) as Hr.
    destruct ev; try (apply IH; exact Hr).
    now apply drain_settles.
Qed.

(** A pending promise has seen no end of the process. *)
Lemma deliver_pending env tempFile events now st :
  settled (deliver env tempFile now events st) = None ->
  forallb is_data events = true.
Proof.
  revert now st. induction events as [|ev events IH]; intros now st H;
    [reflexivity|].
  cbn [forallb]. destruct (is_data ev) eqn:E.
  - cbn [deliver] in H. destruct ev; try discriminate E;
      exact (IH _ _ H).
  - exfalso. revert H.
    pose proof (resume_keeps_settling env now _
                  (handle_end_settles env tempFile now st ev E)) as Hr.
    cbn [deliver]. destruct ev; try discriminate E.
    + now apply drain_settles.
    + now apply deliver_settles.
Qed.

(** A process that writes to its streams and does not end leaves the
    call as it was when the process started. *)
Lemma analyzeCode_pending env fs code fileName :
  isRoslynAvailable env fs = true ->
  process_started env fs code fileName = true ->
  forallb is_data (child_events env fs code fileName) = true ->
  exists tempFile codeInput fs1 log,
    staging env fs code fileName = inl (tempFile, codeInput, fs1, log)
    /\ analyzeCode env fs code fileName
       = {| outcome := None; files_after := fs1;
            trace := log ++ [Spawn (lit "dotnet") [dllPath env; codeInput]] |}.
Proof.
  intros Ha Hp Hd.
  destruct (analyzeCode_started env fs code fileName Ha Hp)
    as (tf & ci & fs1 & log & Hst & _ & ->).
  exists tf, ci, fs1, log. split; [exact Hst|]. cbv zeta.
  rewrite <- (List.app_nil_r (child_events env fs code fileName)).
  rewrite deliver_data by (assumption || reflexivity).
  cbn [deliver]. rewrite drain_idle by reflexivity. reflexivity.
Qed.

(** X13: the call has no timeout: its promise stays pending exactly when
    the analyzer is built, the call has started the process, having
    staged its input without an error, and the process neither closes
    nor fails to start; and while it is pending, the staged file is on
    disk with the code in it. *)
Theorem pending_without_end env fs code fileName :
  (outcome (analyzeCode env fs code fileName) = None
   <-> isRoslynAvailable env fs = true
       /\ process_started env fs code fileName = true
       /\ forallb is_data (child_events env fs code fileName) = true)
  /\ (isFilePath fileName = false ->
      outcome (analyzeCode env fs code fileName) = None ->
      files_after (analyzeCode env fs code fileName)
      = <[tempFilePath env := code]> fs).
Proof.
  assert (Hp : outcome (analyzeCode env fs code fileName) = None ->
               isRoslynAvailable env fs = true
               /\ process_started env fs code fileName = true
               /\ forallb is_data (child_events env fs code fileName)
                  = true).
  { unfold analyzeCode, child_events, process_started.
    destruct (isRoslynAvailable env fs); cbn [negb outcome];
      [|discriminate].
    destruct (staging env fs code fileName) as [[[[tf ci] fs1] log]|m];
      [|discriminate].
    destruct (spawn_error env (lit "dotnet") [dllPath env; ci]);
      [discriminate|].
    cbv zeta. cbn [outcome]. intros H. repeat split.
    exact (deliver_pending _ _ _ _ _ H). }
  split; [split; [exact Hp|]|].
  - intros (Ha & Hs & Hd).
    destruct (analyzeCode_pending env fs code fileName Ha Hs Hd)
      as (tf & ci & fs1 & log & _ & ->). reflexivity.
  - intros Hf Ho. destruct (Hp Ho) as (Ha & Hs & Hd).
    destruct (analyzeCode_pending env fs code fileName Ha Hs Hd)
      as (tf & ci & fs1 & log & Hst & ->).
    destruct (started_staged _ _ _ _ Hf Hs) as [Hw _].
    rewrite (staging_temp _ _ _ _ Hf Hw) in Hst.
    injection Hst as <- <- <- <-. reflexivity.
Qed.

Lemma pending_without_end_witness :
  files_after (analyzeCode (env_of [stdout_data (lit "{")])
                 built (lit "class A {}") None)
  = <[tempFilePath (env_of [stdout_data (lit "{")]) := lit "class A {}"]>
      built.
Proof.
  apply (proj2 (pending_without_end (env_of [stdout_data (lit "{")])
                  built (lit "class A {}") None));
    vm_compute; reflexivity.
Defined.

(** ** The orchestrator: a file name instead of code *)

(** X14: with a file name that ends in [.cs] the call takes the name for the
    path of a file: it spawns the analyzer on that name and does
    nothing else, it writes and deletes no file, and the code it was
    given has no part in the run. *)
Theorem file_name_replaces_code env fs code (f : text) :
  isRoslynAvailable env fs = true ->
  isFilePath (Some f) = true ->
  trace (analyzeCode env fs code (Some f))
  = [Spawn (lit "dotnet") [dllPath env; f]]
  /\ files_after (analyzeCode env fs code (Some f)) = fs
  /\ forall code', analyzeCode env fs code' (Some f)
                   = analyzeCode env fs code (Some f).
Proof.
  intros Ha Hf.
  destruct (analyzeCode_in_place env fs code f Ha Hf) as [Ht Hfs].
  refine (conj Ht (conj Hfs _)). intros code'.
  unfold analyzeCode. rewrite !(staging_file _ _ _ _ Hf). reflexivity.
Qed.

Lemma file_name_replaces_code_witness :
  trace (analyzeCode (env_of [stdout_data empty_output; close (Some 0%Z)])
           built (lit "class A {}") (Some (lit "Test.cs")))
  = [Spawn (lit "dotnet") [dllPath (env_of []); lit "Test.cs"]].
Proof.
  apply (file_name_replaces_code
           (env_of [stdout_data empty_output; close (Some 0%Z)])
           built (lit "class A {}") (lit "Test.cs"));
    vm_compute; reflexivity.
Defined.

(** ** The build *)







(** ** The report *)

Lemma StartsWith_app (s t : text) : StartsWith (s ++ t) s = true.
Proof.
  induction s as [|c s IH]; [reflexivity|].
  cbn [app StartsWith]. now rewrite N.eqb_refl, IH.
Qed.

Lemma Contains_StartsWith (s sub : text) :
  StartsWith s sub = true -> Contains s sub = true.
Proof. intros H. destruct s; cbn [Contains]; now rewrite H. Qed.

Lemma Contains_app_l (a s sub : text) :
  Contains s sub = true -> Contains (a ++ s) sub = true.
Proof.
  intros H. induction a as [|c a IH]; [exact H|].
  cbn [app Contains]. rewrite IH. apply orb_true_r.
Qed.

Lemma Contains_app_r (s b sub : text) :
  Contains s sub = true -> Contains (s ++ b) sub = true.
Proof.
  revert s. assert (Hs : forall s, StartsWith s sub = true ->
                                   StartsWith (s ++ b) sub = true).
  { induction sub as [|c sub IH]; intros s H; [reflexivity|].
    destruct s as [|d s]; [discriminate H|].
    cbn [app StartsWith] in *. apply andb_prop in H as [-> H].
    now rewrite IH. }
  induction s as [|c s IH]; intros H.
  - cbn [Contains] in H. rewrite orb_false_r in H.
    apply Contains_StartsWith, (Hs [] H).
  - cbn [app Contains] in *. apply orb_prop in H as [H|H].
    + apply Hs in H. cbn [app] in H. now rewrite H.
    + rewrite (IH H). apply orb_true_r.
Qed.

Lemma Contains_middle (a s b : text) : Contains (a ++ s ++ b) s = true.
Proof. apply Contains_app_l, Contains_StartsWith, StartsWith_app. Qed.

Lemma fold_left_lines {A} (line : A -> text) (l : list A) (acc : text) :
  fold_left (fun output x => output ++ line x) l acc
  = acc ++ concat (List.map line l).
Proof.
  revert acc. induction l as [|x l IH]; intros acc.
  - cbn. now rewrite List.app_nil_r.
  - cbn [fold_left List.map concat]. now rewrite IH, <- List.app_assoc.
Qed.

Lemma Contains_concat (line : text) (lines : list text) :
  In line lines -> Contains (concat lines) line = true.
Proof.
  induction lines as [|l lines IH]; intros H; [destruct H|].
  cbn [concat]. destruct H as [-> | H].
  - apply Contains_StartsWith, StartsWith_app.
  - apply Contains_app_l, IH, H.
Qed.

(** The report is the block of the four metrics, then the diagnostics
    under their heading, one line each, then the suggestions under
    theirs, one line each; a heading is written only when its list is
    not empty. *)
Lemma formatAnalysisResult_blocks (result : AnalysisResult) :
  Report.formatAnalysisResult result
  = (lit "## Code Metrics" ++ [10; 10]
     ++ lit "- Classes: " ++ of_Z (Classes (Metrics result)) ++ [10]
     ++ lit "- Methods: " ++ of_Z (Methods (Metrics result)) ++ [10]
     ++ lit "- Lines: " ++ of_Z (Lines (Metrics result)) ++ [10]
     ++ lit "- Cyclomatic Complexity: "
     ++ of_Z (CyclomaticComplexity (Metrics result)) ++ [10; 10])
    ++ match Diagnostics result with
       | [] => []
       | _ :: _ =>
           lit "## Diagnostics" ++ [10; 10]
           ++ concat (List.map Report.diagnostic_line (Diagnostics result))
       end
    ++ match Suggestions result with
       | [] => []
       | _ :: _ =>
           lit "## Suggestions" ++ [10; 10]
           ++ concat (List.map Report.suggestion_line (Suggestions result))
       end.
Proof.
  unfold Report.formatAnalysisResult. cbv zeta.
  rewrite (fold_left_lines Report.suggestion_line).
  assert (Hd : forall acc,
             fold_left
               (fun output diagnostic =>
                  output ++ lit "**" ++ Severity diagnostic ++ lit "** ["
                  ++ Id diagnostic ++ lit "]"
                  ++ match Location diagnostic with
                     | Some l =>
                         lit " (Line " ++ of_Z (Line l) ++ lit ", Col "
                         ++ of_Z (Column l) ++ lit ")"
                     | None => []
                     end
                  ++ lit ": " ++ Message diagnostic ++ [10; 10])
               (Diagnostics result) acc
             = acc ++ concat (List.map Report.diagnostic_line
                                (Diagnostics result)))
    by (intros acc; apply (fold_left_lines Report.diagnostic_line)).
  rewrite Hd.
  destruct (Diagnostics result), (Suggestions result);
    rewrite <- ?List.app_assoc, ?List.app_nil_r; reflexivity.
Qed.

(** X16: nothing is lost in the report: the line of every diagnostic of the
    result, with its severity, id, position and message, and the line
    of every suggestion occur in the text. *)
Theorem report_is_complete (result : AnalysisResult) :
  (forall diagnostic,
     In diagnostic (Diagnostics result) ->
     Contains (Report.formatAnalysisResult result)
       (Report.diagnostic_line diagnostic) = true)
  /\ (forall suggestion,
        In suggestion (Suggestions result) ->
        Contains (Report.formatAnalysisResult result)
          (lit "- " ++ suggestion ++ [10]) = true).
Proof.
  rewrite formatAnalysisResult_blocks. split.
  - intros d Hd. apply Contains_app_l, Contains_app_r.
    destruct (Diagnostics result) as [|d0 ds] eqn:E; [destruct Hd|].
    rewrite <- E in *.
    apply Contains_app_l, Contains_app_l, Contains_concat.
    now apply List.in_map.
  - intros s Hs. apply Contains_app_l, Contains_app_l.
    destruct (Suggestions result) as [|s0 ss] eqn:E; [destruct Hs|].
    rewrite <- E in *.
    apply Contains_app_l, Contains_app_l, Contains_concat.
    now apply (List.in_map Report.suggestion_line).
Qed.
(** ** Paths *)

Import Paths.

Lemma Split_nonempty (sep : N) (s : text) : Split sep s <> [].
Proof.
  destruct s as [|c s]; cbn [Split]; [discriminate|].
  destruct (c =? sep); [discriminate|].
  destruct (Split sep s); discriminate.
Qed.

Lemma Split_app_sep (sep : N) (a b : text) :
  Split sep (a ++ sep :: b) = Split sep a ++ Split sep b.
Proof.
  induction a as [|c a IH].
  - cbn [app Split]. now rewrite N.eqb_refl.
  - cbn [app Split]. rewrite IH.
    destruct (c =? sep); [reflexivity|].
    pose proof (Split_nonempty sep a).
    destruct (Split sep a); [congruence|reflexivity].
Qed.

Lemma Split_no_sep (sep : N) (f : text) :
  forallb (fun c => negb (c =? sep)) f = true -> Split sep f = [f].
Proof.
  induction f as [|c f IH]; [reflexivity|].
  cbn [forallb Split]. intros H. apply andb_prop in H as [Hc H].
  apply negb_true_iff in Hc. now rewrite Hc, (IH H).
Qed.

Lemma file_name_parts (f : text) :
  file_name f = true ->
  f <> [] /\ forallb (fun c => negb (c =? 47)) f = true
  /\ text_eqb f [] || text_eqb f (lit ".") = false
  /\ text_eqb f (lit "..") = false.
Proof.
  unfold file_name. rewrite !andb_true_iff, !negb_true_iff.
  intros [[[H1 H2] H3] H4]. rewrite H1, H3, H4.
  repeat split; try assumption.
  intros ->. discriminate H1.
Qed.

(** A file name at the end of the segments is the last segment kept. *)
Lemma normalize_segments_file (f : text) (a : bool) (segs acc : list text) :
  file_name f = true ->
  exists kept, normalize_segments (segs ++ [f]) acc a = kept ++ [f].
Proof.
  intros Hf. apply file_name_parts in Hf as (_ & _ & H1 & H2).
  revert acc. induction segs as [|seg segs IH]; intros acc.
  - cbn [app normalize_segments]. rewrite H1, H2. cbn [rev].
    now exists (rev acc).
  - cbn [app normalize_segments].
    repeat match goal with
      | |- context [if ?c then _ else _] => destruct c
      | |- context [match ?l with [] => _ | _ :: _ => _ end] => destruct l
      end; apply IH.
Qed.

Lemma join_segments_last (kept : list text) (f : text) :
  exists p, join_segments (kept ++ [f]) = p ++ f
            /\ directory_prefix p = true.
Proof.
  induction kept as [|seg kept [p [IH Hp]]].
  - now exists [].
  - exists (seg ++ [47] ++ p). split.
    + cbn [app]. change (join_segments (seg :: kept ++ [f]))
        with (match kept ++ [f] with
              | [] => seg
              | _ :: _ => seg ++ [47] ++ join_segments (kept ++ [f])
              end).
      destruct (kept ++ [f]) eqn:E; [now destruct kept|].
      rewrite IH, <- !List.app_assoc. reflexivity.
    + unfold directory_prefix in *. rewrite !List.rev_app_distr.
      destruct (rev p) eqn:E; [reflexivity|exact Hp].
Qed.

Lemma EndsWith_file (p f : text) :
  file_name f = true -> EndsWith (p ++ f) [47] = false.
Proof.
  intros Hf. apply file_name_parts in Hf as (Hn & Hs & _).
  unfold EndsWith. rewrite List.rev_app_distr.
  assert (H : exists c t, rev f = c :: t /\ (c =? 47) = false).
  { destruct (rev f) as [|c t] eqn:E.
    - apply (f_equal (@rev N)) in E. rewrite List.rev_involutive in E.
      now destruct Hn.
    - exists c, t. split; [reflexivity|].
      assert (Hc : In c f) by (apply List.in_rev; rewrite E; now left).
      rewrite forallb_forall in Hs. apply negb_true_iff, (Hs c Hc). }
  destruct H as (c & t & -> & Hc). cbn [app rev StartsWith].
  rewrite N.eqb_sym, Hc. reflexivity.
Qed.

(** [path.join] of segments that end in a file name gives a path that
    ends in that name, after a separator or alone. *)
Lemma path_join_file (args : list text) (f : text) :
  file_name f = true ->
  exists p, path_join (args ++ [f]) = p ++ f /\ directory_prefix p = true.
Proof.
  intros Hf. destruct (file_name_parts f Hf) as (Hn & Hs & _).
  unfold path_join. rewrite List.filter_app. cbn [List.filter].
  replace (negb (text_eqb f [])) with true
    by (symmetry; apply negb_true_iff, bool_decide_eq_false; exact Hn).
  destruct (join_segments_last
              (List.filter (fun arg => negb (text_eqb arg [])) args) f)
    as (q & Hq & Hqd).
  destruct (List.filter _ args ++ [f]) as [|j js] eqn:Ej;
    [now destruct (List.filter _ args)|].
  rewrite Hq. clear Ej Hq j js.
  unfold path_normalize.
  destruct (q ++ f) as [|c t] eqn:Eqf; [now destruct q, f|].
  rewrite <- Eqf. clear Eqf c t.
  rewrite (EndsWith_file q f Hf).
  assert (Hsplit : exists segs, Split 47 (q ++ f) = segs ++ [f]).
  { unfold directory_prefix in Hqd.
    destruct (rev q) as [|c r] eqn:Er.
    - apply (f_equal (@rev N)) in Er. rewrite List.rev_involutive in Er.
      subst q. exists []. apply (Split_no_sep 47 f Hs).
    - apply (f_equal (@rev N)) in Er. rewrite List.rev_involutive in Er.
      apply N.eqb_eq in Hqd. subst q c. cbn [rev].
      rewrite <- List.app_assoc. cbn [app].
      rewrite Split_app_sep, (Split_no_sep 47 f Hs).
      now exists (Split 47 (rev r)). }
  destruct Hsplit as [segs ->].
  destruct (normalize_segments_file f (negb (StartsWith (q ++ f) [47]))
              segs [] Hf) as [kept ->].
  destruct (join_segments_last kept f) as (p & -> & Hp).
  destruct (p ++ f) as [|c t] eqn:Epf; [now destruct p, f|].
  rewrite <- Epf. clear Epf c t.
  destruct (StartsWith (q ++ f) [47]).
  - exists (47 :: p). split; [reflexivity|].
    unfold directory_prefix in *. cbn [rev].
    destruct (rev p); [reflexivity|exact Hp].
  - now exists p.
Qed.

Lemma rev_file_name_split (p f : text) :
  file_name f = true -> directory_prefix p = true ->
  Split 47 (rev (p ++ f)) = rev f :: List.tl (Split 47 (rev p))
  \/ (p = [] /\ Split 47 (rev (p ++ f)) = [rev f]).
Proof.
  intros Hf Hp. destruct (file_name_parts f Hf) as (_ & Hs & _).
  assert (Hr : forallb (fun c => negb (c =? 47)) (rev f) = true).
  { rewrite forallb_forall in *. intros c Hc. apply Hs.
    now apply List.in_rev. }
  unfold directory_prefix in Hp. rewrite List.rev_app_distr.
  destruct (rev p) as [|c r] eqn:E.
  - right. apply (f_equal (@rev N)) in E. rewrite List.rev_involutive in E.
    subst p. rewrite List.app_nil_r. split; [reflexivity|].
    apply (Split_no_sep 47 _ Hr).
  - left. apply N.eqb_eq in Hp. subst c.
    rewrite Split_app_sep, (Split_no_sep 47 _ Hr).
    cbn [Split app List.tl]. rewrite N.eqb_refl. reflexivity.
Qed.

(** Two paths that end in file names are equal only when the names
    are. *)
Lemma file_name_of_path (p1 f1 p2 f2 : text) :
  file_name f1 = true -> file_name f2 = true ->
  directory_prefix p1 = true -> directory_prefix p2 = true ->
  p1 ++ f1 = p2 ++ f2 -> f1 = f2.
Proof.
  intros Hf1 Hf2 Hp1 Hp2 E.
  apply (f_equal (fun s => Split 47 (rev s))) in E.
  assert (H : forall p f, file_name f = true -> directory_prefix p = true ->
                exists t, Split 47 (rev (p ++ f)) = rev f :: t).
  { intros p f Hf Hp.
    destruct (rev_file_name_split p f Hf Hp) as [-> | [_ ->]]; eauto. }
  destruct (H p1 f1 Hf1 Hp1) as [t1 E1].
  destruct (H p2 f2 Hf2 Hp2) as [t2 E2].
  rewrite E1, E2 in E. injection E as E _.
  apply (f_equal (@rev N)) in E. now rewrite !List.rev_involutive in E.
Qed.

Lemma path_join_file_inj (args1 args2 : list text) (f1 f2 : text) :
  file_name f1 = true -> file_name f2 = true ->
  path_join (args1 ++ [f1]) = path_join (args2 ++ [f2]) -> f1 = f2.
Proof.
  intros Hf1 Hf2 E.
  destruct (path_join_file args1 f1 Hf1) as (p1 & E1 & Hp1).
  destruct (path_join_file args2 f2 Hf2) as (p2 & E2 & Hp2).
  rewrite E1, E2 in E.
  exact (file_name_of_path _ _ _ _ Hf1 Hf2 Hp1 Hp2 E).
Qed.
(** ** The staged file and the analyzer *)

Lemma forallb_app_true {A} (p : A -> bool) (l1 l2 : list A) :
  forallb p l1 = true -> forallb p l2 = true -> forallb p (l1 ++ l2) = true.
Proof. intros H1 H2. now rewrite List.forallb_app, H1, H2. Qed.

Lemma digits_no_separator (n : N) :
  forallb (fun c => negb (c =? 47)) (digits n) = true.
Proof.
  destruct (digits_spec n) as (d & ds & -> & Hd & _).
  rewrite forallb_forall in *. intros c Hc.
  specialize (Hd c Hc). apply is_digit_spec in Hd.
  apply negb_true_iff, N.eqb_neq. lia.
Qed.

Lemma of_Z_no_separator (z : Z) :
  forallb (fun c => negb (c =? 47)) (of_Z z) = true.
Proof.
  destruct z; cbn [of_Z forallb]; rewrite ?digits_no_separator; reflexivity.
Qed.

Lemma temp_file_name (z : Z) :
  file_name (lit "temp_" ++ of_Z z ++ lit ".cs") = true.
Proof.
  unfold file_name. rewrite !andb_true_iff, !negb_true_iff.
  refine (conj (conj (conj _ _) _) _);
    try (apply bool_decide_eq_false; discriminate).
  apply forallb_app_true; [reflexivity|].
  apply forallb_app_true; [apply of_Z_no_separator|reflexivity].
Qed.

Lemma temp_is_not_dll (env : Env) : tempFilePath env <> dllPath env.
Proof.
  unfold tempFilePath, dllPath. intros E.
  apply (path_join_file_inj [analyzerPath env]
           [analyzerPath env; lit "bin"; lit "Debug"; lit "net8.0"]
           _ (lit "CSharpAnalyzer.dll") (temp_file_name _) eq_refl) in E.
  discriminate E.
Qed.

(** X17: a call changes no file but the one it stages, and that file is
    never the compiled analyzer: whatever the process does and however
    the call ends, every other file is as before, so an analyzer that
    was available stays available. *)
Theorem call_changes_staged_file_only env fs code fileName :
  (forall path,
     path <> tempFilePath env ->
     files_after (analyzeCode env fs code fileName) !! path = fs !! path)
  /\ isRoslynAvailable env (files_after (analyzeCode env fs code fileName))
     = isRoslynAvailable env fs.
Proof.
  assert (H : forall path,
             path <> tempFilePath env ->
             files_after (analyzeCode env fs code fileName) !! path
             = fs !! path).
  { intros path Hp.
    destruct (isRoslynAvailable env fs) eqn:Ha;
      [|unfold analyzeCode; rewrite Ha; reflexivity].
    destruct (isFilePath fileName) eqn:Hf.
    - destruct fileName as [f|]; [|discriminate Hf].
      destruct (analyzeCode_in_place env fs code f Ha Hf) as [_ ->].
      reflexivity.
    - destruct (writeFile_error env (tempFilePath env)) as [m|] eqn:Hw.
      { unfold analyzeCode, staging. rewrite Ha, Hw. cbn [negb].
        destruct fileName; [rewrite Hf|]; reflexivity. }
      destruct (spawn_error env (lit "dotnet")
                  [dllPath env; tempFilePath env]) as [m|] eqn:Hs.
      { unfold analyzeCode. rewrite Ha. cbn [negb].
        rewrite (staging_temp _ _ _ _ Hf Hw), Hs. cbn [files_after].
        now apply lookup_insert_ne. }
      destruct (analyzeCode_staged env fs code fileName Ha Hf Hw Hs)
        as [(_ & -> & _)|(-> & _)].
      + now apply lookup_insert_ne.
      + destruct (unlink_error env (tempFilePath env)).
        * now apply lookup_insert_ne.
        * now apply lookup_delete_ne. }
  split; [exact H|].
  unfold isRoslynAvailable. rewrite H; [reflexivity|].
  intros E. now apply (temp_is_not_dll env).
Qed.

Lemma call_changes_staged_file_only_witness :
  files_after (analyzeCode (env_of [error (lit "spawn dotnet ENOENT")])
                 built (lit "class A {}") None)
  !! lit "/srv/mcp/roslyn-analyzer/Program.cs"
  = built !! lit "/srv/mcp/roslyn-analyzer/Program.cs".
Proof.
  apply (proj1 (call_changes_staged_file_only
                  (env_of [error (lit "spawn dotnet ENOENT")])
                  built (lit "class A {}") None)).
  vm_compute. discriminate.
Defined.

(** ** The documentation cache *)

Import Docs Worlds.

Lemma fetch_from_web_disk w disk docKey content disk' :
  fetch_from_web w disk docKey = inl (content, disk') ->
  disk' = <[cacheFile w docKey := (content, stamp w (cacheFile w docKey))]>
            disk.
Proof.
  unfold fetch_from_web. intros H.
  match type of H with
  | match ?fetched with inl _ => _ | inr _ => _ end = _ =>
      destruct fetched as [c|e]; [|discriminate H]
  end.
  unfold writeFile in H.
  destruct (write_error w (cacheFile w docKey)); [discriminate H|].
  injection H as <- <-. reflexivity.
Qed.

(** X18: a call of [fetchAndCacheDoc] changes no file but the cache file of
    its key, and when it changes that file, the file holds the reply:
    what is cached is what was answered. *)
Theorem cache_holds_the_reply w disk docKey :
  let reply := fst (fetchAndCacheDoc w disk docKey) in
  let disk' := snd (fetchAndCacheDoc w disk docKey) in
  (forall path, path <> cacheFile w docKey -> disk' !! path = disk !! path)
  /\ (disk' = disk
      \/ disk' !! cacheFile w docKey
         = Some (reply, stamp w (cacheFile w docKey))).
Proof.
  cbv zeta. unfold fetchAndCacheDoc.
  destruct (match disk !! cacheFile w docKey with
            | Some (content, mtimeMs) =>
                if (now w - mtimeMs <? maxAge)%Z then Some content else None
            | None => None
            end) as [content|]; cbn [fst snd]; [auto|].
  destruct (fetch_from_web w disk docKey) as [[content disk']|err] eqn:E;
    cbn [fst snd]; [|auto].
  apply fetch_from_web_disk in E. subst disk'. split.
  - intros path Hp. now apply lookup_insert_ne.
  - right. apply lookup_insert_eq.
Qed.

Lemma cache_holds_the_reply_witness :
  snd (fetchAndCacheDoc first_day old_copy (lit "csharp-design-guidelines"))
  !! cacheFile first_day (lit "dotnet-fundamentals")
  = old_copy !! cacheFile first_day (lit "dotnet-fundamentals").
Proof.
  apply (proj1 (cache_holds_the_reply first_day old_copy
                  (lit "csharp-design-guidelines"))).
  vm_compute. discriminate.
Defined.

Lemma cache_miss w disk docKey :
  no_fresh_copy w disk docKey ->
  fetchAndCacheDoc w disk docKey
  = match fetch_from_web w disk docKey with
    | inl (content, disk') => (content, disk')
    | inr err => (failure_text docKey err, disk)
    end.
Proof.
  unfold no_fresh_copy, fetchAndCacheDoc. intros H.
  destruct (disk !! cacheFile w docKey) as [[old m]|]; [|reflexivity].
  destruct (Z.ltb_spec (now w - m) maxAge); [lia|reflexivity].
Qed.

Lemma served_after_fetch w1 w2 disk docKey content disk1 :
  no_fresh_copy w1 disk docKey ->
  fetch_from_web w1 disk docKey = inl (content, disk1) ->
  module_dir w2 = module_dir w1 ->
  (now w2 - stamp w1 (cacheFile w1 docKey) < maxAge)%Z ->
  fetchAndCacheDoc w1 disk docKey = (content, disk1)
  /\ fetchAndCacheDoc w2 disk1 docKey = (content, disk1).
Proof.
  intros Hmiss Hfetch Hdir Hage. split.
  - rewrite (cache_miss _ _ _ Hmiss), Hfetch. reflexivity.
  - apply fetch_from_web_disk in Hfetch. subst disk1.
    unfold fetchAndCacheDoc.
    assert (Hc : cacheFile w2 docKey = cacheFile w1 docKey)
      by (unfold cacheFile, CACHE_DIR; now rewrite Hdir).
    rewrite Hc, lookup_insert_eq.
    destruct (Z.ltb_spec (now w2 - stamp w1 (cacheFile w1 docKey)) maxAge);
      [reflexivity|lia].
Qed.

(** X19: a document that was fetched and cached is served from the cache
    for seven days: when a call for a key other than the coding
    conventions finds no fresh copy, fetches the page and writes the
    document, its reply is the document, headed by the description and
    the URL of the source, and every call for the same key less than
    seven days after the write replies the same text and leaves the
    disk alone, whatever the network does then. *)
Theorem fetched_document_served_from_cache w1 w2 disk docKey url description
    rawContent :
  let content :=
    lit "# " ++ description ++ [10; 10] ++ lit "Source: " ++ url ++ [10; 10]
    ++ lit "---" ++ [10; 10] ++ rawContent in
  let disk1 :=
    <[cacheFile w1 docKey := (content, stamp w1 (cacheFile w1 docKey))]>
      disk in
  no_fresh_copy w1 disk docKey ->
  DOC_SOURCES_get docKey = Own url description ->
  docKey <> lit "csharp-coding-conventions" ->
  fetchDocumentation w1 url = inl rawContent ->
  write_error w1 (cacheFile w1 docKey) = None ->
  module_dir w2 = module_dir w1 ->
  (now w2 - stamp w1 (cacheFile w1 docKey) < maxAge)%Z ->
  fetchAndCacheDoc w1 disk docKey = (content, disk1)
  /\ fetchAndCacheDoc w2 disk1 docKey = (content, disk1).
Proof.
  intros content disk1 Hmiss Hsource Hkey Hfetch Hwrite Hdir Hage.
  apply served_after_fetch; try assumption.
  unfold fetch_from_web, writeFile. rewrite Hsource.
  replace (text_eqb docKey (lit "csharp-coding-conventions")) with false
    by (symmetry; now apply bool_decide_eq_false).
  rewrite Hfetch, Hwrite. reflexivity.
Qed.

Lemma fetched_document_served_from_cache_witness :
  fetchAndCacheDoc seventh_day_offline
    (<[cacheFile first_day (lit "dotnet-fundamentals")
       := (fundamentals_by_server,
           stamp first_day (cacheFile first_day (lit "dotnet-fundamentals")))]>
       ∅)
    (lit "dotnet-fundamentals")
  = (fundamentals_by_server,
     <[cacheFile first_day (lit "dotnet-fundamentals")
       := (fundamentals_by_server,
           stamp first_day (cacheFile first_day (lit "dotnet-fundamentals")))]>
       ∅).
Proof.
  apply (fetched_document_served_from_cache first_day seventh_day_offline ∅
           (lit "dotnet-fundamentals")
           (lit "https://learn.microsoft.com/en-us/dotnet/fundamentals/")
           (lit ".NET fundamentals and best practices")
           (lit "<main><h1>Fundamentals</h1></main>"));
    [vm_compute; exact I|reflexivity|vm_compute; discriminate|reflexivity
    |reflexivity|reflexivity|vm_compute; reflexivity].
Defined.

(** X20: without the network the coding conventions are answered from the
    built-in text, and that text is cached like a fetched document: a
    call that finds no fresh copy and cannot fetch the page replies
    the fallback and writes it, and for seven days every call replies
    the fallback, also when the page can be fetched again. *)
Theorem fallback_conventions_are_cached w1 w2 disk err :
  no_fresh_copy w1 disk (lit "csharp-coding-conventions") ->
  fetchDocumentation w1 coding_conventions_url = inr err ->
  write_error w1 (cacheFile w1 (lit "csharp-coding-conventions")) = None ->
  module_dir w2 = module_dir w1 ->
  (now w2 - stamp w1 (cacheFile w1 (lit "csharp-coding-conventions"))
   < maxAge)%Z ->
  let disk1 := snd (fetchAndCacheDoc w1 disk (lit "csharp-coding-conventions")) in
  fst (fetchAndCacheDoc w1 disk (lit "csharp-coding-conventions"))
  = getFallbackCodingConventions
  /\ fst (fetchAndCacheDoc w2 disk1 (lit "csharp-coding-conventions"))
     = getFallbackCodingConventions.
Proof.
  intros Hmiss Hfetch Hwrite Hdir Hage.
  assert (Hweb : fetch_from_web w1 disk (lit "csharp-coding-conventions")
                 = inl (getFallbackCodingConventions,
                        <[cacheFile w1 (lit "csharp-coding-conventions")
                          := (getFallbackCodingConventions,
                              stamp w1 (cacheFile w1
                                          (lit "csharp-coding-conventions")))]>
                          disk)).
  { unfold fetch_from_web, writeFile.
    change (DOC_SOURCES_get (lit "csharp-coding-conventions"))
      with (Own coding_conventions_url
              (lit "Official C# coding conventions and style guidelines")).
    change (text_eqb (lit "csharp-coding-conventions")
              (lit "csharp-coding-conventions")) with true.
    cbv iota. unfold fetchCodingConventions. cbv zeta.
    rewrite Hfetch, Hwrite. reflexivity. }
  destruct (served_after_fetch w1 w2 disk _ _ _ Hmiss Hweb Hdir Hage)
    as [H1 H2].
  cbv zeta. rewrite H1. cbn [fst snd]. rewrite H2. split; reflexivity.
Qed.

Lemma fallback_conventions_are_cached_witness :
  fst (fetchAndCacheDoc seventh_day
         (snd (fetchAndCacheDoc first_day_offline ∅
                 (lit "csharp-coding-conventions")))
         (lit "csharp-coding-conventions"))
  = getFallbackCodingConventions.
Proof.
  apply (fallback_conventions_are_cached first_day_offline seventh_day ∅
           (new_Error (lit "getaddrinfo ENOTFOUND learn.microsoft.com")));
    [vm_compute; exact I|reflexivity|reflexivity|reflexivity
    |vm_compute; reflexivity].
Defined.
(** X21: offline, a stale copy is not served: when the cache file of a
    document other than the coding conventions is seven days old or
    older and the page cannot be fetched, the reply is the text that
    names the key, the URL and the error, and the stale file stays as
    it is. *)
Theorem stale_copy_not_served w disk docKey url description old mtimeMs err :
  disk !! cacheFile w docKey = Some (old, mtimeMs) ->
  (maxAge <= now w - mtimeMs)%Z ->
  docKey <> lit "csharp-coding-conventions" ->
  DOC_SOURCES_get docKey = Own url description ->
  fetchDocumentation w url = inr err ->
  fetchAndCacheDoc w disk docKey
  = (lit "# " ++ docKey ++ [10; 10]
     ++ lit "Failed to fetch documentation from: " ++ url ++ [10; 10]
     ++ lit "Error: " ++ Error_toString err ++ [10; 10]
     ++ lit "Please check your internet connection and try again later.",
     disk).
Proof.
  intros Hfile Hage Hkey Hsource Hfetch.
  rewrite cache_miss by (unfold no_fresh_copy; now rewrite Hfile).
  unfold fetch_from_web, failure_text. rewrite Hsource.
  replace (text_eqb docKey (lit "csharp-coding-conventions")) with false
    by (symmetry; now apply bool_decide_eq_false).
  rewrite Hfetch. reflexivity.
Qed.

Lemma stale_copy_not_served_witness :
  fetchAndCacheDoc ninth_day_offline old_copy (lit "dotnet-fundamentals")
  = (lit "# " ++ lit "dotnet-fundamentals" ++ [10; 10]
     ++ lit "Failed to fetch documentation from: "
     ++ lit "https://learn.microsoft.com/en-us/dotnet/fundamentals/"
     ++ [10; 10] ++ lit "Error: "
     ++ Error_toString
          (new_Error (lit "getaddrinfo ENOTFOUND learn.microsoft.com"))
     ++ [10; 10]
     ++ lit "Please check your internet connection and try again later.",
     old_copy).
Proof.
  apply (stale_copy_not_served ninth_day_offline old_copy
           (lit "dotnet-fundamentals")
           (lit "https://learn.microsoft.com/en-us/dotnet/fundamentals/")
           (lit ".NET fundamentals and best practices")
           (lit "# old copy") 0%Z
           (new_Error (lit "getaddrinfo ENOTFOUND learn.microsoft.com")));
    [vm_compute; reflexivity|vm_compute; discriminate
    |vm_compute; discriminate|reflexivity|reflexivity].
Defined.

(** X22: a document that cannot be written to the cache is lost: when the
    page was fetched and [writeFile] fails, the reply is not the
    document but the text of a failed fetch, with the error of the
    write. *)
Theorem unwritable_cache_loses_document w disk docKey url description
    rawContent err :
  no_fresh_copy w disk docKey ->
  DOC_SOURCES_get docKey = Own url description ->
  docKey = lit "csharp-coding-conventions"
  \/ fetchDocumentation w url = inl rawContent ->
  write_error w (cacheFile w docKey) = Some err ->
  fetchAndCacheDoc w disk docKey
  = (lit "# " ++ docKey ++ [10; 10]
     ++ lit "Failed to fetch documentation from: " ++ url ++ [10; 10]
     ++ lit "Error: " ++ Error_toString err ++ [10; 10]
     ++ lit "Please check your internet connection and try again later.",
     disk).
Proof.
  intros Hmiss Hsource Hfetch Hwrite.
  rewrite (cache_miss _ _ _ Hmiss).
  unfold fetch_from_web, failure_text, writeFile. rewrite Hsource, Hwrite.
  destruct (text_eqb docKey (lit "csharp-coding-conventions")) eqn:E;
    [reflexivity|].
  destruct Hfetch as [-> | ->]; [discriminate E|reflexivity].
Qed.

Lemma unwritable_cache_loses_document_witness :
  fetchAndCacheDoc (read_only_world 0 page) ∅ (lit "dotnet-fundamentals")
  = (lit "# " ++ lit "dotnet-fundamentals" ++ [10; 10]
     ++ lit "Failed to fetch documentation from: "
     ++ lit "https://learn.microsoft.com/en-us/dotnet/fundamentals/"
     ++ [10; 10] ++ lit "Error: "
     ++ Error_toString (new_Error (lit "EACCES: permission denied"))
     ++ [10; 10]
     ++ lit "Please check your internet connection and try again later.",
     ∅).
Proof.
  apply (unwritable_cache_loses_document (read_only_world 0 page) ∅
           (lit "dotnet-fundamentals")
           (lit "https://learn.microsoft.com/en-us/dotnet/fundamentals/")
           (lit ".NET fundamentals and best practices")
           (lit "<main><h1>Fundamentals</h1></main>")
           (new_Error (lit "EACCES: permission denied")));
    [vm_compute; exact I|reflexivity|right; reflexivity|reflexivity].
Defined.

(** ** The resources *)

Lemma docKey_of_listed uri docKey :
  docKey_of uri = Some docKey ->
  In uri resources
  /\ exists url description, DOC_SOURCES_get docKey = Own url description.
Proof.
  unfold docKey_of, text_eqb.
  repeat case_bool_decide; intros Hk; try discriminate Hk;
    injection Hk as <-; subst uri;
    (split; [vm_compute; tauto|eexists _, _; reflexivity]).
Qed.

Lemma docKey_of_unlisted uri :
  docKey_of uri = None -> ~ In uri resources.
Proof.
  unfold docKey_of, text_eqb.
  repeat case_bool_decide; intros Hk; try discriminate Hk.
  cbn [resources In]. intuition congruence.
Qed.

(** X23: the resources that the server lists are the resources that it
    reads: reading a listed URI replies one text of type
    [text/markdown] under that URI and never fails for want of a
    source, since the key of every listed URI has a source; reading
    any other URI throws [Unknown resource] and leaves the disk
    alone. *)
Theorem listed_resources_are_readable w disk uri :
  (In uri resources ->
   exists docKey url description,
     docKey_of uri = Some docKey
     /\ DOC_SOURCES_get docKey = Own url description
     /\ ReadResource w disk uri
        = (inl [{| contents_uri := uri; mimeType := lit "text/markdown";
                   contents_text := fst (fetchAndCacheDoc w disk docKey) |}],
           snd (fetchAndCacheDoc w disk docKey)))
  /\ (~ In uri resources ->
      ReadResource w disk uri
      = (inr (new_Error (lit "Unknown resource: " ++ uri)), disk)).
Proof.
  unfold ReadResource.
  destruct (docKey_of uri) as [docKey|] eqn:E.
  - destruct (docKey_of_listed _ _ E) as [Hin (url & description & Hs)].
    split; [|tauto]. intros _. exists docKey, url, description.
    refine (conj eq_refl (conj Hs _)).
    now destruct (fetchAndCacheDoc w disk docKey).
  - pose proof (docKey_of_unlisted _ E). split; [tauto|reflexivity].
Qed.

Lemma listed_resources_are_readable_witness :
  ReadResource (world_at 0 offline) ∅ (lit "csharp://best-practices")
  = (inr (new_Error (lit "Unknown resource: "
                     ++ lit "csharp://best-practices")), ∅).
Proof.
  apply (proj2 (listed_resources_are_readable (world_at 0 offline) ∅
                  (lit "csharp://best-practices"))).
  vm_compute. intuition discriminate.
Defined.

(** ** The script that fills the cache *)

Lemma doc_file_name (doc : Doc) :
  In doc DOCS_TO_CACHE -> file_name (key doc ++ lit ".md") = true.
Proof.
  cbn [DOCS_TO_CACHE In]. intros [<-|[<-|[<-|[<-|[]]]]]; reflexivity.
Qed.

Lemma cache_files_differ w (k1 k2 : text) :
  file_name (k1 ++ lit ".md") = true -> file_name (k2 ++ lit ".md") = true ->
  cacheFile w k1 = cacheFile w k2 -> k1 = k2.
Proof.
  intros H1 H2 E. unfold cacheFile in E.
  apply (path_join_file_inj [CACHE_DIR w] [CACHE_DIR w] _ _ H1 H2) in E.
  now apply List.app_inv_tail in E.
Qed.

Lemma cache_doc_other w disk doc path :
  path <> cacheFile w (key doc) -> cache_doc w disk doc !! path = disk !! path.
Proof.
  intros Hp. unfold cache_doc, writeFile.
  destruct (fetch_doc w doc); [|reflexivity].
  destruct (write_error w _); [reflexivity|].
  now apply lookup_insert_ne.
Qed.

Lemma cache_docs_other w docs disk path :
  Forall (fun doc => path <> cacheFile w (key doc)) docs ->
  fold_left (cache_doc w) docs disk !! path = disk !! path.
Proof.
  revert disk. induction docs as [|doc docs IH]; intros disk H;
    [reflexivity|].
  apply List.Forall_cons_iff in H as [Hd H]. cbn [fold_left].
  rewrite (IH _ H). now apply cache_doc_other.
Qed.

Lemma cache_docs_written w docs disk doc content :
  NoDup (List.map key docs) ->
  Forall (fun d => file_name (key d ++ lit ".md") = true) docs ->
  In doc docs ->
  fetch_doc w doc = inl content ->
  write_error w (cacheFile w (key doc)) = None ->
  fold_left (cache_doc w) docs disk !! cacheFile w (key doc)
  = Some (content, stamp w (cacheFile w (key doc))).
Proof.
  intros Hnd Hfn Hin Hfetch Hwrite. revert disk.
  induction docs as [|d docs IH]; intros disk; [destruct Hin|].
  cbn [List.map] in Hnd. apply NoDup_cons in Hnd as [Hd Hnd].
  apply List.Forall_cons_iff in Hfn as [Hdf Hfn].
  cbn [fold_left]. destruct Hin as [-> | Hin].
  - rewrite cache_docs_other.
    + unfold cache_doc, writeFile. fold (cacheFile w (key doc)).
      rewrite Hfetch, Hwrite. apply lookup_insert_eq.
    + rewrite List.Forall_forall in *. intros d' Hd' E.
      apply cache_files_differ in E; [|assumption|now apply Hfn].
      apply Hd. rewrite E. apply list_elem_of_In. now apply List.in_map.
  - now apply IH.
Qed.

(** X24: what the script caches, the server serves: after a run of the
    script, every document that the script fetched and wrote is the
    reply of the server for its key, from the cache and without the
    network, for seven days after the write. *)
Theorem prepopulated_cache_is_served w1 w2 disk disk1 doc content :
  prepopulateCache w1 disk = inl disk1 ->
  In doc DOCS_TO_CACHE ->
  fetch_doc w1 doc = inl content ->
  write_error w1 (cacheFile w1 (key doc)) = None ->
  module_dir w2 = module_dir w1 ->
  (now w2 - stamp w1 (cacheFile w1 (key doc)) < maxAge)%Z ->
  fetchAndCacheDoc w2 disk1 (key doc) = (content, disk1).
Proof.
  intros Hrun Hin Hfetch Hwrite Hdir Hage.
  unfold prepopulateCache in Hrun.
  destruct (mkdir_error w1); [discriminate Hrun|].
  assert (Hd : disk1 = fold_left (cache_doc w1) DOCS_TO_CACHE disk)
    by congruence.
  subst disk1. clear Hrun.
  assert (Hc : cacheFile w2 (key doc) = cacheFile w1 (key doc))
    by (unfold cacheFile, CACHE_DIR; now rewrite Hdir).
  unfold fetchAndCacheDoc. rewrite Hc.
  rewrite (cache_docs_written w1 DOCS_TO_CACHE disk doc content);
    try assumption.
  - destruct (Z.ltb_spec (now w2 - stamp w1 (cacheFile w1 (key doc))) maxAge);
      [reflexivity|lia].
  - apply (bool_decide_unpack (NoDup (List.map key DOCS_TO_CACHE))).
    vm_compute. exact I.
  - apply List.Forall_forall. exact doc_file_name.
Qed.
(** ** The output of the analyzer is Basic Latin *)

Import Encoding Samples.

Lemma node_children_ind (P : node -> Prop) :
  P WNull -> (forall z, P (WNumber z)) -> (forall s, P (WString s)) ->
  (forall items, Forall P items -> P (WArray items)) ->
  (forall props, Forall (fun kv => P (snd kv)) props -> P (WObject props)) ->
  forall n, P n.
Proof.
  intros Hnull Hnum Hstr Harr Hobj. fix IH 1. intros [|z|s|items|props].
  - exact Hnull.
  - apply Hnum.
  - apply Hstr.
  - apply Harr. induction items as [|x xs IHxs]; constructor;
      [apply IH|exact IHxs].
  - apply Hobj. induction props as [|[k v] kvs IHkvs]; constructor;
      [apply IH|exact IHkvs].
Qed.

Lemma ascii_app (a b : text) :
  basic_latin (a ++ b) = basic_latin a && basic_latin b.
Proof. apply List.forallb_app. Qed.

Lemma hex_digit_ascii (n : N) : n < 16 -> hex_digit n < 128.
Proof. unfold hex_digit. intros H. destruct (N.ltb_spec n 10); lia. Qed.

Lemma u_escape_ascii (c : N) : c < 65536 -> basic_latin (u_escape c) = true.
Proof.
  intros H. unfold u_escape, basic_latin. cbn [forallb].
  assert (H1 : c / 4096 < 16) by (apply N.Div0.div_lt_upper_bound; lia).
  assert (H2 : (c / 256) mod 16 < 16) by (apply N.mod_lt; lia).
  assert (H3 : (c / 16) mod 16 < 16) by (apply N.mod_lt; lia).
  assert (H4 : c mod 16 < 16) by (apply N.mod_lt; lia).
  apply hex_digit_ascii in H1, H2, H3, H4.
  apply N.ltb_lt in H1, H2, H3, H4.
  now rewrite H1, H2, H3, H4.
Qed.

Lemma allowed_ascii (c : N) : allowed c = true -> (c <? 128) = true.
Proof.
  unfold allowed. rewrite !andb_true_iff, !N.leb_le.
  intros [[_ H] _]. apply N.ltb_lt. lia.
Qed.

Lemma escape_ascii_bounded (n : nat) (s : text) :
  (length s <= n)%nat -> code_units s = true -> basic_latin (escape s) = true.
Proof.
  revert s. induction n as [|n IH]; intros s Hlen Hs.
  - destruct s; [reflexivity|cbn in Hlen; lia].
  - destruct s as [|c s]; [reflexivity|].
    cbn [length] in Hlen. cbn [code_units forallb] in Hs.
    apply andb_prop in Hs as [Hc Hs]. apply N.ltb_lt in Hc.
    assert (IHs : basic_latin (escape s) = true) by (apply IH; [lia|exact Hs]).
    cbn [escape].
    destruct (allowed c) eqn:Ea.
    { cbn [basic_latin forallb]. fold (basic_latin (escape s)).
      now rewrite (allowed_ascii _ Ea), IHs. }
    repeat match goal with
      | |- context [if ?x =? ?y then _ else _] =>
          destruct (x =? y); [exact IHs|]
      end.
    destruct (is_high_surrogate c).
    + destruct s as [|d s']; [now apply u_escape_ascii|].
      cbn [forallb] in Hs. apply andb_prop in Hs as [Hd Hs'].
      apply N.ltb_lt in Hd.
      destruct (is_low_surrogate d).
      * rewrite !ascii_app, !u_escape_ascii by assumption.
        cbn [length] in Hlen. apply IH; [lia|exact Hs'].
      * rewrite ascii_app, u_escape_ascii by lia. exact IHs.
    + destruct (is_low_surrogate c);
        rewrite ascii_app, u_escape_ascii by lia; exact IHs.
Qed.

Lemma write_string_ascii (s : text) :
  code_units s = true -> basic_latin (write_string s) = true.
Proof.
  intros H. unfold write_string. rewrite !ascii_app.
  now rewrite (escape_ascii_bounded (length s) s (le_n _) H).
Qed.

Lemma digits_ascii (n : N) : basic_latin (digits n) = true.
Proof.
  destruct (digits_spec n) as (d & ds & -> & Hd & _).
  unfold basic_latin. rewrite forallb_forall in *. intros c Hc.
  specialize (Hd c Hc). apply is_digit_spec in Hd. apply N.ltb_lt. lia.
Qed.

Lemma of_Z_ascii (z : Z) : basic_latin (of_Z z) = true.
Proof.
  destruct z; cbn [of_Z]; apply digits_ascii.
Qed.

Lemma indent_ascii (d : nat) : basic_latin (indent d) = true.
Proof.
  unfold indent, basic_latin. apply forallb_forall. intros c Hc.
  apply List.repeat_spec in Hc. now subst c.
Qed.

Lemma write_items_ascii nl d close items :
  basic_latin nl = true -> close < 128 ->
  forallb basic_latin items = true ->
  basic_latin (write_items nl d close items) = true.
Proof.
  intros Hnl Hc. induction items as [|y ys IH]; intros H.
  - cbn [write_items]. rewrite !ascii_app, Hnl, indent_ascii.
    cbn. apply N.ltb_lt in Hc. now rewrite Hc.
  - cbn [forallb] in H. apply andb_prop in H as [Hy H].
    cbn [write_items]. rewrite !ascii_app, Hnl, indent_ascii, Hy, (IH H).
    reflexivity.
Qed.

Lemma write_seq_ascii nl d open close items :
  basic_latin nl = true -> open < 128 -> close < 128 ->
  forallb basic_latin items = true ->
  basic_latin (write_seq nl d open close items) = true.
Proof.
  intros Hnl Ho Hc H. unfold write_seq.
  apply N.ltb_lt in Ho. pose proof Hc as Hc'. apply N.ltb_lt in Hc'.
  destruct items as [|x xs].
  - cbn. now rewrite Ho, Hc'.
  - cbn [forallb] in H. apply andb_prop in H as [Hx H].
    rewrite !ascii_app, Hnl, indent_ascii, Hx,
      (write_items_ascii nl d close xs Hnl Hc H).
    cbn. now rewrite Ho.
Qed.

Lemma write_ascii (nl : text) (n : node) :
  basic_latin nl = true ->
  forall d, code_units_node n = true -> basic_latin (write nl d n) = true.
Proof.
  intros Hnl. induction n as [|z|s|items IH|props IH]
    using node_children_ind; intros d Hn; cbn [write code_units_node] in *.
  - reflexivity.
  - apply of_Z_ascii.
  - now apply write_string_ascii.
  - apply write_seq_ascii; try assumption; try lia.
    rewrite forallb_map. apply forallb_forall. intros x Hx.
    rewrite List.Forall_forall in IH. rewrite forallb_forall in Hn.
    apply IH; [exact Hx|apply Hn, Hx].
  - apply write_seq_ascii; try assumption; try lia.
    rewrite forallb_map. apply forallb_forall. intros [k v] Hkv.
    rewrite List.Forall_forall in IH. rewrite forallb_forall in Hn.
    specialize (Hn _ Hkv). cbn in Hn. apply andb_prop in Hn as [Hk Hv].
    rewrite !ascii_app, (write_string_ascii k Hk).
    pose proof (IH _ Hkv (S d) Hv) as Hw. cbn [snd] in Hw.
    rewrite Hw. reflexivity.
Qed.

(** X25: whatever characters the analysed code holds, the analyzer writes
    only Basic Latin to its standard output: every other character of
    a message or a suggestion leaves as an escape, so the text is the
    same bytes in every encoding of the pipe and no chunk of it ends
    inside a character. *)
Theorem analyzer_output_is_ascii
    (ParseText : text -> text -> SyntaxNode)
    (GetDiagnostics : SyntaxNode -> list Diagnostic)
    (NewLine : text) (ReadAllText : text -> option text)
    (arg : text) (args : list text) :
  let process := Main ParseText GetDiagnostics NewLine ReadAllText
                   (arg :: args) in
  let result :=
    match ReadAllText arg with
    | Some content => AnalyzeCode ParseText GetDiagnostics content arg
    | None => AnalyzeCode ParseText GetDiagnostics arg (lit "snippet.cs")
    end in
  basic_latin NewLine = true ->
  code_units_node (AnalysisResult_node result) = true ->
  basic_latin (StandardOutput process) = true.
Proof.
  intros process result Hnl Hr. subst process result. unfold Main.
  destruct (ReadAllText arg); cbn [StandardOutput]; unfold Serialize;
    rewrite ascii_app, Hnl, andb_true_r;
    apply write_ascii; auto.
Qed.

Lemma analyzer_output_is_ascii_witness :
  basic_latin (StandardOutput
           (Main non_ascii_unit no_diagnostics [13; 10] no_file
              [lit "class A {}"])) = true.
Proof.
  apply (analyzer_output_is_ascii non_ascii_unit no_diagnostics [13; 10]
           no_file (lit "class A {}") []);
    vm_compute; reflexivity.
Defined.
(** ** More of the two programs together *)




Lemma report_is_complete_witness :
  Contains (Report.formatAnalysisResult sample_result)
    (lit "- " ++ lit "Public method 'M' is missing XML documentation." ++ [10])
  = true.
Proof.
  apply (proj2 (report_is_complete sample_result)).
  vm_compute. tauto.
Defined.

Lemma prepopulated_cache_is_served_witness :
  fetchAndCacheDoc seventh_day_offline
    (fold_left (cache_doc first_day) DOCS_TO_CACHE ∅)
    (lit "dotnet-fundamentals")
  = (fundamentals_by_script,
     fold_left (cache_doc first_day) DOCS_TO_CACHE ∅).
Proof.
  apply (prepopulated_cache_is_served first_day seventh_day_offline ∅
           (fold_left (cache_doc first_day) DOCS_TO_CACHE ∅)
           fundamentals fundamentals_by_script);
    [reflexivity|vm_compute; tauto|vm_compute; reflexivity|reflexivity
    |reflexivity|vm_compute; reflexivity].
Defined.
(** ** What the analyzer is run on *)

(** X27: in staging mode the analyzer reads the staged file: when the
    process is the analyzer on the path of the staged file and finds
    the code there, the call resolves with the analysis of the code
    under the path of the staged file, so the locations of the
    diagnostics name that file and the [fileName] of the call appears
    nowhere. *)
Theorem staged_code_analysed_under_temp_name
    (ParseText : text -> text -> SyntaxNode)
    (GetDiagnostics : SyntaxNode -> list Diagnostic)
    (NewLine : text) (ReadAllText : text -> option text)
    (env : Env) (fs : FS) (code : text) (fileName : option text)
    (evs rest : list ChildEvent) :
  let process := Main ParseText GetDiagnostics NewLine ReadAllText
                   [tempFilePath env] in
  let result :=
    AnalyzeCode ParseText GetDiagnostics code (tempFilePath env) in
  isFilePath fileName = false ->
  ReadAllText (tempFilePath env) = Some code ->
  forallb is_ws NewLine = true ->
  well_formed_result result = true ->
  isRoslynAvailable env fs = true ->
  child_events env fs code fileName
  = evs ++ close (Some (ExitCode process)) :: rest ->
  forallb is_data evs = true ->
  stdout_of evs = StandardOutput process ->
  (exists more,
     trace (analyzeCode env fs code fileName)
     = WriteFile (tempFilePath env) code
       :: Spawn (lit "dotnet") [dllPath env; tempFilePath env] :: more)
  /\ outcome (analyzeCode env fs code fileName)
     = Some (Resolved (to_value (AnalysisResult_node result))).
Proof.
  intros process result Hf Hread Hnl Hwf Ha Hev Hd Hout. split.
  - destruct (started_staged _ _ _ _ Hf
                (events_started_app _ _ _ _ _ _ _ Hev)) as [Hw Hs].
    destruct (analyzeCode_staged env fs code fileName Ha Hf Hw Hs)
      as [(_ & _ & -> & _)|(_ & more & ->)]; eexists; reflexivity.
  - pose proof (analyzeCode_returns_result ParseText GetDiagnostics NewLine
                  ReadAllText (tempFilePath env) [] env fs code fileName
                  evs rest) as H.
    cbv zeta in H. rewrite Hread in H.
    exact (H Hnl Hwf Ha Hev Hd Hout).
Qed.

Lemma staged_code_analysed_under_temp_name_witness :
  outcome (analyzeCode
             (env_of [stdout_data (StandardOutput staged_process);
                      close (Some 0%Z)])
             built (lit "class A {}") (Some (lit "Calculator")))
  = Some (Resolved
            (to_value
               (AnalysisResult_node
                  (AnalyzeCode non_ascii_unit no_diagnostics
                     (lit "class A {}") (tempFilePath (env_of [])))))).
Proof.
  apply (staged_code_analysed_under_temp_name non_ascii_unit no_diagnostics
           [10] staged_file
           (env_of [stdout_data (StandardOutput staged_process);
                    close (Some 0%Z)])
           built (lit "class A {}") (Some (lit "Calculator"))
           [stdout_data (StandardOutput staged_process)] []);
    vm_compute; reflexivity.
Defined.

(** X28: with a file name that ends in [.cs] and names no file that
    the analyzer finds, the analyzer takes the name itself for the
    code: the call resolves with the analysis of the text of the name
    as a snippet, and the code of the call is not analysed. *)
Theorem missing_file_name_analysed_as_code
    (ParseText : text -> text -> SyntaxNode)
    (GetDiagnostics : SyntaxNode -> list Diagnostic)
    (NewLine : text) (ReadAllText : text -> option text)
    (env : Env) (fs : FS) (code f : text)
    (evs rest : list ChildEvent) :
  let process := Main ParseText GetDiagnostics NewLine ReadAllText [f] in
  let result := AnalyzeCode ParseText GetDiagnostics f (lit "snippet.cs") in
  isFilePath (Some f) = true ->
  ReadAllText f = None ->
  forallb is_ws NewLine = true ->
  well_formed_result result = true ->
  isRoslynAvailable env fs = true ->
  child_events env fs code (Some f)
  = evs ++ close (Some (ExitCode process)) :: rest ->
  forallb is_data evs = true ->
  stdout_of evs = StandardOutput process ->
  trace (analyzeCode env fs code (Some f))
  = [Spawn (lit "dotnet") [dllPath env; f]]
  /\ outcome (analyzeCode env fs code (Some f))
     = Some (Resolved (to_value (AnalysisResult_node result))).
Proof.
  intros process result Hf Hread Hnl Hwf Ha Hev Hd Hout. split.
  - apply (analyzeCode_in_place env fs code f Ha Hf).
  - pose proof (analyzeCode_returns_result ParseText GetDiagnostics NewLine
                  ReadAllText f [] env fs code (Some f) evs rest) as H.
    cbv zeta in H. rewrite Hread in H.
    exact (H Hnl Hwf Ha Hev Hd Hout).
Qed.

Lemma missing_file_name_analysed_as_code_witness :
  outcome (analyzeCode
             (env_of [stdout_data (StandardOutput named_process);
                      close (Some 0%Z)])
             built (lit "class A {}") (Some (lit "Test.cs")))
  = Some (Resolved
            (to_value
               (AnalysisResult_node
                  (AnalyzeCode non_ascii_unit no_diagnostics
                     (lit "Test.cs") (lit "snippet.cs"))))).
Proof.
  apply (missing_file_name_analysed_as_code non_ascii_unit no_diagnostics
           [10] no_file
           (env_of [stdout_data (StandardOutput named_process);
                    close (Some 0%Z)])
           built (lit "class A {}") (lit "Test.cs")
           [stdout_data (StandardOutput named_process)] []);
    vm_compute; reflexivity.
Defined.

(** ** Performance rules that report once *)

Lemma filter_at_most_one (P : text -> bool) (l : list text) (m : text) :
  sublist l [m] -> (length (List.filter P l) <= 1)%nat.
Proof.
  intros H. apply sublist_length in H.
  pose proof (List.filter_length_le P l). cbn [length] in H. lia.
Qed.

(** Empties the loops of the goal that the filter keeps nothing of. *)
Ltac empty_loops :=
  rewrite ?List.filter_app;
  rewrite ?ToListBeforeCount_none by reflexivity;
  repeat match goal with
    | |- context [List.filter ?P (ForEach ?l ?body)] =>
        let H := fresh in
        assert (H : List.filter P (ForEach l body) = [])
          by (apply ForEach_none; intros x; split_ifs; reflexivity);
        rewrite H; clear H
    | |- context [List.filter ?P (match ?l with [] => [] | _ :: _ => ?m end)] =>
        let H := fresh in
        assert (H : List.filter P (match l with [] => [] | _ :: _ => m end)
                    = [])
          by (destruct l; reflexivity);
        rewrite H; clear H
    end;
  rewrite ?List.app_nil_r; cbn [app].

(** X29: four of the performance rules report at most once for a unit,
    however often their pattern occurs: string concatenation in a
    loop, [string.Format] or [String.Concat], an await without
    [ConfigureAwait], and a chain of more than three LINQ calls. *)
Theorem performance_rules_reported_once (root : SyntaxNode) :
  Forall (fun about =>
            (length (List.filter about (GeneratePerformanceSuggestions root))
             <= 1)%nat)
    [about_loop_concatenation; about_string_format; about_configure_await;
     about_linq_chain].
Proof.
  unfold GeneratePerformanceSuggestions.
  repeat (apply List.Forall_cons; [|]); [..|apply List.Forall_nil];
    empty_loops.
  - apply (filter_at_most_one _ _ loop_concatenation_message),
      ForEach_at_most_one.
    intros x. split_ifs; auto.
  - match goal with
    | |- context [match ?l with [] => _ | _ :: _ => _ end] => destruct l
    end; vm_compute; lia.
  - apply (filter_at_most_one _ _ configure_await_message),
      ForEach_at_most_one.
    intros x. split_ifs; auto.
  - apply (filter_at_most_one _ _ linq_chain_message), ForEach_at_most_one.
    intros x. split_ifs; auto.
Qed.
